(** * Yosemite Valley Lodge availability checker: a shallow embedding

    This development embeds the testable logic of [yosemite_checker.py]
    (date generation, the two availability classifiers, the probing loop,
    the retry loop, the result store, the scheduler interval and the
    in-place configuration update of the notifier) and settles the
    properties stated about it.

    Conventions.
    - A [datetime.date] is represented by its proleptic Gregorian ordinal
      ([date.toordinal()]), an integer in [1, 3652059]; 2025-04-04 is
      739345.  [date + timedelta] and [date.weekday()] are written on
      ordinals exactly as CPython computes them, including the
      [OverflowError] raised when a result leaves the calendar.
    - Code that can raise returns a [result]; code that threads an
      external world (browser, network, disk) passes it explicitly.
    - [while] loops are defined by well-founded recursion on the measure
      that makes the Python loop terminate.
    - A Python [float] is a primitive float of Rocq: both are IEEE 754
      binary64 numbers whose operations round to nearest, ties to even. *)

From Stdlib Require Import ZArith Floats String Ascii List Lia Bool Sorted.
From Equations Require Import Equations.
From stdpp Require Import base option list gmap strings.

Local Open Scope Z_scope.

(** ** Python exceptions and fallible computations *)

Inductive exn : Type :=
  | OverflowError
  | KeyError
  | TypeError
  | ValueError
  | AttributeError
  | OSError
  | JSONDecodeError
  | WebDriverException
  | RequestException.

Inductive result (A : Type) : Type :=
  | Ok (a : A)
  | Raise (e : exn).
Arguments Ok {A} a.
Arguments Raise {A} e.

#[global] Instance result_ret : MRet result := @Ok.
#[global] Instance result_bind : MBind result := fun A B f m =>
  match m with
  | Ok a => f a
  | Raise e => Raise e
  end.

(** [inspect] keeps the equation of a scrutinee available to the
    termination proofs of the loops below. *)
Definition inspect {A : Type} (x : A) : { y : A | x = y } := exist _ x eq_refl.

(** ** Calendar days *)

Module Dates.

(** [datetime.date], as its ordinal. *)
Definition date : Type := Z.

(** [date.min.toordinal()] and [date.max.toordinal()] (9999-12-31). *)
Definition MINORD : Z := 1.
Definition MAXORD : Z := 3652059.

Definition valid_date (d : date) : Prop := MINORD <= d <= MAXORD.

(** [date.weekday()]: [(self.toordinal() + 6) % 7], Monday is 0. *)
Definition weekday (d : date) : Z := (d + 6) mod 7.

(** [datetime.timedelta(days=n)]: the magnitude is limited to
    999999999 days. *)
Definition timedelta (days : Z) : result Z :=
  if Z.abs days <=? 999999999 then Ok days else Raise OverflowError.

(** [date.__add__]: [o = self.toordinal() + other.days]; the result is
    a date when [0 < o <= _MAXORDINAL], otherwise [OverflowError]. *)
Definition date_add (d : date) (days : Z) : result date :=
  let o := d + days in
  if (0 <? o) && (o <=? MAXORD) then Ok o else Raise OverflowError.

(** [(date2 - date1).days]. *)
Definition days_between (date2 date1 : date) : Z := date2 - date1.

(** [_ymd2ord], used only to write calendar dates in examples. *)
Definition is_leap (y : Z) : bool :=
  (y mod 4 =? 0) && (negb (y mod 100 =? 0) || (y mod 400 =? 0)).

Definition days_before_month (y m : Z) : Z :=
  nth (Z.to_nat m) [0; 0; 31; 59; 90; 120; 151; 181; 212; 243; 273; 304; 334] 0
  + (if (2 <? m) && is_leap y then 1 else 0).

Definition ymd2ord (y m d : Z) : date :=
  let y1 := y - 1 in
  y1 * 365 + y1 / 4 - y1 / 100 + y1 / 400 + days_before_month y m + d.

End Dates.
Export Dates.

(** ** DateSetGenerator: [get_weekend_dates] *)

(** Membership test [current.weekday() in [4, 5, 6]]. *)
Definition is_weekend_day (d : date) : bool :=
  bool_decide (weekday d ∈ [4; 5; 6]).

Lemma date_add_ok (d n o : Z) : date_add d n = Ok o -> o = d + n.
Proof. unfold date_add. destruct (_ && _); congruence. Qed.

(** The body of [while current <= end_date:]. *)
Equations? weekend_loop (end_date current : date) (weekend_dates : list date)
  : result (list date) by wf (Z.to_nat (end_date + 1 - current)) lt :=
weekend_loop end_date current weekend_dates with Z_le_dec current end_date := {
  | right _ => Ok weekend_dates
  | left _ with inspect (date_add current 1) := {
      | exist _ (Raise e) _ => Raise e
      | exist _ (Ok next) E =>
          weekend_loop end_date next
            (if is_weekend_day current
             then weekend_dates ++ [current]
             else weekend_dates) } }.
Proof. apply date_add_ok in E. lia. Qed.

(** [get_weekend_dates(months_ahead)], with [datetime.date.today()] as an
    argument. *)
Definition get_weekend_dates (today : date) (months_ahead : Z) : result (list date) :=
  delta ← timedelta (30 * months_ahead);
  end_date ← date_add today delta;
  weekend_loop end_date today [].

(** The output as the specification words it: the days of
    [first, last] whose weekday is Friday, Saturday or Sunday, ascending. *)
Definition weekend_days_between (first last : date) : list date :=
  filter (fun d => is_weekend_day d = true) (seqZ first (last + 1 - first)).

(** ** ConsecutivePairFinder: [find_consecutive_days] *)

Definition is_weekend_pair (date1 date2 : date) : bool :=
  (days_between date2 date1 =? 1)
  && ((weekday date1 =? 4) && (weekday date2 =? 5)
      || (weekday date1 =? 5) && (weekday date2 =? 6)).

(** One iteration of [for i in range(len(available_dates) - 1)].  Both
    indexings are in range for every [i] the loop visits (lemma
    [find_consecutive_days_in_range]), so the [IndexError] branch is
    written as a no-op. *)
Definition consecutive_step (available_dates : list date)
    (consecutive_pairs : list (date * date)) (i : nat) : list (date * date) :=
  match available_dates !! i, available_dates !! S i with
  | Some date1, Some date2 =>
      if is_weekend_pair date1 date2
      then consecutive_pairs ++ [(date1, date2)]
      else consecutive_pairs
  | _, _ => consecutive_pairs
  end.

(** [range(len(l) - 1)] is empty for [len(l) = 0] (it is [range(-1)]),
    which is what the truncated subtraction on [nat] gives. *)
Definition find_consecutive_days (available_dates : list date) : list (date * date) :=
  foldl (consecutive_step available_dates) []
        (seq 0 (length available_dates - 1)).

(** The output as the specification words it: the positionally adjacent
    pairs, kept when they are one day apart and (Fri, Sat) or (Sat, Sun). *)
Definition adjacent_weekend_pairs_spec (l : list date) : list (date * date) :=
  filter (fun p => is_weekend_pair p.1 p.2 = true) (zip l (tail l)).

(** ** Text tests on page content

    A Python [str] is modelled by a [string] of 8-bit characters, which
    covers ASCII text: [needle in hay] is substring search, [str.lower()]
    maps A-Z to a-z, [\d] is 0-9 and [re.IGNORECASE] folds A-Z.  On other
    characters Python lowers, folds and classifies by the Unicode tables
    (the Kelvin sign lowers to k, for instance); a statement that rests
    on these tests beyond fixed ASCII phrases is made for ASCII pages
    ([ascii_page] below). *)

Module Text.

Fixpoint contains (needle hay : string) : bool :=
  String.prefix needle hay
  || match hay with
     | EmptyString => false
     | String _ hay' => contains needle hay'
     end.

Definition lower_ascii (c : ascii) : ascii :=
  let n := nat_of_ascii c in
  if (65 <=? n)%nat && (n <=? 90)%nat then ascii_of_nat (n + 32) else c.

Fixpoint lower (s : string) : string :=
  match s with
  | EmptyString => EmptyString
  | String c s' => String (lower_ascii c) (lower s')
  end.

(** [any(phrase in text for phrase in phrases)]. *)
Definition any_phrase_in (phrases : list string) (text : string) : bool :=
  existsb (fun phrase => contains phrase text) phrases.

Definition is_digit (c : ascii) : bool :=
  let n := nat_of_ascii c in (48 <=? n)%nat && (n <=? 57)%nat.

(** [re.compile(r'\$\d+').search(s)]: a dollar sign followed by a digit. *)
Fixpoint search_dollar_amount (s : string) : bool :=
  match s with
  | String "$" ((String d _) as s') => is_digit d || search_dollar_amount s'
  | String _ s' => search_dollar_amount s'
  | EmptyString => false
  end.

(** [re.compile(r'Book|Reserve', re.IGNORECASE).search(s)]. *)
Definition search_book_reserve (s : string) : bool :=
  contains "book" (lower s) || contains "reserve" (lower s).


End Text.
Export Text.

(** ** Page content

    The content one probe yields: the document tree, the browser's title
    and the URL the browser shows after the search was submitted (the one
    [is_results_url] is computed from).  An element carries its tag (lower
    case, as HTML documents expose it to XPath) and its [class] attribute
    (the empty string when absent).  Both variants are given the same
    [page]: the browser's [page_source] and the HTTP response body are the
    serialisation of [document], and BeautifulSoup's parse of that body is
    [document].  Text nodes are taken free of the characters that
    serialisation escapes (ampersand and angle brackets). *)

Module Page.

Inductive node : Type :=
  | TextNode (s : string)
  | Elem (tag class_ : string) (children : list node).

Record page : Type := mkPage {
  current_url : string;
  title : string;
  document : list node
}.

Definition concat_strings (l : list string) : string :=
  fold_right String.append EmptyString l.

Definition dquote : string := String (ascii_of_nat 34) EmptyString.

Fixpoint outer_html (n : node) : string :=
  match n with
  | TextNode s => s
  | Elem tag cls children =>
      concat_strings
        [ "<"; tag;
          (if String.eqb cls EmptyString then EmptyString
           else concat_strings [" class="; dquote; cls; dquote]);
          ">"; concat_strings (List.map outer_html children);
          "</"; tag; ">" ]
  end.

(** [browser.page_source] / [response.text]. *)
Definition page_source (p : page) : string :=
  concat_strings (List.map outer_html (document p)).

(** The elements whose text BeautifulSoup keeps in string classes of
    their own ([HTMLTreeBuilder.DEFAULT_STRING_CONTAINERS]: [script],
    [style] and [template] from bs4 4.9 on, [rt] and [rp] from 4.10 on).
    A string read while one of them is open is no plain
    [NavigableString]. *)
Definition string_containers : list string :=
  ["rt"; "rp"; "style"; "script"; "template"].

Definition is_string_container (tag : string) : bool :=
  existsb (String.eqb tag) string_containers.

(** [soup.get_text()]: the plain strings, in document order, joined
    without a separator; the text inside a string container is left
    out. *)
Fixpoint node_text (n : node) : string :=
  match n with
  | TextNode s => s
  | Elem tag _ children =>
      if is_string_container tag then EmptyString
      else concat_strings (List.map node_text children)
  end.

Definition get_text (p : page) : string :=
  concat_strings (List.map node_text (document p)).

(** Every node of a subtree, the root first (XPath [//node()]). *)
Fixpoint subtree (n : node) : list node :=
  match n with
  | TextNode _ => [n]
  | Elem _ _ children => n :: List.flat_map subtree children
  end.

Definition all_nodes (p : page) : list node :=
  List.flat_map subtree (document p).

(** The nodes outside every string container: the text nodes among them
    are the strings [get_text] joins. *)
Fixpoint visible_subtree (n : node) : list node :=
  match n with
  | TextNode _ => [n]
  | Elem tag _ children =>
      if is_string_container tag then []
      else n :: List.flat_map visible_subtree children
  end.

Definition visible_nodes (p : page) : list node :=
  List.flat_map visible_subtree (document p).

(** XPath [text()] converted to a string: the first text child, or the
    empty string. *)
Fixpoint first_text (children : list node) : string :=
  match children with
  | [] => EmptyString
  | TextNode s :: _ => s
  | Elem _ _ _ :: rest => first_text rest
  end.

(** BeautifulSoup's [tag.string]: defined when the tag has exactly one
    child, a string or a tag that itself has a [.string]. *)
Fixpoint tag_string (n : node) : option string :=
  match n with
  | TextNode s => Some s
  | Elem _ _ [child] => tag_string child
  | Elem _ _ _ => None
  end.

(** [len(find_elements(By.XPATH, ...)) > 0] and a non-empty [find_all]:
    some node of the document passes the test. *)
Definition exists_node (test : node -> bool) (p : page) : bool :=
  existsb test (all_nodes p).

Definition elem_test (test : string -> string -> list node -> bool) (n : node) : bool :=
  match n with
  | TextNode _ => false
  | Elem tag cls children => test tag cls children
  end.




End Page.
Export Page.

(** ** AvailabilityClassifier, browser variant
    ([YosemiteSeleniumChecker.check_availability], lines 539-628) *)

Module SeleniumClassifier.

Definition result_patterns : list string :=
  [ "Accommodation-Search/Results"; "accommodation-search/results";
    "Availability"; "results"; "search" ].

(** [any(pattern in current_url.lower() for pattern in result_patterns)] *)
Definition is_results_url (p : page) : bool :=
  existsb (fun pattern => contains pattern (lower (current_url p))) result_patterns.

Definition error_phrases : list string :=
  [ "action not allowed"; "access denied"; "error"; "unavailable"; "forbidden" ].

Definition no_availability_phrases : list string :=
  [ "no availability"; "not available"; "no rooms available"; "sold out";
    "no lodging available"; "no results found"; "couldn't find any results";
    "we couldn't find any results" ].

(** [page_source = self.browser.page_source.lower()]; the tests lower it
    once more. *)
Definition lowered_source (p : page) : string := lower (lower (page_source p)).

Definition has_error (p : page) : bool :=
  any_phrase_in error_phrases (lowered_source p).

Definition no_availability_found (p : page) : bool :=
  any_phrase_in no_availability_phrases (lowered_source p).

(** [//h1[contains(text(), 'Results')] | //h2[contains(text(), 'Results')] |
     //div[contains(@class, 'results-heading')] | //div[contains(@class, 'results')]] *)
Definition results_heading (p : page) : bool :=
  exists_node (elem_test (fun tag cls children =>
    (String.eqb tag "h1" && contains "Results" (first_text children))
    || (String.eqb tag "h2" && contains "Results" (first_text children))
    || (String.eqb tag "div" && contains "results-heading" cls)
    || (String.eqb tag "div" && contains "results" cls))) p.

(** [//button[contains(text(), 'Book') or contains(text(), 'Reserve') or
     contains(text(), 'Select') or contains(@class, 'book') or
     contains(@class, 'reserve') or contains(@class, 'select')]] *)
Definition has_book_button (p : page) : bool :=
  exists_node (elem_test (fun tag cls children =>
    String.eqb tag "button"
    && (contains "Book" (first_text children)
        || contains "Reserve" (first_text children)
        || contains "Select" (first_text children)
        || contains "book" cls || contains "reserve" cls || contains "select" cls))) p.

(** [//*[contains(text(), '$')]], [//*[contains(@class, 'price')]] and
    [//*[contains(@class, 'rate')]]: the three element lists whose lengths
    are added. *)
Definition price_elements1 (p : page) : list node :=
  List.filter (elem_test (fun _ _ children => contains "$" (first_text children)))
              (all_nodes p).
Definition price_elements2 (p : page) : list node :=
  List.filter (elem_test (fun _ cls _ => contains "price" cls)) (all_nodes p).
Definition price_elements3 (p : page) : list node :=
  List.filter (elem_test (fun _ cls _ => contains "rate" cls)) (all_nodes p).

Definition has_price (p : page) : bool :=
  (0 <? length (price_elements1 p) + length (price_elements2 p)
        + length (price_elements3 p))%nat.

(** [//div[contains(@class, 'room') or contains(@class, 'accommodation') or
     contains(@class, 'result-item') or contains(@class, 'lodging')]] *)
Definition has_room_details (p : page) : bool :=
  exists_node (elem_test (fun tag cls _ =>
    String.eqb tag "div"
    && (contains "room" cls || contains "accommodation" cls
        || contains "result-item" cls || contains "lodging" cls))) p.

Definition is_search_form_visible (p : page) : bool :=
  contains "search" (lowered_source p)
  && contains "check availability" (lowered_source p).

Definition is_results_page (p : page) : bool :=
  is_results_url p
  || results_heading p
  || contains "results" (lower (title p))
  || contains "availability" (lower (title p))
  || (contains "search results" (lowered_source p) && negb (is_search_form_visible p)).

Definition positive_signal (p : page) : bool :=
  has_book_button p || has_price p || has_room_details p.

(** [true_availability]. *)
Definition classify (p : page) : bool :=
  is_results_page p
  && positive_signal p
  && negb (no_availability_found p)
  && negb (has_error p).

End SeleniumClassifier.

(** ** AvailabilityClassifier, HTTP variant
    ([YosemiteRequestsChecker.check_availability], lines 751-791) *)

Module RequestsClassifier.

Definition no_availability_phrases : list string :=
  [ "no availability"; "not available"; "no rooms available"; "sold out";
    "no lodging available"; "no results found"; "couldn't find any results";
    "we couldn't find any results" ].

(** [page_text = soup.get_text().lower()] *)
Definition page_text (p : page) : string := lower (get_text p).

(** Computed by the source and not used in the verdict. *)
Definition no_availability (p : page) : bool :=
  any_phrase_in no_availability_phrases (page_text p).

(** [soup.find_all('div', class_=lambda c: c and ('rate' in c.lower() or
    'room' in c.lower()))].  BeautifulSoup applies the test to each class
    token and to the whole attribute; a needle without white space occurs
    in a token exactly when it occurs in the attribute. *)
Definition rate_elements (p : page) : list node :=
  List.filter (elem_test (fun tag cls _ =>
    String.eqb tag "div"
    && negb (String.eqb cls EmptyString)
    && (contains "rate" (lower cls) || contains "room" (lower cls)))) (all_nodes p).

(** [soup.find_all(['button', 'a'], string=re.compile(r'Book|Reserve',
    re.IGNORECASE))] *)
Definition book_buttons (p : page) : list node :=
  List.filter (fun n => elem_test (fun tag _ _ =>
    (String.eqb tag "button" || String.eqb tag "a")
    && match tag_string n with
       | Some s => search_book_reserve s
       | None => false
       end) n) (all_nodes p).

(** [soup.find_all(text=re.compile(r'\$\d+'))]: the matching text nodes. *)
Definition price_elements (p : page) : list node :=
  List.filter (fun n => match n with
                        | TextNode s => search_dollar_amount s
                        | Elem _ _ _ => false
                        end) (all_nodes p).

Definition has_dollar_sign (p : page) : bool := contains "$" (page_text p).

(** Truth value of a Python list. *)
Definition truthy {A} (l : list A) : bool :=
  match l with [] => false | _ :: _ => true end.

(** [has_availability = (rate_elements or book_buttons or price_elements
    or has_dollar_sign)], as the [if] reads it. *)
Definition classify (p : page) : bool :=
  truthy (rate_elements p) || truthy (book_buttons p)
  || truthy (price_elements p) || has_dollar_sign p.

End RequestsClassifier.

(** ** Configuration (the keys the checkers and the scheduler read) *)

(** A number of the configuration file: [json.load] yields an [int] or
    a [float]. *)
Inductive number : Type :=
  | PyInt (n : Z)
  | PyFloat (x : float).

Record config : Type := mkConfig {
  months_ahead : Z;
  check_friday_saturday : bool;
  check_saturday_sunday : bool;
  max_retries : Z;
  retry_delay_seconds : Z;
  check_interval_hours : number;
  interval_variation_percent : number
}.

(** [DEFAULT_CONFIG]. *)
Definition DEFAULT_CONFIG : config :=
  {| months_ahead := 6;
     check_friday_saturday := true;
     check_saturday_sunday := true;
     max_retries := 3;
     retry_delay_seconds := 60;
     check_interval_hours := PyInt 3;
     interval_variation_percent := PyInt 20 |}.

(** ** The probing loop shared by both checkers

    [W] is the state of everything outside the program (browser session,
    network, clock).  A page fetcher takes the check-in and check-out
    dates and either yields the page it ends on or raises inside the
    per-date [try]; the pauses between probes ([time.sleep]) change
    nothing the program reads and are left out. *)

Section ProbeLoop.

Context {W : Type}.
Variable cfg : config.
Variable fetch : W -> date -> date -> W * result page.
Variable classify : page -> bool.
Variable weekend_dates : list date.

(** The three [continue] tests, in source order. *)
Definition skipped (check_in_date : date) : bool :=
  if (weekday check_in_date =? 4) && negb (check_friday_saturday cfg) then true
  else if (weekday check_in_date =? 5) && negb (check_saturday_sunday cfg) then true
  else if negb (bool_decide (weekday check_in_date ∈ [4; 5])) then true
  else false.

(** [for i in range(len(weekend_dates) - 1)], inside the outer [try]: an
    exception raised outside the per-date [try] (the indexing, the
    [+ timedelta(days=1)]) ends the loop with what was accumulated. *)
Fixpoint probe_loop (indices : list nat) (w : W) (available_dates : list date)
  : W * list date :=
  match indices with
  | [] => (w, available_dates)
  | i :: rest =>
      match weekend_dates !! i with
      | None => (w, available_dates)
      | Some check_in_date =>
          match date_add check_in_date 1 with
          | Raise _ => (w, available_dates)
          | Ok check_out_date =>
              if skipped check_in_date then probe_loop rest w available_dates
              else
                let '(w', fetched) := fetch w check_in_date check_out_date in
                match fetched with
                | Ok content =>
                    probe_loop rest w'
                      (if classify content
                       then available_dates ++ [check_in_date]
                       else available_dates)
                | Raise _ => probe_loop rest w' available_dates
                end
          end
      end
  end.

Definition probe_all (w : W) : W * list date :=
  probe_loop (seq 0 (length weekend_dates - 1)) w [].

End ProbeLoop.

(** The candidate pairs as the specification words them: every generated
    date whose weekday is Friday or Saturday and whose flag is enabled,
    paired with the next calendar day. *)
Definition qualifies (cfg : config) (d : date) : bool :=
  (weekday d =? 4) && check_friday_saturday cfg
  || (weekday d =? 5) && check_saturday_sunday cfg.

Definition candidate_pairs_spec (cfg : config) (weekend_dates : list date)
  : list (date * date) :=
  List.map (fun d => (d, d + 1)) (List.filter (qualifies cfg) weekend_dates).

(** A fetcher that also records the date pairs it is asked for. *)
Definition recording {W : Type} (fetch : W -> date -> date -> W * result page)
  : W * list (date * date) -> date -> date -> (W * list (date * date)) * result page :=
  fun '(w, requested) check_in check_out =>
    let '(w', fetched) := fetch w check_in check_out in
    ((w', requested ++ [(check_in, check_out)]), fetched).

(** The date pairs the probing loop requests, in order.  They do not
    depend on what the fetcher answers (lemma [probed_pairs_any_fetcher]),
    so a fetcher that always fails is used to read them off. *)
Definition probed_pairs (cfg : config) (weekend_dates : list date) : list (date * date) :=
  (probe_all cfg (recording (fun (w : unit) _ _ => (w, Raise RequestException)))
             (fun _ => false) weekend_dates (tt, [])).1.2.

(** The weekdays of the dates a checker may report. *)
Definition friday_or_saturday (d : date) : Prop := weekday d = 4 \/ weekday d = 5.

(** ** [run_check], identical in both checker classes *)

(** ** Waiting

    [time.sleep(seconds)] for an [int]: [ValueError] for a negative
    length, [OverflowError] for one whose nanoseconds do not fit a signed
    64-bit integer. *)

Definition SLEEP_MAX : Z := 9223372036.

Definition sleep (seconds : Z) : result unit :=
  if seconds <? 0 then Raise ValueError
  else if SLEEP_MAX <? seconds then Raise OverflowError
  else Ok tt.

Section RunCheck.

Context {W : Type}.
Variable cfg : config.
Variable check_availability : W -> W * result (list date).

(** [while retries < max_retries:].  Leaving the loop without entering
    it (when [max_retries <= 0]) makes the Python function return [None],
    here the [None] result.  Before another attempt the loop calls
    [time.sleep(retry_delay)]: for a delay that [sleep] accepts the call
    returns and changes nothing a checker reads, and this is the run the
    function describes; a delay that [sleep] rejects makes the call raise
    out of [run_check], so statements about a run of more than one attempt
    assume [sleep (retry_delay_seconds cfg) = Ok tt]. *)
Equations? run_check_loop (retries : Z) (w : W)
  : W * option (list date * list (date * date))
  by wf (Z.to_nat (max_retries cfg - retries)) lt :=
run_check_loop retries w with Z_lt_dec retries (max_retries cfg) := {
  | right _ => (w, None)
  | left _ with check_availability w := {
      | (w', Ok available_dates) =>
          (w', Some (available_dates, find_consecutive_days available_dates))
      | (w', Raise _) with Z_lt_dec (retries + 1) (max_retries cfg) := {
          | left _ => run_check_loop (retries + 1) w'
          | right _ => (w', Some ([], [])) } } }.
Proof. lia. Qed.

Definition run_check_with (w : W) : W * option (list date * list (date * date)) :=
  run_check_loop 0 w.

End RunCheck.

(** ** The two checkers *)

(** What the browser offers: whether the checker holds a browser
    ([self.browser] is set), starting it, probing one date pair (lines
    269-539: navigation, form interaction, recovery, ending on the page
    that is classified) and quitting it. *)
Class Browser (W : Type) : Type := {
  browser_started : W -> bool;
  setup_browser : W -> W * result unit;
  browser_fetch : W -> date -> date -> W * result page;
  browser_quit : W -> W * result unit
}.

(** What the HTTP session offers: the first visit of the main page and
    the search request of one date pair. *)
Class Session (W : Type) : Type := {
  get_main_page : W -> W * result unit;
  session_fetch : W -> date -> date -> W * result page
}.

(** [datetime.date.today()]. *)
Class Clock (W : Type) : Type := {
  today : W -> date
}.

Module YosemiteSeleniumChecker.
Section Checker.
Context {W : Type} {Hbrowser : Browser W} {Hclock : Clock W}.
Variable cfg : config.

(** [setup_browser] runs when no browser is held; it and
    [get_weekend_dates] are outside the [try] and their exceptions
    propagate.  The [finally] quits the browser that is held; if quitting
    raises, that exception propagates instead of the [return]. *)
Definition check_availability (w : W) : W * result (list date) :=
  let '(w1, started) :=
    if browser_started w then (w, Ok tt) else setup_browser w in
  match started with
  | Raise e => (w1, Raise e)
  | Ok _ =>
      match get_weekend_dates (today w1) (months_ahead cfg) with
      | Raise e => (w1, Raise e)
      | Ok weekend_dates =>
          let '(w2, available_dates) :=
            probe_all cfg browser_fetch SeleniumClassifier.classify weekend_dates w1 in
          let '(w3, quitted) :=
            if browser_started w2 then browser_quit w2 else (w2, Ok tt) in
          match quitted with
          | Raise e => (w3, Raise e)
          | Ok _ => (w3, Ok available_dates)
          end
      end
  end.

Definition run_check : W -> W * option (list date * list (date * date)) :=
  run_check_with cfg check_availability.

End Checker.
End YosemiteSeleniumChecker.

Module YosemiteRequestsChecker.
Section Checker.
Context {W : Type} {Hsession : Session W} {Hclock : Clock W}.
Variable cfg : config.

(** [get_weekend_dates] is outside the [try]; a failure of the first
    visit of the main page is caught by the outer [except] and the empty
    list is returned. *)
Definition check_availability (w : W) : W * result (list date) :=
  match get_weekend_dates (today w) (months_ahead cfg) with
  | Raise e => (w, Raise e)
  | Ok weekend_dates =>
      let '(w1, main_page) := get_main_page w in
      match main_page with
      | Raise _ => (w1, Ok [])
      | Ok _ =>
          let '(w2, available_dates) :=
            probe_all cfg session_fetch RequestsClassifier.classify weekend_dates w1 in
          (w2, Ok available_dates)
      end
  end.

Definition run_check : W -> W * option (list date * list (date * date)) :=
  run_check_with cfg check_availability.

End Checker.
End YosemiteRequestsChecker.

(** ** ISO calendar strings

    [date.isoformat()] and [date.fromisoformat()] for the format
    [YYYY-MM-DD].  [ord2ymd] is CPython's [_ord2ymd]. *)

Module Iso.

Definition DAYS_IN_MONTH : list Z := [-1; 31; 28; 31; 30; 31; 30; 31; 31; 30; 31; 30; 31].
Definition DAYS_BEFORE_MONTH : list Z :=
  [-1; 0; 31; 59; 90; 120; 151; 181; 212; 243; 273; 304; 334].

Definition b2z (b : bool) : Z := if b then 1 else 0.

Definition ord2ymd (ordinal : Z) : Z * Z * Z :=
  let n := ordinal - 1 in
  let n400 := n / 146097 in
  let n := n mod 146097 in
  let year := n400 * 400 + 1 in
  let n100 := n / 36524 in
  let n := n mod 36524 in
  let n4 := n / 1461 in
  let n := n mod 1461 in
  let n1 := n / 365 in
  let n := n mod 365 in
  let year := year + n100 * 100 + n4 * 4 + n1 in
  if (n1 =? 4) || (n100 =? 4) then (year - 1, 12, 31)
  else
    let leapyear := (n1 =? 3) && (negb (n4 =? 24) || (n100 =? 3)) in
    let month := Z.shiftr (n + 50) 5 in
    let preceding :=
      nth (Z.to_nat month) DAYS_BEFORE_MONTH 0 + b2z ((2 <? month) && leapyear) in
    if n <? preceding then
      let month := month - 1 in
      let preceding :=
        preceding - (nth (Z.to_nat month) DAYS_IN_MONTH 0
                     + b2z ((month =? 2) && leapyear)) in
      (year, month, n - preceding + 1)
    else (year, month, n - preceding + 1).

Definition digit_char (k : Z) : ascii := ascii_of_nat (48 + Z.to_nat k).

Definition digit_value (c : ascii) : option Z :=
  if is_digit c then Some (Z.of_nat (nat_of_ascii c) - 48) else None.

(** ["%04d-%02d-%02d" % (year, month, day)] *)
Definition isoformat (d : date) : string :=
  let '(y, m, dd) := ord2ymd d in
  String (digit_char (y / 1000 mod 10)) (String (digit_char (y / 100 mod 10))
  (String (digit_char (y / 10 mod 10)) (String (digit_char (y mod 10))
  (String "-" (String (digit_char (m / 10 mod 10)) (String (digit_char (m mod 10))
  (String "-" (String (digit_char (dd / 10 mod 10)) (String (digit_char (dd mod 10))
  EmptyString))))))))).

Definition days_in_month (y m : Z) : Z :=
  nth (Z.to_nat m) DAYS_IN_MONTH 0 + b2z ((m =? 2) && is_leap y).

(** Ten characters [YYYY-MM-DD] naming a calendar day; anything else is
    a [ValueError].  This is [date.fromisoformat] of Python 3.7 to 3.10;
    from 3.11 on it also reads the basic and the week forms of ISO 8601,
    and agrees with this function on strings of the form [YYYY-MM-DD]. *)
Definition fromisoformat (s : string) : result date :=
  match s with
  | String y3 (String y2 (String y1 (String y0 (String "-" (String m1 (String m0
      (String "-" (String d1 (String d0 EmptyString))))))))) =>
      match digit_value y3, digit_value y2, digit_value y1, digit_value y0,
            digit_value m1, digit_value m0, digit_value d1, digit_value d0 with
      | Some a, Some b, Some c, Some d, Some e, Some f, Some g, Some h =>
          let y := 1000 * a + 100 * b + 10 * c + d in
          let m := 10 * e + f in
          let dd := 10 * g + h in
          if (1 <=? y) && (1 <=? m) && (m <=? 12) && (1 <=? dd)
             && (dd <=? days_in_month y m)
          then Ok (ymd2ord y m dd) else Raise ValueError
      | _, _, _, _, _, _, _, _ => Raise ValueError
      end
  | _ => Raise ValueError
  end.

End Iso.

(** ** ResultStore: [save_results] and [load_last_results] *)

(** A parsed JSON document.  An object keeps its members in order, as
    the [dict] that [json.load] builds does. *)
Inductive json : Type :=
  | JNull
  | JBool (b : bool)
  | JNum (n : Z)
  | JStr (s : string)
  | JArr (items : list json)
  | JObj (members : list (string * json)).

(** What [last_results.json] holds: nothing parseable, or a document. *)
Inductive file_content : Type :=
  | Garbage
  | Document (data : json).

Inductive file_state : Type :=
  | Absent
  | Present (readable : bool) (content : file_content).

(** What happens when the file is opened for writing and dumped to:
    the dump completes, [open] fails (the file is left as it was), or
    the dump fails after the file was truncated. *)
Inductive write_outcome : Type :=
  | WriteCompletes
  | OpenFails
  | DumpFails.

Section Store.

Variable isoformat : date -> string.
Variable fromisoformat : string -> result date.

(** The [results] dictionary; [json.dump] writes a tuple as an array. *)
Definition results_document (timestamp : string) (available_dates : list date)
    (consecutive_pairs : list (date * date)) : json :=
  JObj [ ("timestamp", JStr timestamp);
         ("available_dates", JArr (List.map (fun d => JStr (isoformat d)) available_dates));
         ("consecutive_pairs",
          JArr (List.map (fun p => JArr [JStr (isoformat p.1); JStr (isoformat p.2)])
                         consecutive_pairs)) ].

(** [save_results]: every exception is caught and logged. *)
Definition save_results (outcome : write_outcome) (timestamp : string)
    (available_dates : list date) (consecutive_pairs : list (date * date))
    (file : file_state) : file_state :=
  match outcome with
  | WriteCompletes =>
      Present true (Document (results_document timestamp available_dates consecutive_pairs))
  | OpenFails => file
  | DumpFails => Present true Garbage
  end.

(** [data.get(key, [])]: only a [dict] has [get]. *)
Fixpoint members_get (members : list (string * json)) (key : string) : option json :=
  match members with
  | [] => None
  | (k, v) :: rest => if String.eqb k key then Some v else members_get rest key
  end.

Definition data_get (data : json) (key : string) : result json :=
  match data with
  | JObj members => Ok (default (JArr []) (members_get members key))
  | _ => Raise AttributeError
  end.

Fixpoint characters (s : string) : list json :=
  match s with
  | EmptyString => []
  | String c s' => JStr (String c EmptyString) :: characters s'
  end.

(** Iterating a JSON value: a list yields its items, a string its
    characters, a dict its keys; the rest is not iterable. *)
Definition iterate (v : json) : result (list json) :=
  match v with
  | JArr items => Ok items
  | JStr s => Ok (characters s)
  | JObj members => Ok (List.map (fun kv => JStr kv.1) members)
  | _ => Raise TypeError
  end.

(** [datetime.date.fromisoformat(d)]: the argument must be a [str]. *)
Definition parse_date (v : json) : result date :=
  match v with
  | JStr s => fromisoformat s
  | _ => Raise TypeError
  end.

(** A list comprehension whose element expression can raise. *)
Fixpoint comprehension {A B} (f : A -> result B) (l : list A) : result (list B) :=
  match l with
  | [] => Ok []
  | x :: rest => y ← f x; ys ← comprehension f rest; Ok (y :: ys)
  end.

(** [for d1, d2 in ...]: each item is unpacked into exactly two. *)
Definition parse_pair (v : json) : result (date * date) :=
  parts ← iterate v;
  match parts with
  | [d1; d2] => date1 ← parse_date d1; date2 ← parse_date d2; Ok (date1, date2)
  | _ => Raise ValueError
  end.

(** The [try] block of [load_last_results]. *)
Definition load_last_results_body (file : file_state)
  : result (list date * list (date * date)) :=
  match file with
  | Absent => Ok ([], [])
  | Present false _ => Raise OSError
  | Present true Garbage => Raise JSONDecodeError
  | Present true (Document data) =>
      dates_json ← data_get data "available_dates";
      dates_items ← iterate dates_json;
      available_dates ← comprehension parse_date dates_items;
      pairs_json ← data_get data "consecutive_pairs";
      pairs_items ← iterate pairs_json;
      consecutive_pairs ← comprehension parse_pair pairs_items;
      Ok (available_dates, consecutive_pairs)
  end.

(** [load_last_results]: [except Exception] returns the empty result. *)
Definition load_last_results (file : file_state) : list date * list (date * date) :=
  match load_last_results_body file with
  | Ok loaded => loaded
  | Raise _ => ([], [])
  end.

End Store.

(** ** ResultDiffer: [compare_results] *)

(** [list(set(current) - set(previous))].  Python lists the difference
    in an order that depends on the hashes of the dates; here it is listed
    in ascending order, and what is stated of it is stated of its
    members. *)
Definition compare_results (current previous : list date) : list date :=
  elements ((list_to_set current : gset Z) ∖ list_to_set previous).

(** ** Scheduler: one pass of the [while True] loop of
    [run_availability_checker] *)

Inductive cycle_outcome : Type :=
  | CycleDone (notified : bool)
  | UnexpectedError.

(** What the loop carries from one pass to the next, with the results
    file. *)
Record scheduler_state : Type := mkSched {
  last_results_file : file_state;
  previous_available_dates : list date;
  previous_consecutive_pairs : list (date * date)
}.

Section Cycle.

Context {W : Type}.
Variable isoformat : date -> string.
(** [checker.run_check()] of the configured checker. *)
Variable run_check : W -> W * option (list date * list (date * date)).
(** The disk when [save_results] writes, and [datetime.now().isoformat()]. *)
Variable write_outcome_at : W -> write_outcome.
Variable now_isoformat : W -> string.
(** [send_email_notification(config, ...)], which raises only on a
    configuration without the keys it reads. *)
Variable notify : W -> list date -> list (date * date) -> W * result unit.

(** The [try] block and its [except Exception] handler.  Unpacking the
    [None] that [run_check] returns when its loop is not entered raises
    [TypeError], which the handler logs. *)
Definition run_cycle (st : scheduler_state) (w : W)
  : W * scheduler_state * cycle_outcome :=
  let '(w1, checked) := run_check w in
  match checked with
  | None => (w1, st, UnexpectedError)
  | Some (available_dates, consecutive_pairs) =>
      let saved :=
        save_results isoformat (write_outcome_at w1) (now_isoformat w1)
                     available_dates consecutive_pairs (last_results_file st) in
      let new_dates := compare_results available_dates (previous_available_dates st) in
      let new_consecutive := find_consecutive_days new_dates in
      match new_dates with
      | _ :: _ =>
          let '(w2, sent) := notify w1 new_dates new_consecutive in
          match sent with
          | Raise _ =>
              (w2, mkSched saved (previous_available_dates st)
                           (previous_consecutive_pairs st), UnexpectedError)
          | Ok _ => (w2, mkSched saved available_dates consecutive_pairs, CycleDone true)
          end
      | [] => (w1, mkSched saved available_dates consecutive_pairs, CycleDone false)
      end
  end.

End Cycle.

(** ** Scheduler: [calculate_next_check_time]

    The two configured numbers are [int]s or [float]s; every operation
    is the one Python applies to the types of its operands, with its
    rounding and its exceptions. *)

Module Interval.

(** [float(n)], the conversion an arithmetic operator applies to an [int]
    operand that meets a [float]: the nearest double, ties to even, and
    [OverflowError] when that is beyond the largest double. *)
Definition float_of_int (n : Z) : result float :=
  match binary_normalize prec emax n 0 false with
  | S754_infinity _ => Raise OverflowError
  | x => Ok (SF2Prim x)
  end.

(** [n / d] on two [int]s: the correctly rounded quotient, and
    [OverflowError] when it is beyond the largest double. *)
Definition int_truediv (n : Z) (d : positive) : result float :=
  match n with
  | Z0 => Ok 0%float
  | Z.pos m | Z.neg m =>
      match SFdiv prec emax (S754_finite (n <? 0) m 0) (S754_finite false d 0) with
      | S754_infinity _ => Raise OverflowError
      | q => Ok (SF2Prim q)
      end
  end.

Definition to_float (a : number) : result float :=
  match a with
  | PyInt n => float_of_int n
  | PyFloat x => Ok x
  end.

(** [config["check_interval_hours"] * 3600] *)
Definition times_3600 (a : number) : number :=
  match a with
  | PyInt n => PyInt (n * 3600)
  | PyFloat x => PyFloat (x * 3600)%float
  end.

(** [variation_percent / 100] *)
Definition over_100 (a : number) : result float :=
  match a with
  | PyInt n => int_truediv n 100
  | PyFloat x => Ok (x / 100)%float
  end.

(** [random.uniform(a, b)] is [a + (b - a) * self.random()]; [draw] is
    the value of [random()], a double in [0, 1). *)
Definition uniform (a b draw : float) : float := (a + (b - a) * draw)%float.

(** [int(x)]: truncation towards zero; [OverflowError] for an infinity,
    [ValueError] for a NaN. *)
Definition int_of_float (x : float) : result Z :=
  match Prim2SF x with
  | S754_zero _ => Ok 0
  | S754_finite s m e => Ok (cond_Zopp s (Z.shiftl (Z.pos m) e))
  | S754_infinity _ => Raise OverflowError
  | S754_nan => Raise ValueError
  end.

(** [int(max(1800, x))]: the second argument of [max] wins only when it
    compares greater, which a NaN never does. *)
Definition int_of_max (x : float) : result Z :=
  if (1800 <? x)%float then int_of_float x else Ok 1800.

(** [next_interval].  With an [int] for [base_interval], each operator
    that meets [variation_seconds] converts it to the same double. *)
Definition next_interval (cfg : config) (draw : float) : result float :=
  let base_interval := times_3600 (check_interval_hours cfg) in
  let variation_percent := interval_variation_percent cfg in
  ratio ← over_100 variation_percent;
  base ← to_float base_interval;
  let variation_seconds := (base * ratio)%float in
  Ok (uniform (base - variation_seconds) (base + variation_seconds) draw).

Definition calculate_next_check_time (cfg : config) (draw : float) : result Z :=
  next_interval cfg draw ≫= int_of_max.

End Interval.

(** Two notions for reasoning about the rounding of [SpecFloat]: whether
    a shift record has shifted out a non-zero bit, and what a record
    holds after [k] one-bit shifts of the mantissa [M]. *)
Definition inexact (mrs : shr_record) : bool := shr_r mrs || shr_s mrs.

Definition shr_inv (M k : Z) (mrs : shr_record) : Prop :=
  shr_m mrs = M / 2 ^ k /\ (inexact mrs = true -> M mod 2 ^ k <> 0).

(** ** Notifier: the configuration update of [send_email_notification]

    The configuration is a [dict] whose ["email"] entry refers to a second
    [dict]; both live in a store of objects, so that an assignment through
    one reference is seen through every other reference to the same
    object. *)

Module Notifier.

Definition loc : Type := positive.

Inductive pyval : Type :=
  | PNone
  | PBool (b : bool)
  | PInt (n : Z)
  | PStr (s : string)
  | PDict (l : loc).

Abbreviation heap := (gmap loc (gmap string pyval)).

(** Truth value of a Python object. *)
Definition truthy (h : heap) (v : pyval) : bool :=
  match v with
  | PNone => false
  | PBool b => b
  | PInt n => negb (n =? 0)
  | PStr s => negb (String.eqb s EmptyString)
  | PDict l => match h !! l with
               | Some d => negb (bool_decide (d = ∅))
               | None => false
               end
  end.

(** [obj[key]]: subscripting a [dict] with a missing key raises
    [KeyError]; the other values here do not take a string subscript. *)
Definition getitem (h : heap) (obj : pyval) (key : string) : result pyval :=
  match obj with
  | PDict l =>
      match h !! l with
      | Some d => match d !! key with
                  | Some v => Ok v
                  | None => Raise KeyError
                  end
      | None => Raise KeyError
      end
  | _ => Raise TypeError
  end.

(** [obj[key] = v] *)
Definition setitem (h : heap) (obj : pyval) (key : string) (v : pyval) : result heap :=
  match obj with
  | PDict l =>
      match h !! l with
      | Some d => Ok (<[l := <[key := v]> d]> h)
      | None => Raise KeyError
      end
  | _ => Raise TypeError
  end.

(** [config["email"][key]] *)
Definition email_field (h : heap) (config : pyval) (key : string) : result pyval :=
  email ← getitem h config "email";
  getitem h email key.

(** How the function ended: one of the three early [return]s, or the
    [try] block that builds and sends the message (whose own failures are
    caught and logged, and which assigns nothing to the configuration). *)
Inductive notification : Type :=
  | Disabled
  | NothingToSend
  | MissingCredentials
  | SendAttempted.

Definition send_email_notification {A B} (h : heap) (config : pyval)
    (available_dates : list A) (consecutive_pairs : list B)
  : heap * result notification :=
  match email_field h config "enabled" with
  | Raise e => (h, Raise e)
  | Ok enabled =>
  if negb (truthy h enabled) then (h, Ok Disabled) else
  match available_dates with
  | [] => (h, Ok NothingToSend)
  | _ :: _ =>
  match email_field h config "username" with
  | Raise e => (h, Raise e)
  | Ok username =>
  match (if negb (truthy h username) then Ok true
         else password ← email_field h config "password";
              Ok (negb (truthy h password))) with
  | Raise e => (h, Raise e)
  | Ok true => (h, Ok MissingCredentials)
  | Ok false =>
  match (from_address ← email_field h config "from_address";
         if negb (truthy h from_address) then Ok true
         else to_address ← email_field h config "to_address";
              Ok (negb (truthy h to_address))) with
  | Raise e => (h, Raise e)
  | Ok false => (h, Ok SendAttempted)
  | Ok true =>
      match (username ← email_field h config "username";
             email ← getitem h config "email";
             setitem h email "from_address" username) with
      | Raise e => (h, Raise e)
      | Ok h1 =>
          match (username ← email_field h1 config "username";
                 email ← getitem h1 config "email";
                 setitem h1 email "to_address" username) with
          | Raise e => (h1, Raise e)
          | Ok h2 => (h2, Ok SendAttempted)
          end
      end
  end end end end end.

End Notifier.

(** ** Sample pages *)

Module Samples.

Definition results_url : string :=
  "https://reservations.ahlsmsworld.com/Yosemite/Search/Results".

Definition html (body : list node) : list node :=
  [Elem "html" EmptyString [Elem "body" EmptyString body]].

(** A blocked page that still shows a price. *)
Definition blocked_page : page :=
  mkPage results_url "Yosemite Reservations"
    (html [ Elem "h1" EmptyString [TextNode "Action Not Allowed"];
            Elem "p" EmptyString [TextNode "Rates from $199"] ]).



(** A results page with a rate and nothing against it. *)
Definition priced_page : page :=
  mkPage results_url "Yosemite Reservations"
    (html [ Elem "p" EmptyString [TextNode "$249 average/night"] ]).

End Samples.

(** ** A sample run: a browser that cannot be started

    The world counts the attempts to start the browser; every attempt
    raises, as [setup_browser] does for an unsupported browser name, and
    no browser is ever held. *)

Module BrokenBrowser.

#[local] Instance browser : Browser nat := {|
  browser_started := fun _ => false;
  setup_browser := fun attempts => (S attempts, Raise ValueError);
  browser_fetch := fun attempts _ _ => (attempts, Raise WebDriverException);
  browser_quit := fun attempts => (attempts, Ok tt)
|}.

#[local] Instance clock : Clock nat := {|
  today := fun _ => ymd2ord 2025 4 1
|}.

(** The state left by an earlier completed cycle that found Friday
    2025-04-04. *)
Definition earlier : scheduler_state :=
  mkSched
    (save_results Iso.isoformat WriteCompletes "2025-04-01T08:00:00"
       [ymd2ord 2025 4 4] [] Absent)
    [ymd2ord 2025 4 4] [].

Definition cycle : nat * scheduler_state * cycle_outcome :=
  run_cycle Iso.isoformat
    (YosemiteSeleniumChecker.run_check DEFAULT_CONFIG)
    (fun _ => WriteCompletes)
    (fun _ => "2025-04-01T11:00:00")
    (fun w _ _ => (w, Ok tt))
    earlier 0%nat.

End BrokenBrowser.

(** ** A sample configuration store *)

Module SampleConfig.
Import Notifier.

(** The configuration at location 1 and its ["email"] dictionary at
    location 2, with credentials and without addresses. *)
Definition email : gmap string pyval :=
  {[ "enabled" := PBool true;
     "smtp_server" := PStr "smtp.gmail.com";
     "smtp_port" := PInt 587;
     "username" := PStr "ranger@example.org";
     "password" := PStr "app-password";
     "from_address" := PStr EmptyString;
     "to_address" := PStr EmptyString ]}.

Definition config : gmap string pyval :=
  {[ "method" := PStr "requests";
     "months_ahead" := PInt 6;
     "email" := PDict 2%positive;
     "adults" := PInt 1;
     "children" := PInt 0 ]}.

Definition store : heap := {[ 1%positive := config; 2%positive := email ]}.

End SampleConfig.

(** ** A sample run: every search shows a rate

    The HTTP session and the browser answer every search with
    [Samples.priced_page]; today is Friday 2025-04-04. *)

Module OpenLodge.

#[local] Instance session : Session unit := {|
  get_main_page := fun w => (w, Ok tt);
  session_fetch := fun w _ _ => (w, Ok Samples.priced_page)
|}.

#[local] Instance browser : Browser unit := {|
  browser_started := fun _ => false;
  setup_browser := fun w => (w, Ok tt);
  browser_fetch := fun w _ _ => (w, Ok Samples.priced_page);
  browser_quit := fun w => (w, Ok tt)
|}.

#[local] Instance clock : Clock unit := {|
  today := fun _ => ymd2ord 2025 4 4
|}.

(** One month ahead, otherwise the defaults. *)
Definition one_month : config :=
  {| months_ahead := 1;
     check_friday_saturday := true;
     check_saturday_sunday := true;
     max_retries := 3;
     retry_delay_seconds := 60;
     check_interval_hours := PyInt 3;
     interval_variation_percent := PyInt 20 |}.

Definition requests_run : unit * option (list date * list (date * date)) :=
  YosemiteRequestsChecker.run_check one_month tt.

Definition selenium_run : unit * option (list date * list (date * date)) :=
  YosemiteSeleniumChecker.run_check one_month tt.

End OpenLodge.

(** ** Counting the attempts of the retry loop *)

(** [check_availability] with a counter of its calls beside the world. *)
Definition counting {W : Type} (check_availability : W -> W * result (list date))
  : W * nat -> (W * nat) * result (list date) :=
  fun '(w, calls) =>
    let '(w', outcome) := check_availability w in ((w', S calls), outcome).

(** ** A sample configuration without retries *)

Definition no_retries : config :=
  {| months_ahead := 6;
     check_friday_saturday := true;
     check_saturday_sunday := true;
     max_retries := 0;
     retry_delay_seconds := 60;
     check_interval_hours := PyInt 3;
     interval_variation_percent := PyInt 20 |}.

(** ** Scheduler: the start of [run_availability_checker] and the end of
    a pass *)

(** The state the loop starts from: the comparison baseline is what
    [load_last_results] reads from the results file (line 1033). *)
Definition initial_state (fromisoformat : string -> result date) (file : file_state)
  : scheduler_state :=
  let '(previous_available_dates, previous_consecutive_pairs) :=
    load_last_results fromisoformat file in
  mkSched file previous_available_dates previous_consecutive_pairs.

(** What the loop does after a pass: leave ([break]), or sleep and go
    round again. *)
Inductive next_step : Type :=
  | Stop
  | SleepFor (seconds : Z).

(** [datetime.datetime.now() + datetime.timedelta(seconds=next_check)],
    as the day it falls on, for a clock that shows [second_of_day]
    seconds into the day [today]: the [timedelta] is normalised to days
    and seconds, and the sum has to be a calendar day. *)
Definition schedule (today : date) (second_of_day next_check : Z) : result date :=
  days ← timedelta (next_check / 86400);
  date_add today (days + (second_of_day + next_check mod 86400) / 86400).

(** Lines 1068-1078 after a pass that reached them, lines 1086-1091 in the
    [except Exception] handler, which also takes over when computing the
    interval, the time of the next check or the sleep raises. *)
Definition after_cycle (cfg : config) (single_run : bool) (draw : float)
    (today : date) (second_of_day : Z) (outcome : cycle_outcome) : next_step :=
  match outcome with
  | CycleDone _ =>
      if single_run then Stop
      else
        match (next_check ← Interval.calculate_next_check_time cfg draw;
               _ ← schedule today second_of_day next_check;
               _ ← sleep next_check;
               Ok next_check) with
        | Ok next_check => SleepFor next_check
        | Raise _ => SleepFor 900
        end
  | UnexpectedError =>
      if single_run then Stop else SleepFor 900
  end.

(** What the sample run [OpenLodge.requests_run] reports. *)
Definition open_lodge_dates : list date :=
  List.map (fun md => ymd2ord 2025 md.1 md.2)
    [(4, 4); (4, 5); (4, 11); (4, 12); (4, 18); (4, 19); (4, 25); (4, 26); (5, 2); (5, 3)].

Definition open_lodge_pairs : list (date * date) :=
  List.map (fun md => (ymd2ord 2025 md.1 md.2, ymd2ord 2025 md.1 md.2 + 1))
    [(4, 4); (4, 11); (4, 18); (4, 25); (5, 2)].

(** A cycle of the sample run, after the earlier cycle that found Friday
    2025-04-04 only. *)
Definition open_lodge_cycle : unit * scheduler_state * cycle_outcome :=
  run_cycle Iso.isoformat
    (YosemiteRequestsChecker.run_check (Hsession := OpenLodge.session)
       (Hclock := OpenLodge.clock) OpenLodge.one_month)
    (fun _ => WriteCompletes)
    (fun _ => "2025-04-04T09:00:00")
    (fun w _ _ => (w, Raise KeyError))
    BrokenBrowser.earlier tt.

(** ** Notifier: handing the message to the mail server
    ([send_email_notification], lines 893-954) *)

Module Delivery.

(** [if '@' not in addr: addr = f"{addr}@gmail.com"], applied to the
    sender, the recipient and the login name. *)
Definition with_gmail_domain (address : string) : string :=
  if contains "@" address then address else String.append address "@gmail.com".

(** The calls made on the mail server; [Quit] is the QUIT command that
    [SMTP.__exit__] sends when a [with] block is left. *)
Inductive smtp_call : Type :=
  | Connect (server : string) (port : Z)
  | Ehlo
  | StartTls
  | Login (username password : string)
  | Sendmail (from_addr to_addr message : string)
  | ConnectSsl (server : string) (port : Z)
  | Quit.

(** How the [try] block that sends the message ends: by reaching the
    log line after it, the last block left being the first one or the
    fallback, or by an exception, which is logged; [unbound_username]
    tells that the fallback stopped at the local variable [username], read
    before any assignment to it. *)
Inductive ending : Type :=
  | Sent (over_ssl : bool)
  | Failed (unbound_username : bool).

(** What became of the message: how often [sendmail] returned, that is
    how often the server took the message, and how the block ended. *)
Record delivery : Type := mkDelivery {
  accepted : nat;
  ended : ending
}.

Section Deliver.

Context {W : Type}.
(** The server: a call returns ([true]) or raises ([false]). *)
Variable smtp : W -> smtp_call -> W * bool.
(** [config["email"]]'s server, port, user name and password; the
    addresses and the message as lines 893-909 prepared them. *)
Variable smtp_server : string.
Variable smtp_port : Z.
Variable config_username config_password : string.
Variable from_addr to_addr message : string.

(** The body of the first [with smtplib.SMTP(...)] block.  Beside the
    world it yields the local variables [username] and [password] when
    the body got as far as assigning them, and whether [sendmail]
    returned. *)
Definition starttls_body (w : W) : W * option (string * string) * bool :=
  let '(w1, greeted) := smtp w Ehlo in
  if negb greeted then (w1, None, false) else
  let '(w2, encrypted) := smtp w1 StartTls in
  if negb encrypted then (w2, None, false) else
  let '(w3, greeted_again) := smtp w2 Ehlo in
  if negb greeted_again then (w3, None, false) else
  let username := with_gmail_domain config_username in
  let password := config_password in
  let '(w4, logged_in) := smtp w3 (Login username password) in
  if negb logged_in then (w4, Some (username, password), false) else
  let '(w5, sent) := smtp w4 (Sendmail from_addr to_addr message) in
  (w5, Some (username, password), sent).

(** The first block.  When the constructor has connected, the block is
    left through [SMTP.__exit__], whether the body returned or raised:
    QUIT is sent, and a reply other than 221 raises.  The block completes
    when [sendmail] returned and leaving the block did not raise. *)
Definition starttls_attempt (w : W) : W * option (string * string) * bool * bool :=
  let '(w1, connected) := smtp w (Connect smtp_server smtp_port) in
  if negb connected then (w1, None, false, false) else
  let '(w2, locals, sent) := starttls_body w1 in
  let '(w3, quitted) := smtp w2 Quit in
  (w3, locals, sent, sent && quitted).

(** The body of the fallback block: [username] is read for the log
    line, then login and [sendmail]. *)
Definition ssl_body (w : W) (locals : option (string * string)) : W * bool * bool :=
  match locals with
  | None => (w, false, true)
  | Some (username, password) =>
      let '(w1, logged_in) := smtp w (Login username password) in
      if negb logged_in then (w1, false, false) else
      let '(w2, sent) := smtp w1 (Sendmail from_addr to_addr message) in
      (w2, sent, false)
  end.

(** The fallback in the [except] handler: connect on port 465, run the
    body and leave the block through [SMTP.__exit__]. *)
Definition ssl_attempt (w : W) (locals : option (string * string)) : W * bool * ending :=
  let '(w1, connected) := smtp w (ConnectSsl smtp_server 465) in
  if negb connected then (w1, false, Failed false) else
  let '(w2, sent, unbound) := ssl_body w1 locals in
  let '(w3, quitted) := smtp w2 Quit in
  (w3, sent, if unbound then Failed true else if sent && quitted then Sent true else Failed false).

Definition deliver (w : W) : W * delivery :=
  let '(w1, locals, sent, completed) := starttls_attempt w in
  if completed then (w1, mkDelivery 1 (Sent false))
  else
    let '(w2, sent_again, how) := ssl_attempt w1 locals in
    (w2, mkDelivery ((if sent then 1 else 0) + (if sent_again then 1 else 0)) how).

End Deliver.

(** A server that is reachable on the SSL port only, and accepts
    everything there. *)
Definition ssl_only_server (w : unit) (call : smtp_call) : unit * bool :=
  (w, match call with
      | Connect _ _ | StartTls => false
      | _ => true
      end).

(** A server that accepts every call but answers the first QUIT with
    another code than 221; the world counts the QUITs. *)
Definition quit_refusing_server (quits : nat) (call : smtp_call) : nat * bool :=
  match call with
  | Quit => (S quits, negb (Nat.eqb quits 0))
  | _ => (quits, true)
  end.

End Delivery.

(** ** Configuration file: [load_config]

    A [dict] is the list of its entries in insertion order, with distinct
    keys; [members_get] (above) is its lookup. *)

Module ConfigFile.

(** [d[key] = value]: the value of an existing key is replaced where it
    stands, a new key goes to the end. *)
Fixpoint members_set (key : string) (value : json) (members : list (string * json))
  : list (string * json) :=
  match members with
  | [] => [(key, value)]
  | (k, v) :: rest =>
      if String.eqb k key then (k, value) :: rest
      else (k, v) :: members_set key value rest
  end.

(** [d.update(other)] *)
Definition members_update (members other : list (string * json)) : list (string * json) :=
  fold_left (fun acc entry => members_set entry.1 entry.2 acc) other members.

(** [isinstance(value, dict)] *)
Definition is_dict (value : json) : bool :=
  match value with JObj _ => true | _ => false end.

(** The module-level [DEFAULT_CONFIG] as the source text gives it. *)
Definition DEFAULT_CONFIG : list (string * json) :=
  [ ("method", JStr "selenium");
    ("browser", JStr "chrome");
    ("headless", JBool true);
    ("check_interval_hours", JNum 3);
    ("interval_variation_percent", JNum 20);
    ("months_ahead", JNum 6);
    ("weekends_only", JBool true);
    ("check_friday_saturday", JBool true);
    ("check_saturday_sunday", JBool true);
    ("email", JObj
       [ ("enabled", JBool true);
         ("smtp_server", JStr "smtp.gmail.com");
         ("smtp_port", JNum 587);
         ("username", JStr EmptyString);
         ("password", JStr EmptyString);
         ("from_address", JStr EmptyString);
         ("to_address", JStr EmptyString);
         ("consecutive_subject",
          JStr "Consecutive Weekend Available at Yosemite Valley Lodge!");
         ("single_day_subject", JStr "Weekend Day Available at Yosemite Valley Lodge") ]);
    ("urls", JObj
       [ ("base_url",
          JStr "https://reservations.ahlsmsworld.com/Yosemite/Plan-Your-Trip/Accommodations/Yosemite-Valley-Lodge/");
         ("widget_config_url",
          JStr "https://reservations.ahlsmsworld.com/Yosemite/Search/GetWidgetConfigData") ]);
    ("max_retries", JNum 3);
    ("retry_delay_seconds", JNum 60);
    ("adults", JNum 1);
    ("children", JNum 0) ].

(** What one user entry makes of the entry the configuration had. *)
Definition merged_value (value : json) (held : option json) : json :=
  match value, held with
  | JObj other, Some (JObj nested) => JObj (members_update nested other)
  | _, _ => value
  end.

(** What one user entry makes of the entry [DEFAULT_CONFIG] has, given
    the entry the configuration had. *)
Definition leaked_value (value : json) (held default : option json) : option json :=
  match value, held, default with
  | JObj other, Some (JObj nested), Some _ => Some (JObj (members_update nested other))
  | _, _, _ => default
  end.

(** The two dictionaries the merge works on: the copy that is returned
    and [DEFAULT_CONFIG] itself.  [DEFAULT_CONFIG.copy()] is shallow, so a
    nested dictionary of the copy is the nested dictionary of
    [DEFAULT_CONFIG] until the copy's entry is assigned. *)
Record merge_state : Type := mkMerge {
  config : list (string * json);
  defaults : list (string * json)
}.

(** The body of [for key, value in user_config.items()].  The keys of a
    [dict] are distinct, so when [key] is reached the copy's entry for it,
    if there is one, is still the object [DEFAULT_CONFIG] holds:
    [config[key].update(value)] changes both. *)
Definition merge_entry (st : merge_state) (entry : string * json) : merge_state :=
  let '(key, value) := entry in
  match value, members_get (config st) key with
  | JObj other, Some (JObj nested) =>
      let merged := JObj (members_update nested other) in
      mkMerge (members_set key merged (config st))
              (match members_get (defaults st) key with
               | Some _ => members_set key merged (defaults st)
               | None => defaults st
               end)
  | _, _ => mkMerge (members_set key value (config st)) (defaults st)
  end.

(** [load_config]: the configuration returned, [DEFAULT_CONFIG] as the
    call leaves it, and the configuration file as the call leaves it (a
    missing file is created from [DEFAULT_CONFIG]).  Every exception is
    caught and logged. *)
Definition load_config (outcome : write_outcome) (default_config : list (string * json))
    (file : file_state) : merge_state * file_state :=
  let unmerged := mkMerge default_config default_config in
  match file with
  | Present true (Document (JObj user_config)) =>
      (fold_left merge_entry user_config unmerged, file)
  | Present _ _ => (unmerged, file)
  | Absent =>
      (unmerged,
       match outcome with
       | WriteCompletes => Present true (Document (JObj default_config))
       | OpenFails => Absent
       | DumpFails => Present true Garbage
       end)
  end.

(** A user file that sets the horizon and the mail account. *)
Definition sample_user_config : list (string * json) :=
  [ ("months_ahead", JNum 3);
    ("email", JObj [ ("username", JStr "ranger@example.org");
                     ("password", JStr "app-password") ]);
    ("party", JStr "two adults") ].

End ConfigFile.

(** ** The verdicts of the single-date check ([check_specific_date]) *)

Module SpecificDate.

(** The six [room_selectors] (lines 1329-1336), in order:
    the [div] test of the periodic check, four text tests and
    [//button[contains(@class, 'cart')]]. *)
Definition room_selectors : list (node -> bool) :=
  [ elem_test (fun tag cls _ =>
      String.eqb tag "div"
      && (contains "room" cls || contains "accommodation" cls
          || contains "result-item" cls || contains "lodging" cls));
    elem_test (fun _ _ children => contains "Traditional Room" (first_text children));
    elem_test (fun _ _ children => contains "Double Beds" (first_text children));
    elem_test (fun _ _ children => contains "ADD TO CART" (first_text children));
    elem_test (fun tag cls _ => String.eqb tag "button" && contains "cart" cls);
    elem_test (fun _ _ children => contains "AVERAGE/NIGHT" (first_text children)) ].

(** The loop over the selectors stops at the first one that finds an
    element. *)
Definition has_room_details (p : page) : bool :=
  existsb (fun selector => exists_node selector p) room_selectors.

(** [true_availability = has_room_details] (line 1379). *)
Definition selenium_verdict (p : page) : bool := has_room_details p.

Definition room_text_indicators : list string :=
  [ "traditional room"; "double beds"; "add to cart"; "best available rate";
    "average/night" ].

Definition has_room_text (p : page) : bool :=
  any_phrase_in room_text_indicators (RequestsClassifier.page_text p).

(** [has_availability = (rate_elements or has_room_text)] (line 1443). *)
Definition requests_verdict (p : page) : bool :=
  RequestsClassifier.truthy (RequestsClassifier.rate_elements p) || has_room_text p.

End SpecificDate.

(** * Properties *)

(** ** DateSetGenerator *)

Lemma date_add_in_range (d n : Z) :
  0 < d + n <= MAXORD -> date_add d n = Ok (d + n).
Proof.
  intros Hr. unfold date_add. cbv zeta.
  destruct (Z.ltb_spec 0 (d + n)); [|lia].
  destruct (Z.leb_spec (d + n) MAXORD); [reflexivity|lia].
Qed.

Lemma date_add_out_of_range (d n : Z) :
  ~ (0 < d + n <= MAXORD) -> date_add d n = Raise OverflowError.
Proof.
  intros Hr. unfold date_add. cbv zeta.
  destruct (Z.ltb_spec 0 (d + n)); [|reflexivity].
  destruct (Z.leb_spec (d + n) MAXORD); [lia|reflexivity].
Qed.

(** The loop, unfolded once. *)
Lemma weekend_loop_once (end_date current : date) (acc : list date) :
  weekend_loop end_date current acc =
  if decide (current <= end_date) then
    match date_add current 1 with
    | Ok next =>
        weekend_loop end_date next
          (if is_weekend_day current then acc ++ [current] else acc)
    | Raise e => Raise e
    end
  else Ok acc.
Proof.
  rewrite weekend_loop_equation_1.
  destruct (Z_le_dec current end_date) as [Hle|Hgt]; simpl.
  - rewrite decide_True by assumption.
    destruct (date_add current 1); reflexivity.
  - rewrite decide_False by assumption. reflexivity.
Qed.

Lemma weekend_loop_spec (n : nat) : forall (end_date current : date) (acc : list date),
  Z.to_nat (end_date + 1 - current) = n ->
  0 <= current -> end_date < MAXORD ->
  weekend_loop end_date current acc = Ok (acc ++ weekend_days_between current end_date).
Proof.
  induction n as [|n IH]; intros end_date current acc Hn Hc He;
    rewrite weekend_loop_once; unfold weekend_days_between.
  - rewrite decide_False by lia. rewrite seqZ_nil by lia.
    rewrite filter_nil, app_nil_r. reflexivity.
  - rewrite decide_True by lia.
    rewrite date_add_in_range by lia.
    rewrite (IH end_date (current + 1)) by lia.
    rewrite (seqZ_cons current) by lia.
    rewrite filter_cons. unfold weekend_days_between.
    replace (Z.succ current) with (current + 1) by lia.
    replace (Z.pred (end_date + 1 - current)) with (end_date + 1 - (current + 1)) by lia.
    destruct (is_weekend_day current) eqn:Hw.
    + rewrite decide_True by reflexivity. rewrite <- app_assoc. reflexivity.
    + rewrite decide_False by discriminate. reflexivity.
Qed.

Lemma weekend_loop_overflow (n : nat) : forall (current : date) (acc : list date),
  Z.to_nat (MAXORD - current) = n -> 0 < current <= MAXORD ->
  weekend_loop MAXORD current acc = Raise OverflowError.
Proof.
  induction n as [|n IH]; intros current acc Hn Hc;
    rewrite weekend_loop_once; rewrite decide_True by lia.
  - rewrite date_add_out_of_range by lia. reflexivity.
  - rewrite date_add_in_range by lia. apply IH; lia.
Qed.

(** [get_weekend_dates] in closed form: the weekend days up to the end
    date when that date lies strictly inside the calendar, and
    [OverflowError] otherwise. *)
Lemma get_weekend_dates_closed_form (today : date) (months_ahead : Z) :
  valid_date today ->
  get_weekend_dates today months_ahead =
  if decide (1 <= today + 30 * months_ahead < MAXORD)
  then Ok (weekend_days_between today (today + 30 * months_ahead))
  else Raise OverflowError.
Proof.
  unfold valid_date, MINORD. intros Hv. unfold get_weekend_dates, timedelta.
  assert (HM : MAXORD = 3652059) by reflexivity.
  destruct (Z.leb_spec (Z.abs (30 * months_ahead)) 999999999) as [Ha|Ha]; simpl.
  - destruct (decide (0 < today + 30 * months_ahead <= MAXORD)) as [Hr|Hr].
    + rewrite date_add_in_range by assumption. simpl.
      destruct (decide (today + 30 * months_ahead = MAXORD)) as [Heq|Hne].
      * rewrite Heq. rewrite decide_False by lia.
        apply (weekend_loop_overflow _ _ _ eq_refl). lia.
      * rewrite decide_True by lia.
        rewrite (weekend_loop_spec _ _ _ _ eq_refl) by lia. reflexivity.
    + rewrite date_add_out_of_range by assumption. simpl.
      rewrite decide_False by lia. reflexivity.
  - rewrite decide_False by lia. reflexivity.
Qed.

Lemma elem_of_weekend_days_between (first last d : date) :
  d ∈ weekend_days_between first last <->
  first <= d <= last /\ weekday d ∈ [4; 5; 6].
Proof.
  unfold weekend_days_between.
  rewrite list_elem_of_filter, elem_of_seqZ. unfold is_weekend_day.
  rewrite bool_decide_eq_true. intuition lia.
Qed.

Lemma weekend_days_between_sorted (n : nat) : forall first last : date,
  Z.to_nat (last + 1 - first) = n ->
  StronglySorted Z.lt (weekend_days_between first last).
Proof.
  induction n as [|n IH]; intros first last Hn; unfold weekend_days_between.
  - rewrite seqZ_nil by lia. constructor.
  - rewrite seqZ_cons by lia. rewrite filter_cons.
    replace (Z.succ first) with (first + 1) by lia.
    replace (Z.pred (last + 1 - first)) with (last + 1 - (first + 1)) by lia.
    specialize (IH (first + 1) last ltac:(lia)).
    destruct (decide (is_weekend_day first = true)); [|exact IH].
    constructor; [exact IH|].
    apply Forall_forall. intros d Hd.
    apply elem_of_weekend_days_between in Hd. lia.
Qed.

Lemma weekend_days_between_NoDup (first last : date) :
  NoDup (weekend_days_between first last).
Proof. apply NoDup_filter, NoDup_seqZ. Qed.

Lemma weekend_days_between_short (first last : date) :
  last <= first ->
  weekend_days_between first last = [] \/ weekend_days_between first last = [first].
Proof.
  intros Hle. unfold weekend_days_between.
  destruct (decide (last = first)) as [->|Hne].
  - replace (first + 1 - first) with 1 by lia.
    rewrite seqZ_cons by lia. simpl. rewrite seqZ_nil by lia.
    rewrite filter_cons, filter_nil.
    destruct (decide (is_weekend_day first = true)); auto.
  - rewrite seqZ_nil by lia. auto.
Qed.

(** C5 (amended).  For every horizon whose end date [today + 30 * H]
    lies in the calendar before its last day, [get_weekend_dates] returns
    a strictly ascending, duplicate-free list holding exactly the Fridays,
    Saturdays and Sundays of [today, today + 30 * H]; for such a horizon
    that is zero or negative the list is empty or is [today] alone.  For
    every other horizon the call raises [OverflowError]. *)
Theorem get_weekend_dates_spec (today : date) (H : Z) :
  valid_date today ->
  (1 <= today + 30 * H < MAXORD ->
   exists l : list date,
     get_weekend_dates today H = Ok l
     /\ StronglySorted Z.lt l
     /\ NoDup l
     /\ (forall d : date,
           d ∈ l <-> today <= d <= today + 30 * H /\ weekday d ∈ [4; 5; 6])
     /\ (H <= 0 -> l = [] \/ l = [today]))
  /\ (~ (1 <= today + 30 * H < MAXORD) ->
      get_weekend_dates today H = Raise OverflowError).
Proof.
  intros Hv. rewrite get_weekend_dates_closed_form by assumption. split; intros Hr.
  - rewrite decide_True by assumption.
    exists (weekend_days_between today (today + 30 * H)).
    split; [reflexivity|]. split; [|split; [|split]].
    + exact (weekend_days_between_sorted _ _ _ eq_refl).
    + apply weekend_days_between_NoDup.
    + intros d. apply elem_of_weekend_days_between.
    + intros HH. apply weekend_days_between_short. lia.
  - rewrite decide_False by assumption. reflexivity.
Qed.

Lemma get_weekend_dates_spec_witness :
  valid_date 739345 /\
  exists l : list date,
    get_weekend_dates 739345 6 = Ok l
    /\ StronglySorted Z.lt l
    /\ NoDup l
    /\ (forall d : date,
          d ∈ l <-> 739345 <= d <= 739345 + 30 * 6 /\ weekday d ∈ [4; 5; 6])
    /\ (6 <= 0 -> l = [] \/ l = [739345]).
Proof.
  assert (Hv : valid_date 739345) by (unfold valid_date, MINORD, MAXORD; lia).
  split; [exact Hv|].
  apply (get_weekend_dates_spec 739345 6 Hv). unfold MAXORD. lia.
Defined.

(** C5, refuted as stated: with today = 2025-04-04 the horizons -30000 and
    100000 months make [today + timedelta(days=30 * months_ahead)] leave
    the calendar, and the call raises instead of returning a list. *)
Lemma get_weekend_dates_can_fail :
  get_weekend_dates (ymd2ord 2025 4 4) (-30000) = Raise OverflowError
  /\ get_weekend_dates (ymd2ord 2025 4 4) 100000 = Raise OverflowError.
Proof. split; vm_compute; reflexivity. Qed.

(** ** ConsecutivePairFinder *)

(** Every index the loop visits, and its successor, is in range. *)
Lemma find_consecutive_days_in_range (l : list date) (i : nat) :
  i ∈ seq 0 (length l - 1) -> is_Some (l !! i) /\ is_Some (l !! S i).
Proof.
  rewrite elem_of_seq. intros Hi.
  split; apply lookup_lt_is_Some; lia.
Qed.

Lemma consecutive_fold (l : list date) : forall (pre : list date) (acc : list (date * date)),
  foldl (consecutive_step (pre ++ l)) acc (seq (length pre) (length l - 1)) =
  acc ++ adjacent_weekend_pairs_spec l.
Proof.
  unfold adjacent_weekend_pairs_spec.
  induction l as [|x [|y l'] IH]; intros pre acc.
  - simpl. rewrite app_nil_r. reflexivity.
  - simpl. rewrite app_nil_r. reflexivity.
  - replace (length (x :: y :: l') - 1)%nat with (S (length (y :: l') - 1)) by (simpl; lia).
    rewrite <- cons_seq. simpl foldl.
    unfold consecutive_step at 2.
    rewrite (lookup_app_r pre) by lia. rewrite Nat.sub_diag. simpl lookup.
    rewrite (lookup_app_r pre) by lia.
    replace (S (length pre) - length pre)%nat with 1%nat by lia. simpl lookup.
    specialize (IH (pre ++ [x])).
    rewrite <- app_assoc in IH. simpl app in IH.
    rewrite length_app in IH. simpl length in IH.
    replace (length pre + 1)%nat with (S (length pre)) in IH by lia.
    rewrite IH. simpl tail. simpl zip. rewrite filter_cons. simpl.
    destruct (is_weekend_pair x y) eqn:Hp.
    + rewrite decide_True by reflexivity. rewrite <- app_assoc. reflexivity.
    + rewrite decide_False by discriminate. reflexivity.
Qed.

Lemma find_consecutive_days_refines (l : list date) :
  find_consecutive_days l = adjacent_weekend_pairs_spec l.
Proof. exact (consecutive_fold l [] []). Qed.

Lemma is_weekend_pair_true (date1 date2 : date) :
  is_weekend_pair date1 date2 = true <->
  date2 - date1 = 1
  /\ (weekday date1 = 4 /\ weekday date2 = 5 \/ weekday date1 = 5 /\ weekday date2 = 6).
Proof.
  unfold is_weekend_pair, days_between.
  rewrite andb_true_iff, orb_true_iff, !andb_true_iff, !Z.eqb_eq. reflexivity.
Qed.

(** C6.  [find_consecutive_days] returns exactly the positionally
    adjacent pairs of its input that are one day apart and fall on
    (Friday, Saturday) or (Saturday, Sunday), in input order; this holds
    for every list, sorted or not.  An input of fewer than two dates gives
    no pair, and [2025-04-04, 2025-04-05, 2025-04-06] gives the two pairs
    (04-04, 04-05) and (04-05, 04-06). *)
Theorem find_consecutive_days_spec (l : list date) :
  find_consecutive_days l = adjacent_weekend_pairs_spec l
  /\ (forall d1 d2 : date,
        (d1, d2) ∈ find_consecutive_days l <->
        exists i : nat,
          l !! i = Some d1 /\ l !! S i = Some d2
          /\ d2 - d1 = 1
          /\ (weekday d1 = 4 /\ weekday d2 = 5 \/ weekday d1 = 5 /\ weekday d2 = 6))
  /\ ((length l < 2)%nat -> find_consecutive_days l = [])
  /\ find_consecutive_days [ymd2ord 2025 4 4; ymd2ord 2025 4 5; ymd2ord 2025 4 6]
     = [(ymd2ord 2025 4 4, ymd2ord 2025 4 5); (ymd2ord 2025 4 5, ymd2ord 2025 4 6)]
  /\ weekday (ymd2ord 2025 4 4) = 4.
Proof.
  split; [apply find_consecutive_days_refines|].
  split; [|split; [|split]].
  - intros d1 d2. rewrite find_consecutive_days_refines.
    unfold adjacent_weekend_pairs_spec.
    rewrite list_elem_of_filter, list_elem_of_lookup. simpl.
    rewrite is_weekend_pair_true. split.
    + intros [Hp [i Hi]]. exists i.
      apply lookup_zip_Some in Hi as [H1 H2].
      rewrite lookup_tail in H2. tauto.
    + intros (i & H1 & H2 & Hp). split; [exact Hp|].
      exists i. apply lookup_zip_Some. rewrite lookup_tail. tauto.
  - intros Hlen. destruct l as [|x [|y l']]; try reflexivity. simpl in Hlen. lia.
  - vm_compute. reflexivity.
  - vm_compute. reflexivity.
Qed.

(** ** The probing loop and the retry loop *)

Lemma skipped_qualifies (cfg : config) (d : date) :
  skipped cfg d = negb (qualifies cfg d).
Proof.
  unfold skipped, qualifies.
  destruct (Z.eqb_spec (weekday d) 4) as [E4|N4];
    destruct (Z.eqb_spec (weekday d) 5) as [E5|N5]; try lia; simpl.
  - destruct (check_friday_saturday cfg); simpl; [|reflexivity].
    rewrite bool_decide_eq_true_2; [reflexivity|]. rewrite !elem_of_cons. lia.
  - destruct (check_saturday_sunday cfg); simpl; [|reflexivity].
    rewrite bool_decide_eq_true_2; [reflexivity|]. rewrite !elem_of_cons. lia.
  - rewrite bool_decide_eq_false_2; [reflexivity|].
    rewrite !elem_of_cons, elem_of_nil. lia.
Qed.

Section ProbeLoopFacts.
Context {W : Type}.
Variable cfg : config.
Variable fetch : W -> date -> date -> W * result page.
Variable classify : page -> bool.

(** The requests of the loop, whatever the fetcher and the classifier. *)
Lemma probe_loop_requests (l : list date) (indices : list nat) :
  forall (w : W) (acc : list date) (requested : list (date * date)),
  exists rest : list (date * date),
    (probe_loop cfg (recording fetch) classify l indices (w, requested) acc).1.2
      = requested ++ rest
    /\ forall (acc' : list date) (requested' : list (date * date)),
         (probe_loop cfg (recording (fun (u : unit) _ _ => (u, Raise RequestException)))
                     (fun _ => false) l indices (tt, requested') acc').1.2
         = requested' ++ rest.
Proof.
  induction indices as [|i indices IH]; intros w acc requested.
  - exists []. simpl. split; [|intros]; rewrite app_nil_r; reflexivity.
  - simpl. destruct (l !! i) as [check_in|].
    2:{ exists []. simpl. split; [|intros]; rewrite app_nil_r; reflexivity. }
    destruct (date_add check_in 1) as [check_out|e].
    2:{ exists []. simpl. split; [|intros]; rewrite app_nil_r; reflexivity. }
    destruct (skipped cfg check_in).
    + apply IH.
    + destruct (fetch w check_in check_out) as [w' fetched] eqn:Hf.
      destruct fetched as [content|e].
      * destruct (IH w' (if classify content then acc ++ [check_in] else acc)
                     (requested ++ [(check_in, check_out)])) as (rest & H1 & H2).
        exists ((check_in, check_out) :: rest). rewrite H1. split.
        -- rewrite <- app_assoc. reflexivity.
        -- intros acc' requested'. rewrite H2, <- app_assoc. reflexivity.
      * destruct (IH w' acc (requested ++ [(check_in, check_out)])) as (rest & H1 & H2).
        exists ((check_in, check_out) :: rest). rewrite H1. split.
        -- rewrite <- app_assoc. reflexivity.
        -- intros acc' requested'. rewrite H2, <- app_assoc. reflexivity.
Qed.

Lemma probed_pairs_any_fetcher (l : list date) (w : W) :
  (probe_all cfg (recording fetch) classify l (w, [])).1.2 = probed_pairs cfg l.
Proof.
  unfold probed_pairs, probe_all.
  destruct (probe_loop_requests l (seq 0 (length l - 1)) w [] []) as (rest & H1 & H2).
  rewrite H1, H2. reflexivity.
Qed.

(** Every date the loop appends is a Friday or a Saturday. *)
Lemma probe_loop_weekdays (l : list date) (indices : list nat) :
  forall (w : W) (acc : list date),
    Forall friday_or_saturday acc ->
    Forall friday_or_saturday (probe_loop cfg fetch classify l indices w acc).2.
Proof.
  induction indices as [|i indices IH]; intros w acc Hacc; simpl; [exact Hacc|].
  destruct (l !! i) as [check_in|]; [|exact Hacc].
  destruct (date_add check_in 1) as [check_out|e]; [|exact Hacc].
  destruct (skipped cfg check_in) eqn:Hs; [apply IH; exact Hacc|].
  destruct (fetch w check_in check_out) as [w' [content|e]]; [|apply IH; exact Hacc].
  apply IH. destruct (classify content); [|exact Hacc].
  apply Forall_app. split; [exact Hacc|]. constructor; [|constructor].
  rewrite skipped_qualifies in Hs. apply negb_false_iff in Hs.
  unfold qualifies in Hs. unfold friday_or_saturday.
  apply orb_true_iff in Hs as [Hs|Hs]; apply andb_true_iff in Hs as [Hs _];
    apply Z.eqb_eq in Hs; auto.
Qed.

Lemma probe_all_weekdays (l : list date) (w : W) :
  Forall friday_or_saturday (probe_all cfg fetch classify l w).2.
Proof. apply probe_loop_weekdays. constructor. Qed.

End ProbeLoopFacts.

Section RunCheckFacts.
Context {W : Type}.
Variable cfg : config.
Variable check_availability : W -> W * result (list date).

Lemma run_check_loop_once (retries : Z) (w : W) :
  run_check_loop cfg check_availability retries w =
  if decide (retries < max_retries cfg) then
    match check_availability w with
    | (w', Ok available_dates) =>
        (w', Some (available_dates, find_consecutive_days available_dates))
    | (w', Raise _) =>
        if decide (retries + 1 < max_retries cfg)
        then run_check_loop cfg check_availability (retries + 1) w'
        else (w', Some ([], []))
    end
  else (w, None).
Proof.
  rewrite run_check_loop_equation_1.
  destruct (Z_lt_dec retries (max_retries cfg)) as [Hlt|Hge]; simpl.
  - rewrite decide_True by assumption.
    destruct (check_availability w) as [w' [available_dates|e]]; simpl; [reflexivity|].
    destruct (Z_lt_dec (retries + 1) (max_retries cfg)); simpl.
    + rewrite decide_True by assumption. reflexivity.
    + rewrite decide_False by assumption. reflexivity.
  - rewrite decide_False by assumption. reflexivity.
Qed.

(** A property of every list [check_availability] returns holds of the
    dates [run_check] returns. *)
Lemma run_check_loop_dates (P : list date -> Prop) (n : nat) :
  P [] ->
  (forall w w' l, check_availability w = (w', Ok l) -> P l) ->
  forall (retries : Z) (w : W),
    Z.to_nat (max_retries cfg - retries) = n ->
    match (run_check_loop cfg check_availability retries w).2 with
    | Some (available_dates, _) => P available_dates
    | None => True
    end.
Proof.
  intros Hnil Hcheck. induction n as [|n IH]; intros retries w Hn;
    rewrite run_check_loop_once.
  - rewrite decide_False by lia. exact I.
  - rewrite decide_True by lia.
    destruct (check_availability w) as [w' [l|e]] eqn:Hc; simpl.
    + eapply Hcheck; eassumption.
    + destruct (decide (retries + 1 < max_retries cfg)); simpl; [|exact Hnil].
      apply IH. lia.
Qed.

End RunCheckFacts.

(** The loop requests the qualifying dates of all but the last position. *)
Lemma probed_loop_skips_last (cfg : config) (l : list date) :
  Forall (fun d => 0 <= d < MAXORD) l ->
  forall (pre : list date) (requested : list (date * date)) (acc : list date),
    (probe_loop cfg (recording (fun (u : unit) _ _ => (u, Raise RequestException)))
                (fun _ => false) (pre ++ l)
                (seq (length pre) (length l - 1)) (tt, requested) acc).1.2
    = requested ++ candidate_pairs_spec cfg (removelast l).
Proof.
  unfold candidate_pairs_spec.
  induction l as [|x [|y l'] IH]; intros Hr pre requested acc.
  - simpl. rewrite app_nil_r. reflexivity.
  - simpl. rewrite app_nil_r. reflexivity.
  - replace (length (x :: y :: l') - 1)%nat with (S (length (y :: l') - 1)) by (simpl; lia).
    rewrite <- cons_seq. simpl probe_loop.
    rewrite (lookup_app_r pre) by lia. rewrite Nat.sub_diag. simpl lookup.
    inversion Hr as [|? ? Hx Hr']; subst.
    rewrite date_add_in_range by lia.
    rewrite skipped_qualifies.
    specialize (IH Hr' (pre ++ [x])).
    rewrite <- app_assoc in IH. simpl app in IH.
    rewrite length_app in IH. simpl length in IH.
    replace (length pre + 1)%nat with (S (length pre)) in IH by lia.
    change (removelast (x :: y :: l')) with (x :: removelast (y :: l')).
    simpl List.filter.
    destruct (qualifies cfg x); simpl negb; cbv iota.
    + simpl recording. rewrite IH. simpl List.map. rewrite <- app_assoc. reflexivity.
    + apply IH.
Qed.

Lemma probed_pairs_skip_last (cfg : config) (l : list date) :
  Forall (fun d => 0 <= d < MAXORD) l ->
  probed_pairs cfg l = candidate_pairs_spec cfg (removelast l).
Proof.
  intros Hr. unfold probed_pairs, probe_all.
  exact (probed_loop_skips_last cfg l Hr [] [] []).
Qed.


(** ** The dates the checkers report *)

Section CheckerFacts.
Context {W : Type} {Hbrowser : Browser W} {Hsession : Session W} {Hclock : Clock W}.
Variable cfg : config.

Lemma selenium_check_availability_weekdays (w w' : W) (l : list date) :
  YosemiteSeleniumChecker.check_availability cfg w = (w', Ok l) ->
  Forall friday_or_saturday l.
Proof.
  unfold YosemiteSeleniumChecker.check_availability.
  destruct (if browser_started w then (w, Ok tt) else setup_browser w)
    as [w1 [[]|e]]; [|discriminate].
  destruct (get_weekend_dates (today w1) (months_ahead cfg)) as [dates|e]; [|discriminate].
  pose proof (probe_all_weekdays cfg browser_fetch SeleniumClassifier.classify dates w1) as Hp.
  destruct (probe_all cfg browser_fetch SeleniumClassifier.classify dates w1) as [w2 found].
  destruct (if browser_started w2 then browser_quit w2 else (w2, Ok tt))
    as [w3 [[]|e]]; [|discriminate].
  intros [= _ <-]. exact Hp.
Qed.

Lemma requests_check_availability_weekdays (w w' : W) (l : list date) :
  YosemiteRequestsChecker.check_availability cfg w = (w', Ok l) ->
  Forall friday_or_saturday l.
Proof.
  unfold YosemiteRequestsChecker.check_availability.
  destruct (get_weekend_dates (today w) (months_ahead cfg)) as [dates|e]; [|discriminate].
  destruct (get_main_page w) as [w1 [[]|e]]; [|intros [= _ <-]; constructor].
  pose proof (probe_all_weekdays cfg session_fetch RequestsClassifier.classify dates w1) as Hp.
  destruct (probe_all cfg session_fetch RequestsClassifier.classify dates w1) as [w2 found].
  intros [= _ <-]. exact Hp.
Qed.

(** C9.  Every date in the list that either checker's
    [check_availability] returns, and so every date of the result of
    either [run_check], has weekday Friday (4) or Saturday (5); no Sunday
    check-in is ever reported. *)
Theorem available_dates_never_sunday (w : W) :
  match (YosemiteSeleniumChecker.check_availability cfg w).2 with
  | Ok l => Forall (fun d => weekday d = 4 \/ weekday d = 5) l
  | Raise _ => True
  end
  /\ match (YosemiteRequestsChecker.check_availability cfg w).2 with
     | Ok l => Forall (fun d => weekday d = 4 \/ weekday d = 5) l
     | Raise _ => True
     end
  /\ match (YosemiteSeleniumChecker.run_check cfg w).2 with
     | Some (l, _) => Forall (fun d => weekday d = 4 \/ weekday d = 5) l
     | None => True
     end
  /\ match (YosemiteRequestsChecker.run_check cfg w).2 with
     | Some (l, _) => Forall (fun d => weekday d = 4 \/ weekday d = 5) l
     | None => True
     end.
Proof.
  split; [|split; [|split]].
  - destruct (YosemiteSeleniumChecker.check_availability cfg w) as [w' [l|e]] eqn:Hc;
      simpl; [|exact I].
    exact (selenium_check_availability_weekdays _ _ _ Hc).
  - destruct (YosemiteRequestsChecker.check_availability cfg w) as [w' [l|e]] eqn:Hc;
      simpl; [|exact I].
    exact (requests_check_availability_weekdays _ _ _ Hc).
  - apply (run_check_loop_dates cfg _ (Forall friday_or_saturday) _
             ltac:(constructor) selenium_check_availability_weekdays 0 w eq_refl).
  - apply (run_check_loop_dates cfg _ (Forall friday_or_saturday) _
             ltac:(constructor) requests_check_availability_weekdays 0 w eq_refl).
Qed.

End CheckerFacts.

(** The sample run reports the Fridays and Saturdays of the month, and
    every Friday-Saturday pair among them. *)
Example open_lodge_requests_run :
  OpenLodge.requests_run.2 =
  Some (List.map (fun md => ymd2ord 2025 md.1 md.2)
          [(4, 4); (4, 5); (4, 11); (4, 12); (4, 18); (4, 19); (4, 25); (4, 26); (5, 2); (5, 3)],
        List.map (fun md => (ymd2ord 2025 md.1 md.2, ymd2ord 2025 md.1 md.2 + 1))
          [(4, 4); (4, 11); (4, 18); (4, 25); (5, 2)]).
Proof. vm_compute. reflexivity. Qed.

Example open_lodge_selenium_run :
  OpenLodge.selenium_run = OpenLodge.requests_run.
Proof. vm_compute. reflexivity. Qed.

(** ** Text tests *)

Lemma prefix_empty (s : string) : String.prefix EmptyString s = true.
Proof. destruct s; reflexivity. Qed.

Lemma prefix_lower (needle hay : string) :
  String.prefix needle hay = true -> String.prefix (lower needle) (lower hay) = true.
Proof.
  revert hay. induction needle as [|a needle IH]; intros hay; [intros _; apply prefix_empty|].
  destruct hay as [|b hay]; simpl; [discriminate|].
  destruct (ascii_dec a b) as [->|Hne]; [|discriminate].
  intros Hp. destruct (ascii_dec (lower_ascii b) (lower_ascii b)); [|congruence].
  apply IH, Hp.
Qed.

(** A phrase found in a text is found, lowered, in the lowered text. *)
Lemma contains_lower (needle hay : string) :
  contains needle hay = true -> contains (lower needle) (lower hay) = true.
Proof.
  induction hay as [|b hay IH]; simpl.
  - rewrite !orb_false_r. apply (prefix_lower needle EmptyString).
  - intros Hc. apply orb_true_iff in Hc as [Hp|Hc]; apply orb_true_iff.
    + left. apply (prefix_lower needle (String b hay)), Hp.
    + right. apply IH, Hc.
Qed.

Lemma prefix_append (needle a b : string) :
  String.prefix needle a = true -> String.prefix needle (String.append a b) = true.
Proof.
  revert a. induction needle as [|c needle IH]; intros a; [intros _; apply prefix_empty|].
  destruct a as [|d a]; simpl; [discriminate|].
  destruct (ascii_dec c d); [apply IH|discriminate].
Qed.

Lemma contains_nonempty (needle : string) :
  needle <> EmptyString -> contains needle EmptyString = false.
Proof. destruct needle; [done|reflexivity]. Qed.

Lemma contains_append_l (needle a b : string) :
  needle <> EmptyString ->
  contains needle a = true -> contains needle (String.append a b) = true.
Proof.
  intros Hne. induction a as [|c a IH].
  - rewrite contains_nonempty by assumption. discriminate.
  - simpl. intros Hc. apply orb_true_iff in Hc as [Hp|Hc]; apply orb_true_iff.
    + left. apply (prefix_append needle (String c a) b), Hp.
    + right. apply IH, Hc.
Qed.

Lemma contains_append_r (needle a b : string) :
  contains needle b = true -> contains needle (String.append a b) = true.
Proof.
  intros Hc. induction a as [|c a IH]; simpl; [exact Hc|].
  rewrite IH. apply orb_true_r.
Qed.

Lemma contains_concat_strings (needle s : string) (l : list string) :
  needle <> EmptyString -> s ∈ l -> contains needle s = true ->
  contains needle (concat_strings l) = true.
Proof.
  intros Hne Hin Hc. induction l as [|t l IH]; [inversion Hin|].
  simpl. apply elem_of_cons in Hin as [->|Hin].
  - apply contains_append_l; assumption.
  - apply contains_append_r, IH, Hin.
Qed.

(** ** Page content *)

(** Induction on document trees. *)
Fixpoint node_induction (P : node -> Prop)
    (Htext : forall s, P (TextNode s))
    (Helem : forall tag cls children, Forall P children -> P (Elem tag cls children))
    (n : node) : P n :=
  match n with
  | TextNode s => Htext s
  | Elem tag cls children =>
      Helem tag cls children
        ((fix all (l : list node) : Forall P l :=
            match l with
            | [] => @List.Forall_nil node P
            | c :: l' => @List.Forall_cons node P c l' (node_induction P Htext Helem c) (all l')
            end) children)
  end.

Lemma first_text_child (needle : string) (children : list node) :
  needle <> EmptyString ->
  contains needle (first_text children) = true ->
  exists s, TextNode s ∈ children /\ contains needle s = true.
Proof.
  intros Hne. induction children as [|[s|tag cls ch] rest IH]; cbn [first_text].
  - rewrite contains_nonempty by assumption. discriminate.
  - intros Hc. exists s. split; [left|exact Hc].
  - intros Hc. destruct (IH Hc) as (s & Hin & Hs). exists s. split; [right; exact Hin|exact Hs].
Qed.

(** Every node outside the string containers is a node of the document. *)
Lemma visible_subtree_incl (root n : node) :
  In n (visible_subtree root) -> In n (subtree root).
Proof.
  induction root as [s|tag cls children IH] using node_induction;
    cbn [visible_subtree subtree]; [trivial|].
  destruct (is_string_container tag); [contradiction|].
  intros [->|Hin]; [left; reflexivity|right].
  apply in_flat_map in Hin as (child & Hchild & Hin). apply in_flat_map.
  exists child. split; [exact Hchild|].
  rewrite Forall_forall in IH. apply IH; [apply list_elem_of_In, Hchild|exact Hin].
Qed.

Lemma visible_nodes_incl (p : page) (n : node) :
  In n (visible_nodes p) -> In n (all_nodes p).
Proof.
  unfold visible_nodes, all_nodes. intros Hin.
  apply in_flat_map in Hin as (root & Hroot & Hin). apply in_flat_map.
  exists root. split; [exact Hroot|apply visible_subtree_incl, Hin].
Qed.

Lemma visible_exists_node (test : node -> bool) (p : page) :
  existsb test (visible_nodes p) = true -> exists_node test p = true.
Proof.
  intros Hex. apply existsb_exists in Hex as (n & Hn & Htest).
  apply existsb_exists. exists n. split; [apply visible_nodes_incl, Hn|exact Htest].
Qed.

(** A text found in the first text child of an element outside the
    string containers is found in the text of the whole subtree. *)
Lemma node_text_of_element (needle : string) (root : node) :
  needle <> EmptyString ->
  existsb (elem_test (fun _ _ children => contains needle (first_text children)))
          (visible_subtree root) = true ->
  contains needle (node_text root) = true.
Proof.
  intros Hne. induction root as [s|tag cls children IH] using node_induction;
    cbn [visible_subtree node_text existsb elem_test].
  - discriminate.
  - destruct (is_string_container tag); [discriminate|]. cbn [existsb elem_test].
    intros Hex. apply orb_true_iff in Hex as [Hhere|Hbelow].
    + destruct (first_text_child needle children Hne Hhere) as (s & Hin & Hs).
      apply (contains_concat_strings needle (node_text (TextNode s))); [assumption| |exact Hs].
      apply list_elem_of_In, in_map, list_elem_of_In, Hin.
    + apply existsb_exists in Hbelow as (n & Hn & Htest).
      apply in_flat_map in Hn as (child & Hchild & Hn).
      apply list_elem_of_In in Hchild.
      rewrite Forall_forall in IH. specialize (IH child Hchild).
      apply (contains_concat_strings needle (node_text child)); [assumption| |].
      * apply list_elem_of_In, in_map, list_elem_of_In, Hchild.
      * apply IH. apply existsb_exists. exists n. split; assumption.
Qed.

Lemma get_text_of_element (needle : string) (p : page) :
  needle <> EmptyString ->
  existsb (elem_test (fun _ _ children => contains needle (first_text children)))
          (visible_nodes p) = true ->
  contains needle (get_text p) = true.
Proof.
  intros Hne Hex. unfold visible_nodes in Hex.
  apply existsb_exists in Hex as (n & Hn & Htest).
  apply in_flat_map in Hn as (root & Hroot & Hn).
  unfold get_text.
  apply (contains_concat_strings needle (node_text root)); [assumption| |].
  - apply list_elem_of_In, in_map, Hroot.
  - apply node_text_of_element; [assumption|].
    apply existsb_exists. exists n. split; assumption.
Qed.

(** ** A text appended to a page *)















(** ** AvailabilityClassifier *)

Lemma truthy_nonempty {A} (l : list A) : RequestsClassifier.truthy l = true <-> l <> [].
Proof. destruct l; simpl; split; congruence. Qed.

Lemma filter_nonempty_existsb {A} (f : A -> bool) (l : list A) :
  List.filter f l <> [] <-> existsb f l = true.
Proof.
  induction l as [|x l IH]; simpl; [split; [congruence|discriminate]|].
  destruct (f x); simpl; [split; [reflexivity|discriminate]|exact IH].
Qed.

(** The decision table of the browser variant. *)
Lemma selenium_classify_true (p : page) :
  SeleniumClassifier.classify p = true <->
  SeleniumClassifier.is_results_page p = true
  /\ SeleniumClassifier.positive_signal p = true
  /\ SeleniumClassifier.no_availability_found p = false
  /\ SeleniumClassifier.has_error p = false.
Proof.
  unfold SeleniumClassifier.classify.
  rewrite !andb_true_iff, !negb_true_iff. tauto.
Qed.

(** The decision table of the HTTP variant. *)
Lemma requests_classify_true (p : page) :
  RequestsClassifier.classify p = true <->
  RequestsClassifier.rate_elements p <> []
  \/ RequestsClassifier.book_buttons p <> []
  \/ RequestsClassifier.price_elements p <> []
  \/ contains "$" (lower (get_text p)) = true.
Proof.
  unfold RequestsClassifier.classify, RequestsClassifier.has_dollar_sign,
    RequestsClassifier.page_text.
  rewrite !orb_true_iff, !truthy_nonempty. tauto.
Qed.

Lemma dollar_text_is_requests_signal (p : page) :
  contains "$" (get_text p) = true -> RequestsClassifier.classify p = true.
Proof.
  intros Hd. apply requests_classify_true. do 3 right.
  apply (contains_lower "$"), Hd.
Qed.





Lemma error_phrase_rejected (phrase : string) (p : page) :
  lower (lower phrase) ∈ SeleniumClassifier.error_phrases ->
  contains phrase (page_source p) = true ->
  SeleniumClassifier.has_error p = true.
Proof.
  intros Hin Hc. unfold SeleniumClassifier.has_error, any_phrase_in.
  apply existsb_exists. exists (lower (lower phrase)).
  split; [apply list_elem_of_In, Hin|].
  unfold SeleniumClassifier.lowered_source. do 2 apply contains_lower. exact Hc.
Qed.




(** C4 (amended).  For every page content containing "Action Not
    Allowed" the browser variant classifies the date pair as unavailable,
    whatever else the page shows.  The HTTP variant has no blocking-phrase
    check: when the page text also contains a dollar sign, as in "$199",
    it classifies the date pair as available. *)
Theorem blocking_phrase_verdicts (p : page) :
  contains "Action Not Allowed" (page_source p) = true ->
  SeleniumClassifier.classify p = false
  /\ (contains "$" (get_text p) = true -> RequestsClassifier.classify p = true).
Proof.
  intros Hblocked. split; [|apply dollar_text_is_requests_signal].
  unfold SeleniumClassifier.classify.
  rewrite (error_phrase_rejected "Action Not Allowed" p); [|vm_compute; left|exact Hblocked].
  apply andb_false_r.
Qed.

Lemma blocking_phrase_verdicts_witness :
  contains "Action Not Allowed" (page_source Samples.blocked_page) = true
  /\ SeleniumClassifier.classify Samples.blocked_page = false.
Proof.
  assert (Hb : contains "Action Not Allowed" (page_source Samples.blocked_page) = true)
    by (vm_compute; reflexivity).
  split; [exact Hb|].
  exact (proj1 (blocking_phrase_verdicts Samples.blocked_page Hb)).
Defined.

(** C4, refuted as stated: a page containing "Action Not Allowed" and
    "$199" is classified available by the HTTP variant. *)
Lemma requests_ignores_blocking_phrase :
  contains "Action Not Allowed" (page_source Samples.blocked_page) = true
  /\ contains "Action Not Allowed" (get_text Samples.blocked_page) = true
  /\ contains "$199" (get_text Samples.blocked_page) = true
  /\ RequestsClassifier.classify Samples.blocked_page = true.
Proof. repeat split; vm_compute; reflexivity. Qed.

(** ** Scheduler interval *)

Section IntervalFacts.
Import Interval.

(** *** Rounding to a double *)

Lemma digits2_pos_bounds (m : positive) :
  2 ^ (Z.pos (digits2_pos m) - 1) <= Z.pos m < 2 ^ Z.pos (digits2_pos m).
Proof.
  induction m as [p IH|p IH|]; cbn [digits2_pos].
  - rewrite Pos2Z.inj_succ. change (Z.pos p~1) with (2 * Z.pos p + 1).
    replace (Z.succ (Z.pos (digits2_pos p)) - 1) with (Z.succ (Z.pos (digits2_pos p) - 1)) by lia.
    rewrite !Z.pow_succ_r by lia.
    generalize dependent (2 ^ (Z.pos (digits2_pos p) - 1)).
    generalize (2 ^ Z.pos (digits2_pos p)). intros; lia.
  - rewrite Pos2Z.inj_succ. change (Z.pos p~0) with (2 * Z.pos p).
    replace (Z.succ (Z.pos (digits2_pos p)) - 1) with (Z.succ (Z.pos (digits2_pos p) - 1)) by lia.
    rewrite !Z.pow_succ_r by lia.
    generalize dependent (2 ^ (Z.pos (digits2_pos p) - 1)).
    generalize (2 ^ Z.pos (digits2_pos p)). intros; lia.
  - simpl. lia.
Qed.

Lemma Zdigits2_le (m k : Z) : 0 <= m -> 0 <= k -> m < 2 ^ k -> Zdigits2 m <= k.
Proof.
  intros Hm Hk Hlt. destruct m as [|p|p]; simpl; [lia| |lia].
  pose proof (digits2_pos_bounds p) as [Hlo _].
  destruct (Z_le_gt_dec (Z.pos (digits2_pos p)) k) as [|Hgt]; [assumption|exfalso].
  assert (2 ^ k <= 2 ^ (Z.pos (digits2_pos p) - 1)) by (apply Z.pow_le_mono_r; lia).
  lia.
Qed.

Lemma shr_1_inv (M k : Z) (mrs : shr_record) :
  0 <= M -> 0 <= k -> shr_inv M k mrs -> shr_inv M (k + 1) (shr_1 mrs).
Proof.
  intros HM Hk [Hm Hi].
  assert (Hpow : 0 < 2 ^ k) by (apply Z.pow_pos_nonneg; lia).
  assert (Hq : 0 <= M / 2 ^ k) by (apply Z.div_pos; lia).
  assert (Hdiv : M / 2 ^ (k + 1) = Z.div2 (M / 2 ^ k)).
  { rewrite Z.pow_add_r, Z.pow_1_r by lia. rewrite <- Z.div_div by lia.
    rewrite Z.div2_div. reflexivity. }
  assert (Hmod : M mod 2 ^ (k + 1) = 0 -> M mod 2 ^ k = 0 /\ Z.odd (M / 2 ^ k) = false).
  { intros H0. apply Z.mod_divide in H0; [|lia]. destruct H0 as [c Hc].
    rewrite Z.pow_add_r, Z.pow_1_r in Hc by lia. split.
    - apply Z.mod_divide; [lia|]. exists (c * 2). lia.
    - replace M with (c * 2 * 2 ^ k) by lia. rewrite Z.div_mul by lia.
      rewrite Z.mul_comm, Z.odd_mul. reflexivity. }
  destruct mrs as [m r s]. unfold shr_inv, inexact in *. cbn [shr_m shr_r shr_s] in *.
  rewrite Hdiv, <- Hm. clear Hdiv.
  assert (Hodd : Z.odd m = true -> M mod 2 ^ (k + 1) <> 0).
  { intros Ho H0. apply Hmod in H0 as [_ He]. rewrite <- Hm in He. congruence. }
  assert (Hold : r || s = true -> M mod 2 ^ (k + 1) <> 0).
  { intros Ho H0. apply Hmod in H0 as [H0 _]. exact (Hi Ho H0). }
  destruct m as [|[p|p|]|p]; cbn [shr_1 shr_m shr_r shr_s]; try lia.
  - split; [reflexivity|]. simpl. exact Hold.
  - split; [reflexivity|]. intros _. apply Hodd. reflexivity.
  - split; [reflexivity|]. simpl. exact Hold.
  - split; [reflexivity|]. intros _. apply Hodd. reflexivity.
Qed.

Lemma iter_shr_1_inv (M : Z) (p : positive) :
  0 <= M -> forall k mrs, 0 <= k -> shr_inv M k mrs ->
  shr_inv M (k + Z.pos p) (@SpecFloat.iter_pos shr_record shr_1 p mrs).
Proof.
  intros HM. induction p as [p IH|p IH|]; intros k mrs Hk Hinv; cbn [iter_pos].
  - replace (k + Z.pos p~1) with (k + 1 + Z.pos p + Z.pos p) by lia.
    apply IH; [lia|]. apply IH; [lia|]. apply shr_1_inv; assumption.
  - replace (k + Z.pos p~0) with (k + Z.pos p + Z.pos p) by lia.
    apply IH; [lia|]. apply IH; assumption.
  - apply shr_1_inv; assumption.
Qed.

Lemma shr_fexp_spec (m e : Z) :
  0 <= m ->
  let n := Z.max 0 (fexp prec emax (Zdigits2 m + e) - e) in
  let '(mrs, e') := shr_fexp prec emax m e loc_Exact in
  e' = e + n /\ shr_m mrs = m / 2 ^ n /\ (inexact mrs = true -> m mod 2 ^ n <> 0).
Proof.
  intros Hm n. unfold shr_fexp, shr. cbn [shr_record_of_loc].
  subst n. destruct (fexp prec emax (Zdigits2 m + e) - e) as [|p|p] eqn:Hn.
  - change (Z.max 0 0) with 0. rewrite Z.pow_0_r, Z.div_1_r. repeat split; [lia|discriminate].
  - replace (Z.max 0 (Z.pos p)) with (Z.pos p) by lia.
    destruct (iter_shr_1_inv m p Hm 0 {| shr_m := m; shr_r := false; shr_s := false |})
      as [H1 H2]; [lia| |].
    + split; [simpl; rewrite Z.div_1_r; reflexivity|discriminate].
    + rewrite Z.add_0_l in H1, H2. repeat split; assumption.
  - replace (Z.max 0 (Z.neg p)) with 0 by lia.
    rewrite Z.pow_0_r, Z.div_1_r. repeat split; [lia|discriminate].
Qed.

Lemma round_nearest_even_spec (mrs : shr_record) :
  let m := round_nearest_even (shr_m mrs) (loc_of_shr_record mrs) in
  shr_m mrs <= m <= shr_m mrs + 1 /\ (inexact mrs = false -> m = shr_m mrs).
Proof.
  destruct mrs as [m [|] [|]]; unfold inexact; cbn; try destruct (Z.even m); split;
    try lia; try discriminate; reflexivity.
Qed.

Lemma fexp_le (x j : Z) : x - 53 <= j -> -1074 <= j -> fexp prec emax x <= j.
Proof. unfold fexp, SpecFloat.emin, prec, emax. lia. Qed.

(** Rounding respects every bound on the grid of an exponent [j] that can
    hold the upper bound in 53 bits. *)
Lemma binary_round_aux_bounds (sx : bool) (M : positive) (E j a b : Z) :
  E <= j -> -1074 <= j <= 971 -> 0 < b < 2 ^ 53 ->
  a * 2 ^ (j - E) <= Z.pos M <= b * 2 ^ (j - E) ->
  match binary_round_aux prec emax sx (Z.pos M) E loc_Exact with
  | S754_zero s => s = sx /\ a <= 0
  | S754_finite s m e => s = sx /\ e <= j /\ a * 2 ^ (j - e) <= Z.pos m <= b * 2 ^ (j - e)
  | _ => False
  end.
Proof.
  intros HE Hj Hb HM. unfold binary_round_aux.
  pose proof (shr_fexp_spec (Z.pos M) E ltac:(lia)) as H1. cbv zeta in H1.
  destruct (shr_fexp prec emax (Z.pos M) E loc_Exact) as [mrs1 e1].
  destruct H1 as (He1 & Hq1 & Hi1).
  set (n1 := Z.max 0 (fexp prec emax (Zdigits2 (Z.pos M) + E) - E)) in *.
  assert (Hn1 : 0 <= n1) by (unfold n1; lia).
  (* the first exponent is at most j *)
  assert (HdM : Zdigits2 (Z.pos M) <= 53 + (j - E)).
  { apply Zdigits2_le; [lia|lia|]. rewrite Z.pow_add_r by lia.
    assert (0 < 2 ^ (j - E)) by (apply Z.pow_pos_nonneg; lia). nia. }
  assert (He1j : e1 <= j).
  { pose proof (fexp_le (Zdigits2 (Z.pos M) + E) j ltac:(lia) ltac:(lia)). lia. }
  assert (Hsplit1 : 2 ^ (j - E) = 2 ^ (j - e1) * 2 ^ n1).
  { rewrite <- Z.pow_add_r by lia. f_equal. lia. }
  assert (Hp1 : 0 < 2 ^ n1) by (apply Z.pow_pos_nonneg; lia).
  assert (Hpj1 : 0 < 2 ^ (j - e1)) by (apply Z.pow_pos_nonneg; lia).
  pose proof (round_nearest_even_spec mrs1) as Hr. cbv zeta in Hr.
  set (m2 := round_nearest_even (shr_m mrs1) (loc_of_shr_record mrs1)) in *.
  destruct Hr as [Hr1 Hr2].
  assert (Hlo2 : a * 2 ^ (j - e1) <= m2).
  { apply Z.le_trans with (shr_m mrs1); [|lia]. rewrite Hq1.
    apply Z.div_le_lower_bound; [lia|]. nia. }
  assert (Hhi2 : m2 <= b * 2 ^ (j - e1)).
  { destruct (inexact mrs1) eqn:Hin.
    - specialize (Hi1 eq_refl).
      assert (shr_m mrs1 < b * 2 ^ (j - e1)); [|lia].
      rewrite Hq1. apply Z.div_lt_upper_bound; [lia|].
      destruct (Z.eq_dec (Z.pos M) (2 ^ n1 * (b * 2 ^ (j - e1)))) as [Heq|]; [|nia].
      exfalso. apply Hi1. rewrite Heq, Z.mul_comm. apply Z.mod_mul. lia.
    - rewrite (Hr2 eq_refl), Hq1. apply Z.div_le_upper_bound; [lia|]. nia. }
  assert (Hm2 : 0 <= m2).
  { apply Z.le_trans with (shr_m mrs1); [|lia]. rewrite Hq1. apply Z.div_pos; lia. }
  pose proof (shr_fexp_spec m2 e1 Hm2) as H2. cbv zeta in H2.
  destruct (shr_fexp prec emax m2 e1 loc_Exact) as [mrs2 e2].
  destruct H2 as (He2 & Hq2 & _).
  set (n2 := Z.max 0 (fexp prec emax (Zdigits2 m2 + e1) - e1)) in *.
  assert (Hn2 : 0 <= n2) by (unfold n2; lia).
  assert (Hd2 : Zdigits2 m2 <= 53 + (j - e1)).
  { apply Zdigits2_le; [lia|lia|]. rewrite Z.pow_add_r by lia. nia. }
  assert (He2j : e2 <= j).
  { pose proof (fexp_le (Zdigits2 m2 + e1) j ltac:(lia) ltac:(lia)). lia. }
  assert (Hsplit2 : 2 ^ (j - e1) = 2 ^ (j - e2) * 2 ^ n2).
  { rewrite <- Z.pow_add_r by lia. f_equal. lia. }
  assert (Hp2 : 0 < 2 ^ n2) by (apply Z.pow_pos_nonneg; lia).
  assert (Hpj2 : 0 < 2 ^ (j - e2)) by (apply Z.pow_pos_nonneg; lia).
  assert (Hlo3 : a * 2 ^ (j - e2) <= shr_m mrs2).
  { rewrite Hq2. apply Z.div_le_lower_bound; [lia|]. nia. }
  assert (Hhi3 : shr_m mrs2 <= b * 2 ^ (j - e2)).
  { rewrite Hq2. apply Z.div_le_upper_bound; [lia|]. nia. }
  assert (Hm3 : 0 <= shr_m mrs2) by (rewrite Hq2; apply Z.div_pos; lia).
  destruct (shr_m mrs2) as [|m3|m3]; [| |lia].
  - split; [reflexivity|]. nia.
  - replace (e2 <=? emax - prec) with true
      by (symmetry; apply Z.leb_le; unfold emax, prec; lia).
    repeat split; assumption.
Qed.

(** *** The doubles of the default interval *)

Lemma compare_cont_Eq_Lt (p q : positive) :
  Pos.compare_cont Eq p q = Lt -> Z.pos p < Z.pos q.
Proof. intros H. apply (proj1 (Pos.compare_lt_iff p q)) in H. lia. Qed.

(** What [valid_binary] says of a finite double. *)
Lemma valid_binary_finite (s : bool) (m : positive) (e : Z) :
  valid_binary (S754_finite s m e) = true ->
  -1074 <= e <= 971 /\ Z.pos m < 2 ^ 53 /\ (-1074 < e -> 2 ^ 52 <= Z.pos m).
Proof.
  unfold SpecFloat.valid_binary, bounded, canonical_mantissa, fexp, SpecFloat.emin, prec, emax.
  intros H. apply andb_true_iff in H as [Hc He].
  apply Z.eqb_eq in Hc. apply Z.leb_le in He.
  pose proof (digits2_pos_bounds m) as [Hlo Hhi].
  repeat split; try lia.
  - apply Z.lt_le_trans with (2 ^ Z.pos (digits2_pos m)); [exact Hhi|].
    apply Z.pow_le_mono_r; lia.
  - intros Hn. replace 52 with (Z.pos (digits2_pos m) - 1) by lia. exact Hlo.
Qed.

Lemma Prim2SF_finite (x : float) (s : bool) (m : positive) (e : Z) :
  Prim2SF x = S754_finite s m e ->
  -1074 <= e <= 971 /\ Z.pos m < 2 ^ 53 /\ (-1074 < e -> 2 ^ 52 <= Z.pos m).
Proof.
  intros Hx. apply (valid_binary_finite s). rewrite <- Hx. apply Prim2SF_valid.
Qed.

(** A draw of [random()]: a double in [0, 1). *)
Lemma unit_draw (r : float) :
  (0 <=? r)%float = true -> (r <? 1)%float = true ->
  (exists s, Prim2SF r = S754_zero s)
  \/ (exists m e, Prim2SF r = S754_finite false m e /\ e <= -53 /\ Z.pos m < 2 ^ 53).
Proof.
  rewrite leb_spec, ltb_spec.
  change (Prim2SF 0) with (S754_zero false).
  change (Prim2SF 1) with (S754_finite false 4503599627370496 (-52)).
  destruct (Prim2SF r) as [s|s| |s m e] eqn:Hr.
  - intros _ _. left. exists s. reflexivity.
  - destruct s; discriminate.
  - discriminate.
  - destruct (Prim2SF_finite r s m e Hr) as (He & Hm & Hnorm).
    destruct s; [discriminate|]. intros _.
    unfold SFltb, SFcompare. destruct (Z.compare_spec e (-52)) as [Heq|Hlt|Hgt].
    + intros Hc. exfalso. destruct (Pos.compare_cont Eq m 4503599627370496) eqn:Hcmp;
        try discriminate.
      apply compare_cont_Eq_Lt in Hcmp. specialize (Hnorm ltac:(lia)).
      change (2 ^ 52) with 4503599627370496 in Hnorm. lia.
    + intros _. right. exists m, e. repeat split; [lia|exact Hm].
    + discriminate.
Qed.

Lemma shl_align_spec (m : positive) (e e' : Z) :
  let '(m', e'') := shl_align m e e' in
  e'' <= e /\ e'' <= Z.max e e' /\ (e' <= e -> e'' = e') /\ Z.pos m' = Z.pos m * 2 ^ (e - e'').
Proof.
  unfold shl_align. destruct (e' - e) as [|d|d] eqn:Hd.
  - rewrite Z.sub_diag. simpl. lia.
  - rewrite Z.sub_diag. simpl. lia.
  - assert (Hiter : forall k, Z.pos (Pos.iter xO m k) = Z.pos m * 2 ^ Z.pos k).
    { intros k. induction k as [|k IH] using Pos.peano_ind.
      - simpl. lia.
      - rewrite Pos.iter_succ, Pos2Z.inj_succ, Z.pow_succ_r by lia.
        change (Z.pos (Pos.iter xO m k)~0) with (2 * Z.pos (Pos.iter xO m k)). rewrite IH. ring. }
    rewrite Hiter. replace (e - e') with (Z.pos d) by lia. lia.
Qed.

(** [4320.0 * r] for a draw [r]. *)
Lemma default_variation_shape (r : float) :
  (0 <=? r)%float = true -> (r <? 1)%float = true ->
  (exists s, Prim2SF (4320 * r)%float = S754_zero s)
  \/ exists m e, Prim2SF (4320 * r)%float = S754_finite false m e
                 /\ e <= -40 /\ Z.pos m <= 4320 * 2 ^ 40 * 2 ^ (-40 - e).
Proof.
  intros H0 H1.
  rewrite mul_spec. change (Prim2SF 4320) with (S754_finite false 4749890231992320 (-40)).
  destruct (unit_draw r H0 H1) as [[s ->]|(m & e & -> & He & Hm)].
  - left. eexists. reflexivity.
  - unfold SF64mul, SFmul. cbn [xorb].
    pose proof (binary_round_aux_bounds false (4749890231992320 * m) (-40 + e) (-40) 0
                  4749890231992320 ltac:(lia) ltac:(lia) ltac:(lia)) as Hb.
    replace (-40 - (-40 + e)) with (- e) in Hb by lia.
    assert (H53 : 2 ^ 53 <= 2 ^ (- e)) by (apply Z.pow_le_mono_r; lia).
    specialize (Hb ltac:(rewrite Pos2Z.inj_mul; nia)).
    destruct (binary_round_aux prec emax false (Z.pos (4749890231992320 * m)) (-40 + e) loc_Exact)
      as [s|s| |s m' e']; try contradiction.
    + left. eexists. reflexivity.
    + destruct Hb as (-> & He' & _ & Hhi). right. exists m', e'.
      change (4320 * 2 ^ 40) with 4749890231992320. repeat split; assumption.
Qed.

(** [8640.0 + 4320.0 * r] for a draw [r]: a double of exponent -39 between
    8640 and 12960. *)
Lemma default_interval_shape (r : float) :
  (0 <=? r)%float = true -> (r <? 1)%float = true ->
  exists m, Prim2SF (8640 + 4320 * r)%float = S754_finite false m (-39)
            /\ 8640 * 2 ^ 39 <= Z.pos m <= 12960 * 2 ^ 39.
Proof.
  intros H0 H1.
  assert (Hsum : exists m e, Prim2SF (8640 + 4320 * r)%float = S754_finite false m e
                   /\ e <= -39
                   /\ 8640 * 2 ^ 39 * 2 ^ (-39 - e) <= Z.pos m <= 12960 * 2 ^ 39 * 2 ^ (-39 - e)).
  { rewrite add_spec. change (Prim2SF 8640) with (S754_finite false 4749890231992320 (-39)).
    destruct (default_variation_shape r H0 H1) as [[s ->]|(m & e & -> & He & Hm)].
    - exists 4749890231992320%positive, (-39). split; [reflexivity|]. simpl. lia.
    - unfold SF64add, SFadd. cbn [cond_Zopp].
      replace (Z.min (-39) e) with e by lia.
      pose proof (shl_align_spec 4749890231992320 (-39) e) as Ha.
      destruct (shl_align 4749890231992320 (-39) e) as [ma ea].
      destruct Ha as (_ & _ & Hea & Hma).
      specialize (Hea ltac:(lia)). subst ea.
      pose proof (shl_align_spec m e e) as Hs.
      destruct (shl_align m e e) as [ms es]. destruct Hs as (_ & _ & Hes & Hms).
      specialize (Hes ltac:(lia)). subst es. rewrite Z.sub_diag, Z.pow_0_r, Z.mul_1_r in Hms.
      cbn [fst]. rewrite Hma, Hms.
      assert (Hpow : 0 < 2 ^ (-40 - e)) by (apply Z.pow_pos_nonneg; lia).
      assert (Hpow' : 2 ^ (-39 - e) = 2 * 2 ^ (-40 - e)).
      { replace (-39 - e) with (Z.succ (-40 - e)) by lia. apply Z.pow_succ_r. lia. }
      set (S := 4749890231992320 * 2 ^ (-39 - e) + Z.pos m).
      assert (HS : 8640 * 2 ^ 39 * 2 ^ (-39 - e) <= S <= 12960 * 2 ^ 39 * 2 ^ (-39 - e)).
      { unfold S. change (8640 * 2 ^ 39) with 4749890231992320.
        change (12960 * 2 ^ 39) with 7124835347988480.
        change (4320 * 2 ^ 40) with 4749890231992320 in Hm. nia. }
      clearbody S. destruct S as [|S|S]; [nia| |nia].
      unfold binary_normalize, binary_round.
      pose proof (shl_align_spec S e (fexp prec emax (Z.pos (digits2_pos S) + e))) as Hz.
      destruct (shl_align S e (fexp prec emax (Z.pos (digits2_pos S) + e))) as [mz ez].
      destruct Hz as (Hez & _ & _ & Hmz).
      assert (Hsplit : 2 ^ (-39 - ez) = 2 ^ (-39 - e) * 2 ^ (e - ez)).
      { rewrite <- Z.pow_add_r by lia. f_equal. lia. }
      assert (Hpz : 0 < 2 ^ (e - ez)) by (apply Z.pow_pos_nonneg; lia).
      pose proof (binary_round_aux_bounds false mz ez (-39) (8640 * 2 ^ 39) (12960 * 2 ^ 39)
                    ltac:(lia) ltac:(lia) ltac:(lia)) as Hb.
      specialize (Hb ltac:(rewrite Hmz, Hsplit; nia)).
      destruct (binary_round_aux prec emax false (Z.pos mz) ez loc_Exact)
        as [s|s| |s m' e']; try contradiction; [destruct Hb; lia|].
      destruct Hb as (-> & He' & Hb). exists m', e'. repeat split; try assumption; apply Hb. }
  destruct Hsum as (m & e & Hx & He & Hlo & Hhi).
  destruct (Prim2SF_finite _ _ _ _ Hx) as (_ & Hm & _).
  assert (e = -39).
  { destruct (Z.eq_dec e (-39)) as [|Hne]; [assumption|exfalso].
    assert (2 ^ 1 <= 2 ^ (-39 - e)) by (apply Z.pow_le_mono_r; lia).
    change (2 ^ 53) with 9007199254740992 in Hm.
    change (8640 * 2 ^ 39) with 4749890231992320 in Hlo. lia. }
  subst e. exists m. split; [exact Hx|]. rewrite Z.pow_0_r in Hlo, Hhi. lia.
Qed.

Lemma int_of_max_default (x : float) (m : positive) :
  Prim2SF x = S754_finite false m (-39) ->
  8640 * 2 ^ 39 <= Z.pos m <= 12960 * 2 ^ 39 ->
  exists n, int_of_max x = Ok n /\ 8640 <= n <= 12960.
Proof.
  intros Hx Hm. unfold int_of_max. rewrite ltb_spec, Hx.
  change (Prim2SF 1800) with (S754_finite false 7916483719987200 (-42)).
  cbn. unfold int_of_float. rewrite Hx. eexists. split; [reflexivity|].
  cbn [cond_Zopp]. rewrite Z.shiftl_div_pow2 by lia. change (- -39) with 39.
  change (2 ^ 39) with 549755813888 in *. split.
  - apply Z.div_le_lower_bound; lia.
  - apply Z.div_le_upper_bound; lia.
Qed.

Lemma default_interval_bounds (cfg : config) (draw : float) :
  check_interval_hours cfg = PyInt 3 \/ check_interval_hours cfg = PyFloat 3 ->
  interval_variation_percent cfg = PyInt 20 \/ interval_variation_percent cfg = PyFloat 20 ->
  (0 <=? draw)%float = true -> (draw <? 1)%float = true ->
  exists n, calculate_next_check_time cfg draw = Ok n /\ 8640 <= n <= 12960.
Proof.
  intros Hh Hp H0 H1.
  assert (Hnext : next_interval cfg draw = Ok (8640 + 4320 * draw)%float).
  { unfold next_interval. destruct Hh as [-> | ->], Hp as [-> | ->]; vm_compute; reflexivity. }
  unfold calculate_next_check_time. rewrite Hnext.
  destruct (default_interval_shape draw H0 H1) as (m & Hx & Hm).
  exact (int_of_max_default _ m Hx Hm).
Qed.

(** Whatever the configuration and the draw. *)
Lemma int_of_max_floor (x : float) :
  match int_of_max x with
  | Ok n => 1800 <= n
  | Raise e => e = OverflowError
  end.
Proof.
  unfold int_of_max. destruct (1800 <? x)%float eqn:Hlt; [|lia].
  rewrite ltb_spec in Hlt.
  change (Prim2SF 1800) with (S754_finite false 7916483719987200 (-42)) in Hlt.
  unfold int_of_float. destruct (Prim2SF x) as [s|s| |s m e] eqn:Hx; try discriminate.
  - reflexivity.
  - destruct (Prim2SF_finite x s m e Hx) as (He & Hm & Hnorm).
    unfold SFltb, SFcompare in Hlt. destruct s; [discriminate|]. cbn [cond_Zopp].
    destruct (Z.compare_spec (-42) e) as [Heq|Hl|Hg]; [| |discriminate].
    + subst e. destruct (Pos.compare_cont Eq 7916483719987200 m) eqn:Hc; try discriminate.
      apply compare_cont_Eq_Lt in Hc.
      rewrite Z.shiftl_div_pow2 by lia. apply Z.div_le_lower_bound; [reflexivity|].
      change (2 ^ (- -42)) with 4398046511104. lia.
    + specialize (Hnorm ltac:(lia)).
      destruct (Z_le_gt_dec 0 e) as [Hpos|Hneg].
      * rewrite Z.shiftl_mul_pow2 by lia.
        assert (1 <= 2 ^ e) by (apply (Z.pow_le_mono_r 2 0 e); lia).
        change (2 ^ 52) with 4503599627370496 in Hnorm. nia.
      * rewrite Z.shiftl_div_pow2 by lia. apply Z.div_le_lower_bound.
        -- apply Z.pow_pos_nonneg; lia.
        -- assert (2 ^ (- e) <= 2 ^ 41) by (apply Z.pow_le_mono_r; lia).
           change (2 ^ 52) with 4503599627370496 in Hnorm.
           change (2 ^ 41) with 2199023255552 in *. 
           assert (0 < 2 ^ (- e)) by (apply Z.pow_pos_nonneg; lia). nia.
Qed.

Lemma next_interval_floor (cfg : config) (draw : float) :
  match calculate_next_check_time cfg draw with
  | Ok n => 1800 <= n
  | Raise e => e = OverflowError
  end.
Proof.
  unfold calculate_next_check_time.
  destruct (next_interval cfg draw) as [x|e] eqn:Hn; cbn.
  - apply int_of_max_floor.
  - unfold next_interval in Hn.
    destruct (interval_variation_percent cfg) as [p|p], (check_interval_hours cfg) as [h|h];
      cbn in Hn; unfold int_truediv, float_of_int in Hn;
      repeat match type of Hn with
             | context [match ?t with _ => _ end] => destruct t; cbn in Hn
             end; congruence.
Qed.

(** C7 (amended).  With [check_interval_hours = 3],
    [interval_variation_percent = 20] and any draw of [random()], a
    double in [0, 1), the function returns an interval in
    [max(1800, 8640), 12960] seconds.  For every configuration and every
    draw it returns an interval of at least 1800 seconds or raises
    [OverflowError]; it never returns less. *)
Theorem calculate_next_check_time_bounds (cfg : config) (draw : float) :
  check_interval_hours cfg = PyInt 3 \/ check_interval_hours cfg = PyFloat 3 ->
  interval_variation_percent cfg = PyInt 20 \/ interval_variation_percent cfg = PyFloat 20 ->
  (0 <=? draw)%float = true -> (draw <? 1)%float = true ->
  (exists n, calculate_next_check_time cfg draw = Ok n /\ Z.max 1800 8640 <= n <= 12960)
  /\ (forall (cfg' : config) (draw' : float),
        match calculate_next_check_time cfg' draw' with
        | Ok n => 1800 <= n
        | Raise e => e = OverflowError
        end).
Proof.
  intros Hh Hp H0 H1. split; [|apply next_interval_floor].
  destruct (default_interval_bounds cfg draw Hh Hp H0 H1) as (n & Hn & Hb).
  exists n. split; [exact Hn|]. change (Z.max 1800 8640) with 8640. exact Hb.
Qed.

Lemma calculate_next_check_time_bounds_witness :
  exists n, calculate_next_check_time DEFAULT_CONFIG 0.5 = Ok n
            /\ Z.max 1800 8640 <= n <= 12960.
Proof.
  apply (calculate_next_check_time_bounds DEFAULT_CONFIG 0.5).
  - left. reflexivity.
  - left. reflexivity.
  - vm_compute. reflexivity.
  - vm_compute. reflexivity.
Defined.

(** C7, refuted as stated: for [check_interval_hours = 4.7e304] the
    computed interval is infinite and [int()] raises [OverflowError], and
    so does the conversion of an integer beyond the doubles; no interval
    is returned, and the scheduler then waits the 900 seconds of its
    error handler, less than 1800. *)
Lemma calculate_next_check_time_can_raise :
  calculate_next_check_time
    (mkConfig 6 true true 3 60 (PyFloat 0x1.12256c9291458p+1012) (PyInt 20)) 0.5
  = Raise OverflowError
  /\ calculate_next_check_time
       (mkConfig 6 true true 3 60 (PyInt (10 ^ 400)) (PyInt 20)) 0.5
     = Raise OverflowError
  /\ after_cycle (mkConfig 6 true true 3 60 (PyFloat 0x1.12256c9291458p+1012) (PyInt 20))
       false 0.5 (ymd2ord 2025 4 4) 32400 (CycleDone false)
     = SleepFor 900.
Proof. repeat split; vm_compute; reflexivity. Qed.

(** The draws of the two intervals that exact arithmetic would put
    elsewhere: 8640 + 4320 * r is 10080 for the double nearest to 1/3,
    and with 2 hours and 54 percent the lower end is 3311. *)
Example calculate_next_check_time_rounds :
  calculate_next_check_time DEFAULT_CONFIG 0x1.5555555555555p-2 = Ok 10080
  /\ calculate_next_check_time (mkConfig 6 true true 3 60 (PyInt 2) (PyInt 54)) 0 = Ok 3311.
Proof. split; vm_compute; reflexivity. Qed.

End IntervalFacts.

(** ** ResultStore *)

Section StoreFacts.
Variable isoformat : date -> string.
Variable fromisoformat : string -> result date.

Lemma comprehension_raises {A B} (f : A -> result B) (l : list A) :
  (exists x, x ∈ l /\ exists e, f x = Raise e) ->
  exists e, comprehension f l = Raise e.
Proof.
  induction l as [|y l IH]; intros (x & Hin & e & Hx); [inversion Hin|].
  simpl. destruct (f y) as [b|e'] eqn:Hy; [|exists e'; reflexivity].
  apply elem_of_cons in Hin as [->|Hin]; [congruence|].
  destruct IH as [e'' ->]; [exists x; eauto|]. exists e''. reflexivity.
Qed.

Lemma comprehension_map {A B C} (f : B -> result C) (g : A -> B) (h : A -> C)
    (l : list A) :
  Forall (fun x => f (g x) = Ok (h x)) l ->
  comprehension f (List.map g l) = Ok (List.map h l).
Proof.
  induction 1 as [|x l Hx _ IH]; simpl; [reflexivity|].
  rewrite Hx, IH. reflexivity.
Qed.

(** Loading what [save_results] wrote gives back the saved result, for
    dates that [fromisoformat] reads back from their [isoformat]. *)
Lemma load_after_save (timestamp : string) (available_dates : list date)
    (consecutive_pairs : list (date * date)) (file : file_state) :
  Forall (fun d => fromisoformat (isoformat d) = Ok d) available_dates ->
  Forall (fun p => fromisoformat (isoformat p.1) = Ok p.1
                   /\ fromisoformat (isoformat p.2) = Ok p.2) consecutive_pairs ->
  load_last_results fromisoformat
    (save_results isoformat WriteCompletes timestamp available_dates consecutive_pairs file)
  = (available_dates, consecutive_pairs).
Proof.
  intros Hd Hp. unfold load_last_results, load_last_results_body, save_results.
  simpl.
  rewrite (comprehension_map (parse_date fromisoformat)
             (fun d => JStr (isoformat d)) (fun d => d) available_dates Hd).
  simpl.
  rewrite (comprehension_map (parse_pair fromisoformat)
             (fun p => JArr [JStr (isoformat p.1); JStr (isoformat p.2)])
             (fun p => p) consecutive_pairs).
  2:{ eapply Forall_impl; [exact Hp|]. intros [d1 d2] [H1 H2].
      unfold parse_pair. simpl in *. rewrite H1. simpl. rewrite H2. reflexivity. }
  simpl. rewrite !List.map_id. reflexivity.
Qed.

Lemma load_of_raise (file : file_state) :
  (exists e, load_last_results_body fromisoformat file = Raise e) ->
  load_last_results fromisoformat file = ([], []).
Proof. intros [e He]. unfold load_last_results. rewrite He. reflexivity. Qed.

(** An object whose pair list has an entry that does not unpack to two
    readable dates loads as the empty result, whatever its date list. *)
Lemma load_of_bad_pair (members : list (string * json)) (items : list json) :
  members_get members "consecutive_pairs" = Some (JArr items) ->
  (exists v, v ∈ items /\ exists e, parse_pair fromisoformat v = Raise e) ->
  load_last_results fromisoformat (Present true (Document (JObj members))) = ([], []).
Proof.
  intros Hget Hbad. apply load_of_raise.
  destruct (comprehension_raises _ _ Hbad) as [e He].
  unfold load_last_results_body, data_get. rewrite Hget.
  unfold mbind, result_bind. cbn [default iterate].
  destruct (iterate (default (JArr []) (members_get members "available_dates")))
    as [dates_items|e1]; [|eauto].
  destruct (comprehension (parse_date fromisoformat) dates_items) as [dates|e2]; [|eauto].
  cbn. rewrite He. eauto.
Qed.

(** An object with a list of readable date strings and no pair list loads
    as those dates without pairs. *)
Lemma load_of_dates_only (members : list (string * json)) (texts : list string)
    (read : string -> date) :
  members_get members "available_dates" = Some (JArr (List.map JStr texts)) ->
  members_get members "consecutive_pairs" = None ->
  Forall (fun text => fromisoformat text = Ok (read text)) texts ->
  load_last_results fromisoformat (Present true (Document (JObj members)))
  = (List.map read texts, []).
Proof.
  intros Hdates Hpairs Hread.
  unfold load_last_results, load_last_results_body, data_get.
  rewrite Hdates, Hpairs. unfold mbind, result_bind. cbn.
  rewrite (comprehension_map (parse_date fromisoformat) JStr read texts Hread).
  reflexivity.
Qed.

(** C8 (amended).  [load_last_results] returns in every state of the
    results file.  It returns the saved result when the file holds what
    [save_results] wrote, and the empty result when the file is absent,
    cannot be read, does not hold JSON, holds JSON that is not an object,
    or holds an object in which an entry of the date list is not a
    readable date or an entry of the pair list does not unpack to two
    readable dates.  Other malformed content is loaded as it reads: an
    object that has a list of readable date strings and no pair list
    yields those dates and no pairs. *)
Theorem load_last_results_spec (timestamp : string) (available_dates : list date)
    (consecutive_pairs : list (date * date)) (file : file_state) :
  Forall (fun d => fromisoformat (isoformat d) = Ok d) available_dates ->
  Forall (fun p => fromisoformat (isoformat p.1) = Ok p.1
                   /\ fromisoformat (isoformat p.2) = Ok p.2) consecutive_pairs ->
  load_last_results fromisoformat
    (save_results isoformat WriteCompletes timestamp available_dates consecutive_pairs file)
  = (available_dates, consecutive_pairs)
  /\ load_last_results fromisoformat Absent = ([], [])
  /\ (forall content, load_last_results fromisoformat (Present false content) = ([], []))
  /\ load_last_results fromisoformat (Present true Garbage) = ([], [])
  /\ (forall data,
        (forall members, data <> JObj members) ->
        load_last_results fromisoformat (Present true (Document data)) = ([], []))
  /\ (forall members items,
        members_get members "available_dates" = Some (JArr items) ->
        (exists v, v ∈ items /\ exists e, parse_date fromisoformat v = Raise e) ->
        load_last_results fromisoformat (Present true (Document (JObj members))) = ([], []))
  /\ (forall members items,
        members_get members "consecutive_pairs" = Some (JArr items) ->
        (exists v, v ∈ items /\ exists e, parse_pair fromisoformat v = Raise e) ->
        load_last_results fromisoformat (Present true (Document (JObj members))) = ([], []))
  /\ (forall members texts read,
        members_get members "available_dates" = Some (JArr (List.map JStr texts)) ->
        members_get members "consecutive_pairs" = None ->
        Forall (fun text => fromisoformat text = Ok (read text)) texts ->
        load_last_results fromisoformat (Present true (Document (JObj members)))
        = (List.map read texts, [])).
Proof.
  intros Hd Hp. split; [apply load_after_save; assumption|].
  split; [reflexivity|]. split; [reflexivity|]. split; [reflexivity|].
  split; [|split; [|split; [apply load_of_bad_pair|apply load_of_dates_only]]].
  - intros data Hdata. apply load_of_raise. exists AttributeError.
    destruct data; try reflexivity. destruct (Hdata members eq_refl).
  - intros members items Hget Hbad. apply load_of_raise.
    destruct (comprehension_raises _ _ Hbad) as [e He]. exists e.
    unfold load_last_results_body, data_get. rewrite Hget. simpl. rewrite He. reflexivity.
Qed.

End StoreFacts.

Lemma load_last_results_spec_witness :
  load_last_results Iso.fromisoformat
    (save_results Iso.isoformat WriteCompletes "2025-04-01T08:00:00"
       [ymd2ord 2025 4 4; ymd2ord 2025 4 5]
       [(ymd2ord 2025 4 4, ymd2ord 2025 4 5)] Absent)
  = ([ymd2ord 2025 4 4; ymd2ord 2025 4 5], [(ymd2ord 2025 4 4, ymd2ord 2025 4 5)]).
Proof.
  apply (load_last_results_spec Iso.isoformat Iso.fromisoformat).
  - repeat constructor.
  - repeat constructor.
Defined.

(** C8, refuted as stated: malformed content can load as a result that
    is not empty.  An object that holds nothing but a date list, and one
    whose date list is an object with a date for a key, are no document
    [save_results] writes, and both load as Tuesday 2025-04-01 without
    pairs. *)
Lemma malformed_results_file_is_loaded :
  load_last_results Iso.fromisoformat
    (Present true (Document (JObj [("available_dates", JArr [JStr "2025-04-01"])])))
  = ([ymd2ord 2025 4 1], [])
  /\ load_last_results Iso.fromisoformat
       (Present true (Document (JObj [("available_dates", JObj [("2025-04-01", JNull)])])))
     = ([ymd2ord 2025 4 1], [])
  /\ (forall timestamp available_dates consecutive_pairs,
        results_document Iso.isoformat timestamp available_dates consecutive_pairs
        <> JObj [("available_dates", JArr [JStr "2025-04-01"])]
        /\ results_document Iso.isoformat timestamp available_dates consecutive_pairs
           <> JObj [("available_dates", JObj [("2025-04-01", JNull)])]).
Proof.
  split; [vm_compute; reflexivity|]. split; [vm_compute; reflexivity|].
  intros timestamp available_dates consecutive_pairs. split; discriminate.
Qed.

(** ** Scheduler cycle *)

Lemma compare_results_nil (previous : list date) : compare_results [] previous = [].
Proof.
  unfold compare_results. simpl.
  replace ((∅ : gset Z) ∖ list_to_set previous) with (∅ : gset Z).
  - apply elements_empty.
  - apply set_eq. intros d. rewrite elem_of_difference, elem_of_empty. tauto.
Qed.

Section CycleFacts.
Context {W : Type}.
Variable cfg : config.
Variable check_availability : W -> W * result (list date).

(** When every attempt raises, the retry loop ends with the empty
    result. *)
Lemma run_check_loop_exhausted (n : nat) :
  (forall w, exists w' e, check_availability w = (w', Raise e)) ->
  forall (retries : Z) (w : W),
    Z.to_nat (max_retries cfg - retries) = S n ->
    exists w', run_check_loop cfg check_availability retries w = (w', Some ([], [])).
Proof.
  intros Hfail. induction n as [|n IH]; intros retries w Hn;
    rewrite run_check_loop_once; rewrite decide_True by lia;
    destruct (Hfail w) as (w' & e & ->).
  - rewrite decide_False by lia. eauto.
  - rewrite decide_True by lia. apply IH. lia.
Qed.

Variable isoformat : date -> string.
Variable write_outcome_at : W -> write_outcome.
Variable now_isoformat : W -> string.
Variable notify : W -> list date -> list (date * date) -> W * result unit.

(** C2 (amended).  In a cycle whose [run_check] exhausts its retries
    (at least one attempt is allowed, every attempt raises, and the retry
    delay is one [time.sleep] accepts when there is more than one
    attempt), [run_check] returns the empty result and [save_results] is
    called with it: when the write completes, the results file afterwards
    holds the empty result in place of the previous one; it still holds
    the previous result only when the file cannot be opened for writing.
    The in-memory baseline of the next comparison becomes empty as well,
    and nothing is notified. *)
Theorem exhausted_cycle_overwrites_store (st : scheduler_state) (w : W) :
  0 < max_retries cfg ->
  (1 < max_retries cfg -> sleep (retry_delay_seconds cfg) = Ok tt) ->
  (forall w0, exists w' e, check_availability w0 = (w', Raise e)) ->
  exists w' : W,
    run_check_with cfg check_availability w = (w', Some ([], []))
    /\ run_cycle isoformat (run_check_with cfg check_availability)
         write_outcome_at now_isoformat notify st w
       = (w',
          mkSched
            match write_outcome_at w' with
            | WriteCompletes =>
                Present true (Document (results_document isoformat (now_isoformat w') [] []))
            | OpenFails => last_results_file st
            | DumpFails => Present true Garbage
            end
            [] [],
          CycleDone false).
Proof.
  intros Hmax _ Hfail.
  destruct (run_check_loop_exhausted (Z.to_nat (max_retries cfg) - 1) Hfail 0 w
              ltac:(lia)) as [w' Hrun].
  exists w'. split; [exact Hrun|].
  unfold run_cycle. unfold run_check_with in *. rewrite Hrun.
  rewrite compare_results_nil. unfold save_results.
  destruct (write_outcome_at w'); reflexivity.
Qed.

End CycleFacts.

Lemma exhausted_cycle_overwrites_store_witness :
  exists w' : nat,
    YosemiteSeleniumChecker.run_check (Hbrowser := BrokenBrowser.browser)
      (Hclock := BrokenBrowser.clock) DEFAULT_CONFIG 0%nat = (w', Some ([], []))
    /\ BrokenBrowser.cycle
       = (w',
          mkSched
            (Present true
               (Document (results_document Iso.isoformat "2025-04-01T11:00:00" [] [])))
            [] [],
          CycleDone false).
Proof.
  apply (exhausted_cycle_overwrites_store DEFAULT_CONFIG
           (YosemiteSeleniumChecker.check_availability
              (Hbrowser := BrokenBrowser.browser) (Hclock := BrokenBrowser.clock) DEFAULT_CONFIG)
           Iso.isoformat (fun _ => WriteCompletes) (fun _ => "2025-04-01T11:00:00")
           (fun w _ _ => (w, Ok tt)) BrokenBrowser.earlier 0%nat).
  - reflexivity.
  - intros _. reflexivity.
  - intros w0. exists (S w0), ValueError. reflexivity.
Defined.

(** C2, refuted as stated: a cycle in which all three attempts fail
    leaves a results file from which the previous result, Friday
    2025-04-04, is gone. *)
Lemma failed_cycle_loses_stored_result :
  load_last_results Iso.fromisoformat (last_results_file BrokenBrowser.earlier)
    = ([ymd2ord 2025 4 4], [])
  /\ YosemiteSeleniumChecker.run_check (Hbrowser := BrokenBrowser.browser)
       (Hclock := BrokenBrowser.clock) DEFAULT_CONFIG 0%nat = (3%nat, Some ([], []))
  /\ load_last_results Iso.fromisoformat (last_results_file BrokenBrowser.cycle.1.2)
    = ([], []).
Proof. repeat split; vm_compute; reflexivity. Qed.

(** ** Notifier *)

Section NotifierFacts.
Import Notifier.

Lemma email_field_lookup (h : heap) (config_loc email_loc : loc)
    (config email : gmap string pyval) (key : string) (v : pyval) :
  h !! config_loc = Some config ->
  config !! "email" = Some (PDict email_loc) ->
  h !! email_loc = Some email ->
  email !! key = Some v ->
  email_field h (PDict config_loc) key = Ok v.
Proof.
  intros Hc He Hm Hk. unfold email_field, getitem. simpl.
  rewrite Hc, He. simpl. rewrite Hm, Hk. reflexivity.
Qed.

(** C10.  With e-mail enabled, a non-empty date list, user name and
    password present, and [from_address] or [to_address] empty,
    [send_email_notification] assigns the user name to
    [config["email"]["from_address"]] and [config["email"]["to_address"]]
    in the dictionary the caller holds, and changes nothing else: every
    other key of the e-mail dictionary and every other object of the
    store, the configuration dictionary among them, is as before. *)
Theorem send_email_notification_sets_addresses {A B : Type}
    (h : heap) (config_loc email_loc : loc) (config email : gmap string pyval)
    (enabled username password from_address : pyval)
    (available_dates : list A) (consecutive_pairs : list B) :
  h !! config_loc = Some config ->
  config !! "email" = Some (PDict email_loc) ->
  h !! email_loc = Some email ->
  email !! "enabled" = Some enabled -> truthy h enabled = true ->
  available_dates <> [] ->
  email !! "username" = Some username -> truthy h username = true ->
  email !! "password" = Some password -> truthy h password = true ->
  email !! "from_address" = Some from_address ->
  (truthy h from_address = false
   \/ exists to_address, email !! "to_address" = Some to_address
                         /\ truthy h to_address = false) ->
  exists h' : heap,
    send_email_notification h (PDict config_loc) available_dates consecutive_pairs
      = (h', Ok SendAttempted)
    /\ h' = <[email_loc :=
               <["to_address" := username]> (<["from_address" := username]> email)]> h
    /\ (forall l, l <> email_loc -> h' !! l = h !! l)
    /\ (exists email', h' !! email_loc = Some email'
          /\ email' !! "from_address" = Some username
          /\ email' !! "to_address" = Some username
          /\ forall key, key <> "from_address" -> key <> "to_address" ->
                         email' !! key = email !! key).
Proof.
  intros Hc He Hm Hen Hent Hdates Hu Hut Hp Hpt Hf Hempty.
  eexists. split; [|split; [reflexivity|split]].
  - unfold send_email_notification.
    rewrite (email_field_lookup h _ _ _ _ _ _ Hc He Hm Hen), Hent. simpl.
    destruct available_dates as [|d ds]; [congruence|].
    rewrite (email_field_lookup h _ _ _ _ _ _ Hc He Hm Hu), Hut. simpl.
    rewrite (email_field_lookup h _ _ _ _ _ _ Hc He Hm Hp). simpl. rewrite Hpt. simpl.
    rewrite (email_field_lookup h _ _ _ _ _ _ Hc He Hm Hf). simpl.
    assert (Hgo :
      (if negb (truthy h from_address) then Ok true
       else to_address ← email_field h (PDict config_loc) "to_address";
            Ok (negb (truthy h to_address))) = Ok true).
    { destruct Hempty as [Hfe|(to_address & Ht & Hte)].
      - rewrite Hfe. reflexivity.
      - destruct (truthy h from_address); [|reflexivity]. simpl.
        rewrite (email_field_lookup h _ _ _ _ _ _ Hc He Hm Ht). simpl.
        rewrite Hte. reflexivity. }
    rewrite Hgo. rewrite Hc, He. simpl. rewrite Hm.
    set (h1 := <[email_loc := <["from_address" := username]> email]> h).
    assert (Hm1 : h1 !! email_loc = Some (<["from_address" := username]> email))
      by apply lookup_insert_eq.
    assert (Hc1 : exists config1, h1 !! config_loc = Some config1
                                  /\ config1 !! "email" = Some (PDict email_loc)).
    { unfold h1. destruct (decide (email_loc = config_loc)) as [->|Hne].
      - rewrite lookup_insert_eq. eexists. split; [reflexivity|].
        rewrite lookup_insert_ne by discriminate. congruence.
      - rewrite lookup_insert_ne by assumption. eauto. }
    destruct Hc1 as (config1 & Hc1 & He1).
    rewrite (email_field_lookup h1 _ _ _ _ "username" username Hc1 He1 Hm1).
    2:{ rewrite lookup_insert_ne by discriminate. exact Hu. }
    simpl. rewrite Hc1, He1. simpl.
    rewrite Hm1. unfold h1. rewrite insert_insert_eq. reflexivity.
  - intros l Hl. rewrite lookup_insert_ne by congruence. reflexivity.
  - eexists. split; [apply lookup_insert_eq|].
    split; [|split].
    + rewrite lookup_insert_ne by discriminate. apply lookup_insert_eq.
    + apply lookup_insert_eq.
    + intros key Hk1 Hk2. rewrite !lookup_insert_ne by congruence. reflexivity.
Qed.

(** The assignment is seen through every reference to the e-mail
    dictionary.  [load_config] builds the configuration with
    [DEFAULT_CONFIG.copy()], a shallow copy, so [DEFAULT_CONFIG] refers to
    the same e-mail dictionary and shows the new addresses as well. *)
Lemma update_seen_through_alias (h : heap) (email_loc other_loc : loc)
    (email other : gmap string pyval) (username : pyval) :
  h !! other_loc = Some other ->
  other !! "email" = Some (PDict email_loc) ->
  other_loc <> email_loc ->
  let h' := <[email_loc :=
               <["to_address" := username]> (<["from_address" := username]> email)]> h in
  email_field h' (PDict other_loc) "from_address" = Ok username
  /\ email_field h' (PDict other_loc) "to_address" = Ok username.
Proof.
  intros Ho He Hne h'.
  assert (Ho' : h' !! other_loc = Some other)
    by (unfold h'; rewrite lookup_insert_ne by congruence; exact Ho).
  assert (Hm' : h' !! email_loc
                = Some (<["to_address" := username]> (<["from_address" := username]> email)))
    by apply lookup_insert_eq.
  split.
  - apply (email_field_lookup h' other_loc email_loc other _ _ _ Ho' He Hm').
    rewrite lookup_insert_ne by discriminate. apply lookup_insert_eq.
  - apply (email_field_lookup h' other_loc email_loc other _ _ _ Ho' He Hm').
    apply lookup_insert_eq.
Qed.

End NotifierFacts.

Lemma send_email_notification_sets_addresses_witness :
  exists h' : Notifier.heap,
    Notifier.send_email_notification SampleConfig.store (Notifier.PDict 1%positive)
      [ymd2ord 2025 4 4] [(ymd2ord 2025 4 4, ymd2ord 2025 4 5)]
      = (h', Ok Notifier.SendAttempted)
    /\ Notifier.email_field h' (Notifier.PDict 1%positive) "from_address"
       = Ok (Notifier.PStr "ranger@example.org")
    /\ Notifier.email_field h' (Notifier.PDict 1%positive) "to_address"
       = Ok (Notifier.PStr "ranger@example.org").
Proof.
  destruct (send_email_notification_sets_addresses
              SampleConfig.store 1%positive 2%positive
              SampleConfig.config SampleConfig.email
              (Notifier.PBool true) (Notifier.PStr "ranger@example.org")
              (Notifier.PStr "app-password") (Notifier.PStr EmptyString)
              [ymd2ord 2025 4 4] [(ymd2ord 2025 4 4, ymd2ord 2025 4 5)])
    as (h' & Hrun & Hh' & _ & _);
    try (vm_compute; reflexivity).
  - discriminate.
  - left. reflexivity.
  - exists h'. split; [exact Hrun|]. rewrite Hh'. split; vm_compute; reflexivity.
Defined.

(** * Further properties *)

(** ** What the checkers report *)

Lemma omap_lookup_seq {A} (l : list A) (n : nat) : forall i : nat,
  omap (fun j => l !! j) (seq i n) = take n (drop i l).
Proof.
  induction n as [|n IH]; intros i; [reflexivity|].
  simpl seq. simpl omap. rewrite IH.
  destruct (l !! i) as [x|] eqn:Hi.
  - rewrite (drop_S l x i Hi). reflexivity.
  - apply lookup_ge_None in Hi.
    rewrite (drop_ge l i) by exact Hi. rewrite (drop_ge l (S i)) by lia.
    rewrite take_nil. reflexivity.
Qed.

Lemma StronglySorted_sublist {A} (R : A -> A -> Prop) (l1 l2 : list A) :
  l1 `sublist_of` l2 -> StronglySorted R l2 -> StronglySorted R l1.
Proof.
  induction 1 as [|x l1 l2 Hsub IH|x l1 l2 Hsub IH]; intros Hs.
  - constructor.
  - inversion Hs as [|? ? Hs' Hall]; subst. constructor; [apply IH, Hs'|].
    apply Forall_forall. intros y Hy. rewrite Forall_forall in Hall.
    apply Hall. eapply elem_of_sublist; eassumption.
  - inversion Hs; subst. apply IH. assumption.
Qed.

Section ProbeLoopReports.
Context {W : Type}.
Variable cfg : config.
Variable fetch : W -> date -> date -> W * result page.
Variable classify : page -> bool.

(** The loop appends, in order, some of the dates at the indices it
    visits, each of them a date the three [continue] tests let through. *)
Lemma probe_loop_appends (l : list date) (indices : list nat) :
  forall (w : W) (acc : list date),
  exists found : list date,
    (probe_loop cfg fetch classify l indices w acc).2 = acc ++ found
    /\ found `sublist_of` omap (fun i => l !! i) indices
    /\ Forall (fun d => qualifies cfg d = true) found.
Proof.
  induction indices as [|i indices IH]; intros w acc; simpl.
  - exists []. rewrite app_nil_r. split; [reflexivity|]. split; constructor.
  - destruct (l !! i) as [check_in|].
    2:{ exists []. rewrite app_nil_r. split; [reflexivity|].
        split; [apply sublist_nil_l|constructor]. }
    destruct (date_add check_in 1) as [check_out|e].
    2:{ exists []. rewrite app_nil_r. split; [reflexivity|].
        split; [apply sublist_nil_l|constructor]. }
    destruct (skipped cfg check_in) eqn:Hs.
    + destruct (IH w acc) as (found & -> & Hsub & Hq). exists found.
      split; [reflexivity|]. split; [apply sublist_cons, Hsub|exact Hq].
    + rewrite skipped_qualifies in Hs. apply negb_false_iff in Hs.
      destruct (fetch w check_in check_out) as [w' [content|e]].
      * destruct (classify content).
        -- destruct (IH w' (acc ++ [check_in])) as (found & -> & Hsub & Hq).
           exists (check_in :: found). rewrite <- app_assoc.
           split; [reflexivity|]. split; [apply sublist_skip, Hsub|].
           constructor; assumption.
        -- destruct (IH w' acc) as (found & -> & Hsub & Hq). exists found.
           split; [reflexivity|]. split; [apply sublist_cons, Hsub|exact Hq].
      * destruct (IH w' acc) as (found & -> & Hsub & Hq). exists found.
        split; [reflexivity|]. split; [apply sublist_cons, Hsub|exact Hq].
Qed.

Lemma probe_all_reports (l : list date) (w : W) :
  (probe_all cfg fetch classify l w).2 `sublist_of` l
  /\ Forall (fun d => qualifies cfg d = true) (probe_all cfg fetch classify l w).2.
Proof.
  unfold probe_all.
  destruct (probe_loop_appends l (seq 0 (length l - 1)) w []) as (found & -> & Hsub & Hq).
  simpl. split; [|exact Hq].
  rewrite omap_lookup_seq, drop_0 in Hsub.
  etransitivity; [exact Hsub|apply sublist_take].
Qed.

End ProbeLoopReports.

Lemma get_weekend_dates_generated (today : date) (months_ahead : Z) (l : list date) :
  valid_date today ->
  get_weekend_dates today months_ahead = Ok l ->
  l = weekend_days_between today (today + 30 * months_ahead)
  /\ 1 <= today + 30 * months_ahead < MAXORD.
Proof.
  intros Hv. rewrite get_weekend_dates_closed_form by assumption.
  destruct (decide (1 <= today + 30 * months_ahead < MAXORD)); [|discriminate].
  intros [= <-]. split; [reflexivity|assumption].
Qed.

Section CheckerReports.
Context {W : Type} {Hbrowser : Browser W} {Hsession : Session W} {Hclock : Clock W}.
Variable cfg : config.

Lemma selenium_check_availability_reports (w w' : W) (l : list date) :
  (forall w0, valid_date (today w0)) ->
  YosemiteSeleniumChecker.check_availability cfg w = (w', Ok l) ->
  let t := today (if browser_started w then w else (setup_browser w).1) in
  l `sublist_of` weekend_days_between t (t + 30 * months_ahead cfg)
  /\ Forall (fun d => qualifies cfg d = true) l.
Proof.
  intros Hclockv. unfold YosemiteSeleniumChecker.check_availability.
  assert (Hw1 : (if browser_started w then (w, Ok tt) else setup_browser w).1
                = if browser_started w then w else (setup_browser w).1)
    by (destruct (browser_started w); reflexivity).
  destruct (if browser_started w then (w, Ok tt) else setup_browser w)
    as [w1 [[]|e]]; [|discriminate].
  cbn [fst] in Hw1. rewrite <- Hw1.
  destruct (get_weekend_dates (today w1) (months_ahead cfg)) as [dates|e] eqn:Hg;
    [|discriminate].
  apply get_weekend_dates_generated in Hg as [-> _]; [|apply Hclockv].
  pose proof (probe_all_reports cfg browser_fetch SeleniumClassifier.classify
                (weekend_days_between (today w1) (today w1 + 30 * months_ahead cfg)) w1)
    as Hp.
  destruct (probe_all cfg browser_fetch SeleniumClassifier.classify _ w1) as [w2 found].
  destruct (if browser_started w2 then browser_quit w2 else (w2, Ok tt))
    as [w3 [[]|e]]; [|discriminate].
  intros [= _ <-]. exact Hp.
Qed.

Lemma requests_check_availability_reports (w w' : W) (l : list date) :
  (forall w0, valid_date (today w0)) ->
  YosemiteRequestsChecker.check_availability cfg w = (w', Ok l) ->
  l `sublist_of` weekend_days_between (today w) (today w + 30 * months_ahead cfg)
  /\ Forall (fun d => qualifies cfg d = true) l.
Proof.
  intros Hclockv. unfold YosemiteRequestsChecker.check_availability.
  destruct (get_weekend_dates (today w) (months_ahead cfg)) as [dates|e] eqn:Hg;
    [|discriminate].
  apply get_weekend_dates_generated in Hg as [-> _]; [|apply Hclockv].
  destruct (get_main_page w) as [w1 [[]|e]].
  - pose proof (probe_all_reports cfg session_fetch RequestsClassifier.classify
                  (weekend_days_between (today w) (today w + 30 * months_ahead cfg)) w1)
      as Hp.
    destruct (probe_all cfg session_fetch RequestsClassifier.classify _ w1) as [w2 found].
    intros [= _ <-]. exact Hp.
  - intros [= _ <-]. split; [apply sublist_nil_l|constructor].
Qed.

End CheckerReports.

Lemma qualifies_true (cfg : config) (d : date) :
  qualifies cfg d = true <->
  weekday d = 4 /\ check_friday_saturday cfg = true
  \/ weekday d = 5 /\ check_saturday_sunday cfg = true.
Proof.
  unfold qualifies. rewrite orb_true_iff, !andb_true_iff, !Z.eqb_eq. reflexivity.
Qed.

(** The pairs found among dates that all passed the [continue] tests. *)
Lemma consecutive_pairs_of_reported (cfg : config) (l : list date) :
  Forall (fun d => qualifies cfg d = true) l ->
  Forall (fun p => weekday p.1 = 4 /\ weekday p.2 = 5 /\ p.2 = p.1 + 1
                   /\ check_friday_saturday cfg = true
                   /\ check_saturday_sunday cfg = true)
         (find_consecutive_days l).
Proof.
  intros Hq. rewrite find_consecutive_days_refines. unfold adjacent_weekend_pairs_spec.
  apply Forall_forall. intros [d1 d2] Hin.
  apply list_elem_of_filter in Hin as [Hp Hin]. simpl in Hp.
  apply is_weekend_pair_true in Hp as [Hday Hw].
  apply list_elem_of_lookup in Hin as [i Hi].
  apply lookup_zip_Some in Hi as [H1 H2]. rewrite lookup_tail in H2.
  rewrite Forall_forall in Hq.
  pose proof (Hq d1 (list_elem_of_lookup_2 _ _ _ H1)) as Q1.
  pose proof (Hq d2 (list_elem_of_lookup_2 _ _ _ H2)) as Q2.
  apply qualifies_true in Q1, Q2. simpl. intuition lia.
Qed.

Section RetryReports.
Context {W : Type}.
Variable cfg : config.
Variable check_availability : W -> W * result (list date).

(** Where the result of the retry loop comes from: the first attempt
    that returns, or the empty result after the last failed attempt. *)
Lemma run_check_loop_result (n : nat) : forall (retries : Z) (w : W),
  Z.to_nat (max_retries cfg - retries) = n ->
  match (run_check_loop cfg check_availability retries w).2 with
  | None => n = 0%nat
  | Some (l, pairs) =>
      pairs = find_consecutive_days l
      /\ (l = [] \/ exists w0 w', check_availability w0 = (w', Ok l))
  end.
Proof.
  induction n as [|n IH]; intros retries w Hn; rewrite run_check_loop_once.
  - rewrite decide_False by lia. reflexivity.
  - rewrite decide_True by lia.
    destruct (check_availability w) as [w' [l0|e]] eqn:Hc; simpl.
    + split; [reflexivity|]. right. eauto.
    + destruct (decide (retries + 1 < max_retries cfg)); simpl.
      * specialize (IH (retries + 1) w' ltac:(lia)).
        destruct (run_check_loop cfg check_availability (retries + 1) w').2
          as [[l' pairs]|]; [exact IH|lia].
      * split; [reflexivity|]. left. reflexivity.
Qed.

End RetryReports.

Section CheckerTheorems.
Context {W : Type} {Hbrowser : Browser W} {Hsession : Session W} {Hclock : Clock W}.
Variable cfg : config.

(** X1.  When the clock shows calendar days, the list either checker's
    [check_availability] returns is strictly ascending and free of
    duplicates, and it is a subsequence of the weekend days of the
    look-ahead window that starts on the day the dates were generated:
    the day the clock shows when the function is entered, for the browser
    variant after it started a browser if none was held. *)
Theorem check_availability_ascending (w : W) :
  (forall w0 : W, valid_date (today w0)) ->
  match (YosemiteSeleniumChecker.check_availability cfg w).2 with
  | Ok l =>
      let t := today (if browser_started w then w else (setup_browser w).1) in
      StronglySorted Z.lt l /\ NoDup l
      /\ l `sublist_of` weekend_days_between t (t + 30 * months_ahead cfg)
  | Raise _ => True
  end
  /\ match (YosemiteRequestsChecker.check_availability cfg w).2 with
     | Ok l =>
         StronglySorted Z.lt l /\ NoDup l
         /\ l `sublist_of` weekend_days_between (today w) (today w + 30 * months_ahead cfg)
     | Raise _ => True
     end.
Proof.
  intros Hv.
  assert (Hsub : forall t l,
            l `sublist_of` weekend_days_between t (t + 30 * months_ahead cfg) ->
            StronglySorted Z.lt l /\ NoDup l
            /\ l `sublist_of` weekend_days_between t (t + 30 * months_ahead cfg)).
  { intros t l Hl. split; [|split; [|exact Hl]].
    - eapply StronglySorted_sublist; [exact Hl|].
      exact (weekend_days_between_sorted _ _ _ eq_refl).
    - eapply sublist_NoDup; [apply weekend_days_between_NoDup|exact Hl]. }
  split.
  - destruct (YosemiteSeleniumChecker.check_availability cfg w) as [w' [l|e]] eqn:Hc;
      simpl; [|exact I].
    destruct (selenium_check_availability_reports cfg _ _ _ Hv Hc) as (Hl & _).
    exact (Hsub _ l Hl).
  - destruct (YosemiteRequestsChecker.check_availability cfg w) as [w' [l|e]] eqn:Hc;
      simpl; [|exact I].
    destruct (requests_check_availability_reports cfg _ _ _ Hv Hc) as (Hl & _).
    exact (Hsub _ l Hl).
Qed.

Lemma selenium_reports_qualify (w w' : W) (l : list date) :
  YosemiteSeleniumChecker.check_availability cfg w = (w', Ok l) ->
  Forall (fun d => qualifies cfg d = true) l.
Proof.
  unfold YosemiteSeleniumChecker.check_availability.
  destruct (if browser_started w then (w, Ok tt) else setup_browser w)
    as [w1 [[]|e]]; [|discriminate].
  destruct (get_weekend_dates (today w1) (months_ahead cfg)) as [dates|e]; [|discriminate].
  pose proof (probe_all_reports cfg browser_fetch SeleniumClassifier.classify dates w1)
    as [_ Hp].
  destruct (probe_all cfg browser_fetch SeleniumClassifier.classify dates w1) as [w2 found].
  destruct (if browser_started w2 then browser_quit w2 else (w2, Ok tt))
    as [w3 [[]|e]]; [|discriminate].
  intros [= _ <-]. exact Hp.
Qed.

Lemma requests_reports_qualify (w w' : W) (l : list date) :
  YosemiteRequestsChecker.check_availability cfg w = (w', Ok l) ->
  Forall (fun d => qualifies cfg d = true) l.
Proof.
  unfold YosemiteRequestsChecker.check_availability.
  destruct (get_weekend_dates (today w) (months_ahead cfg)) as [dates|e]; [|discriminate].
  destruct (get_main_page w) as [w1 [[]|e]]; [|intros [= _ <-]; constructor].
  pose proof (probe_all_reports cfg session_fetch RequestsClassifier.classify dates w1)
    as [_ Hp].
  destruct (probe_all cfg session_fetch RequestsClassifier.classify dates w1) as [w2 found].
  intros [= _ <-]. exact Hp.
Qed.

(** X2.  The weekend-pair switches are respected: a Friday is reported
    only with [check_friday_saturday] on and a Saturday only with
    [check_saturday_sunday] on, by either checker. *)
Theorem reported_dates_respect_flags (w : W) :
  match (YosemiteSeleniumChecker.check_availability cfg w).2 with
  | Ok l => Forall (fun d => weekday d = 4 /\ check_friday_saturday cfg = true
                             \/ weekday d = 5 /\ check_saturday_sunday cfg = true) l
  | Raise _ => True
  end
  /\ match (YosemiteRequestsChecker.check_availability cfg w).2 with
     | Ok l => Forall (fun d => weekday d = 4 /\ check_friday_saturday cfg = true
                                \/ weekday d = 5 /\ check_saturday_sunday cfg = true) l
     | Raise _ => True
     end.
Proof.
  split.
  - destruct (YosemiteSeleniumChecker.check_availability cfg w) as [w' [l|e]] eqn:Hc;
      simpl; [|exact I].
    eapply Forall_impl; [exact (selenium_reports_qualify _ _ _ Hc)|].
    intros d. apply qualifies_true.
  - destruct (YosemiteRequestsChecker.check_availability cfg w) as [w' [l|e]] eqn:Hc;
      simpl; [|exact I].
    eapply Forall_impl; [exact (requests_reports_qualify _ _ _ Hc)|].
    intros d. apply qualifies_true.
Qed.

Lemma run_check_pairs (check : W -> W * result (list date)) (w : W) :
  (forall w0 w' l, check w0 = (w', Ok l) -> Forall (fun d => qualifies cfg d = true) l) ->
  match (run_check_with cfg check w).2 with
  | Some (_, pairs) =>
      Forall (fun p => weekday p.1 = 4 /\ weekday p.2 = 5 /\ p.2 = p.1 + 1
                       /\ check_friday_saturday cfg = true
                       /\ check_saturday_sunday cfg = true) pairs
  | None => True
  end.
Proof.
  intros Hq. unfold run_check_with.
  pose proof (run_check_loop_result cfg check _ 0 w eq_refl) as Hr.
  destruct (run_check_loop cfg check 0 w).2 as [[l pairs]|]; [|exact I].
  destruct Hr as [-> Hl]. apply consecutive_pairs_of_reported.
  destruct Hl as [->|(w0 & w' & Hc)]; [constructor|exact (Hq _ _ _ Hc)].
Qed.

(** X3.  Every consecutive pair that either [run_check] returns is a
    Friday followed by the Saturday after it.  Saturday-Sunday pairs never
    occur, since no Sunday is ever reported, and with either weekend-pair
    switch off there is no pair at all. *)
Theorem run_check_pairs_friday_saturday (w : W) :
  match (YosemiteSeleniumChecker.run_check cfg w).2 with
  | Some (_, pairs) =>
      Forall (fun p => weekday p.1 = 4 /\ weekday p.2 = 5 /\ p.2 = p.1 + 1) pairs
      /\ (check_friday_saturday cfg = false \/ check_saturday_sunday cfg = false ->
          pairs = [])
  | None => True
  end
  /\ match (YosemiteRequestsChecker.run_check cfg w).2 with
     | Some (_, pairs) =>
         Forall (fun p => weekday p.1 = 4 /\ weekday p.2 = 5 /\ p.2 = p.1 + 1) pairs
         /\ (check_friday_saturday cfg = false \/ check_saturday_sunday cfg = false ->
             pairs = [])
     | None => True
     end.
Proof.
  assert (Hgen : forall pairs : list (date * date),
            Forall (fun p => weekday p.1 = 4 /\ weekday p.2 = 5 /\ p.2 = p.1 + 1
                             /\ check_friday_saturday cfg = true
                             /\ check_saturday_sunday cfg = true) pairs ->
            Forall (fun p => weekday p.1 = 4 /\ weekday p.2 = 5 /\ p.2 = p.1 + 1) pairs
            /\ (check_friday_saturday cfg = false \/ check_saturday_sunday cfg = false ->
                pairs = [])).
  { intros pairs Hp. split.
    - eapply Forall_impl; [exact Hp|]. intros p (H1 & H2 & H3 & _). auto.
    - intros Hoff. destruct pairs as [|p pairs]; [reflexivity|].
      inversion Hp as [|? ? (_ & _ & _ & Hf & Hs) _]; subst.
      destruct Hoff; congruence. }
  split.
  - pose proof (run_check_pairs (YosemiteSeleniumChecker.check_availability cfg) w
                  selenium_reports_qualify) as Hr.
    unfold YosemiteSeleniumChecker.run_check.
    destruct (run_check_with cfg (YosemiteSeleniumChecker.check_availability cfg) w).2
      as [[l pairs]|]; [exact (Hgen pairs Hr)|exact I].
  - pose proof (run_check_pairs (YosemiteRequestsChecker.check_availability cfg) w
                  requests_reports_qualify) as Hr.
    unfold YosemiteRequestsChecker.run_check.
    destruct (run_check_with cfg (YosemiteRequestsChecker.check_availability cfg) w).2
      as [[l pairs]|]; [exact (Hgen pairs Hr)|exact I].
Qed.

End CheckerTheorems.

Lemma check_availability_ascending_witness :
  match (YosemiteRequestsChecker.check_availability
           (Hsession := OpenLodge.session) (Hclock := OpenLodge.clock)
           OpenLodge.one_month tt).2 with
  | Ok l =>
      StronglySorted Z.lt l /\ NoDup l
      /\ l `sublist_of`
           weekend_days_between (ymd2ord 2025 4 4)
             (ymd2ord 2025 4 4 + 30 * months_ahead OpenLodge.one_month)
  | Raise _ => True
  end.
Proof.
  apply (check_availability_ascending
           (Hbrowser := OpenLodge.browser) (Hsession := OpenLodge.session)
           (Hclock := OpenLodge.clock) OpenLodge.one_month tt).
  intros w0. vm_compute. split; discriminate.
Defined.

(** X4.  For a calendar day [today] and a horizon whose end date lies in
    the calendar before its last day, the date pairs the probing loop
    requests, whatever the fetcher answers, are [(d, d + 1)] for exactly
    the generated dates [d], the last generated date left out, that are a
    Friday with [check_friday_saturday] on or a Saturday with
    [check_saturday_sunday] on, in ascending order. *)
Theorem probed_pairs_of_generated_dates {W : Type} (cfg : config) (today : date)
    (fetch : W -> date -> date -> W * result page) (classify : page -> bool) (w : W) :
  valid_date today ->
  1 <= today + 30 * months_ahead cfg < MAXORD ->
  exists l : list date,
    get_weekend_dates today (months_ahead cfg) = Ok l
    /\ (probe_all cfg (recording fetch) classify l (w, [])).1.2
       = candidate_pairs_spec cfg (removelast l).
Proof.
  intros Hv Hr. exists (weekend_days_between today (today + 30 * months_ahead cfg)).
  split.
  - rewrite get_weekend_dates_closed_form by assumption.
    rewrite decide_True by assumption. reflexivity.
  - rewrite probed_pairs_any_fetcher. apply probed_pairs_skip_last.
    apply Forall_forall. intros d Hd.
    apply elem_of_weekend_days_between in Hd. unfold valid_date, MINORD in Hv. lia.
Qed.

Lemma probed_pairs_of_generated_dates_witness :
  exists l : list date,
    get_weekend_dates (ymd2ord 2025 4 4) (months_ahead DEFAULT_CONFIG) = Ok l
    /\ (probe_all DEFAULT_CONFIG
          (recording (fun (w : unit) _ _ => (w, Ok Samples.priced_page)))
          RequestsClassifier.classify l (tt, [])).1.2
       = candidate_pairs_spec DEFAULT_CONFIG (removelast l).
Proof.
  apply (probed_pairs_of_generated_dates DEFAULT_CONFIG (ymd2ord 2025 4 4)).
  - vm_compute. split; discriminate.
  - vm_compute. split; [discriminate|reflexivity].
Defined.

Section RetryTheorems.
Context {W : Type}.
Variable cfg : config.
Variable check_availability : W -> W * result (list date).

(** The counted loop is the loop, with the number of attempts beside
    the world. *)
Lemma run_check_loop_counted (n : nat) : forall (retries : Z) (w : W) (calls : nat),
  Z.to_nat (max_retries cfg - retries) = n ->
  exists made : nat,
    run_check_loop cfg (counting check_availability) retries (w, calls)
    = (((run_check_loop cfg check_availability retries w).1, (calls + made)%nat),
       (run_check_loop cfg check_availability retries w).2)
    /\ (made <= n)%nat
    /\ ((run_check_loop cfg check_availability retries w).2 = None <-> made = 0%nat)
    /\ ((forall w0, exists w' e, check_availability w0 = (w', Raise e)) -> made = n).
Proof.
  induction n as [|n IH]; intros retries w calls Hn;
    rewrite (run_check_loop_once cfg check_availability),
            (run_check_loop_once cfg (counting check_availability)).
  - rewrite !decide_False by lia. exists 0%nat. simpl. rewrite Nat.add_0_r.
    repeat split; auto.
  - rewrite !decide_True by lia. unfold counting at 1.
    destruct (check_availability w) as [w' [l|e]] eqn:Hc.
    + exists 1%nat. simpl. rewrite Nat.add_1_r.
      split; [reflexivity|]. split; [lia|]. split; [split; discriminate|].
      intros Hfail. destruct (Hfail w) as (w'' & e & He). congruence.
    + destruct (decide (retries + 1 < max_retries cfg)).
      * destruct (IH (retries + 1) w' (S calls) ltac:(lia)) as (made & -> & Hle & Hnone & Hall).
        exists (S made). simpl. rewrite Nat.add_succ_r.
        split; [reflexivity|]. split; [lia|]. split.
        -- split; [|discriminate]. intros Hn0. apply Hnone in Hn0. subst made.
           specialize (IH (retries + 1) w' (S calls) ltac:(lia)).
           pose proof (run_check_loop_result cfg check_availability _ (retries + 1) w' eq_refl)
             as Hres.
           rewrite (proj2 Hnone eq_refl) in Hres. lia.
        -- intros Hfail. rewrite (Hall Hfail). reflexivity.
      * exists 1%nat. simpl. rewrite Nat.add_1_r.
        split; [reflexivity|]. split; [lia|]. split; [split; discriminate|].
        intros _. lia.
Qed.

(** X5.  [run_check] calls [check_availability] at most [max_retries]
    times, and it returns [None], the value of a Python function that
    falls off its end, exactly when it makes no call at all, which is when
    [max_retries] is zero or negative. *)
Theorem run_check_attempts (w : W) :
  exists made : nat,
    run_check_with cfg (counting check_availability) (w, 0%nat)
    = (((run_check_with cfg check_availability w).1, made),
       (run_check_with cfg check_availability w).2)
    /\ (made <= Z.to_nat (max_retries cfg))%nat
    /\ ((run_check_with cfg check_availability w).2 = None <-> made = 0%nat)
    /\ ((run_check_with cfg check_availability w).2 = None <-> max_retries cfg <= 0).
Proof.
  unfold run_check_with.
  destruct (run_check_loop_counted (Z.to_nat (max_retries cfg - 0)) 0 w 0%nat eq_refl)
    as (made & Hrun & Hle & Hnone & _).
  exists made. simpl in Hrun. split; [exact Hrun|].
  split; [replace (max_retries cfg) with (max_retries cfg - 0) by lia; exact Hle|].
  split; [exact Hnone|].
  rewrite (run_check_loop_once cfg check_availability).
  destruct (decide (0 < max_retries cfg)) as [Hpos|Hnonpos].
  - split; [|lia]. destruct (check_availability w) as [w' [l|e]]; simpl; [discriminate|].
    destruct (decide (0 + 1 < max_retries cfg)); [|discriminate].
    intros Hn.
    pose proof (run_check_loop_result cfg check_availability _ (0 + 1) w' eq_refl) as Hres.
    rewrite Hn in Hres. lia.
  - split; [lia|reflexivity].
Qed.

(** X6.  When every attempt raises, at least one attempt is allowed and
    the retry delay is one [time.sleep] accepts (which matters when more
    than one attempt is allowed), [run_check] makes exactly [max_retries]
    attempts before it returns the empty result. *)
Theorem run_check_exhausted_attempts (w : W) :
  0 < max_retries cfg ->
  (1 < max_retries cfg -> sleep (retry_delay_seconds cfg) = Ok tt) ->
  (forall w0, exists w' e, check_availability w0 = (w', Raise e)) ->
  exists w' : W,
    run_check_with cfg (counting check_availability) (w, 0%nat)
    = ((w', Z.to_nat (max_retries cfg)), Some ([], [])).
Proof.
  intros Hpos _ Hfail. unfold run_check_with.
  destruct (run_check_loop_counted (Z.to_nat (max_retries cfg - 0)) 0 w 0%nat eq_refl)
    as (made & Hrun & _ & _ & Hall).
  rewrite (Hall Hfail) in Hrun.
  destruct (run_check_loop_exhausted cfg check_availability
              (Z.to_nat (max_retries cfg) - 1) Hfail 0 w ltac:(lia)) as [w' Hex].
  rewrite Hex in Hrun. exists w'. rewrite Hrun. simpl.
  replace (max_retries cfg - 0) with (max_retries cfg) by lia. reflexivity.
Qed.

Variable isoformat : date -> string.
Variable write_outcome_at : W -> write_outcome.
Variable now_isoformat : W -> string.
Variable notify : W -> list date -> list (date * date) -> W * result unit.

(** X7.  With [max_retries] zero or negative a cycle probes nothing:
    [run_check] returns [None] at once, unpacking it raises, and the cycle
    ends in the error handler with the results file, the comparison
    baseline and the world as they were. *)
Theorem cycle_without_retries (st : scheduler_state) (w : W) :
  max_retries cfg <= 0 ->
  run_cycle isoformat (run_check_with cfg check_availability)
    write_outcome_at now_isoformat notify st w
  = (w, st, UnexpectedError).
Proof.
  intros Hmax. unfold run_cycle, run_check_with.
  rewrite run_check_loop_once. rewrite decide_False by lia. reflexivity.
Qed.

End RetryTheorems.

Lemma run_check_exhausted_attempts_witness :
  exists w' : nat,
    run_check_with DEFAULT_CONFIG
      (counting (YosemiteSeleniumChecker.check_availability
                   (Hbrowser := BrokenBrowser.browser) (Hclock := BrokenBrowser.clock)
                   DEFAULT_CONFIG)) (0%nat, 0%nat)
    = ((w', 3%nat), Some ([], [])).
Proof.
  apply (run_check_exhausted_attempts DEFAULT_CONFIG
           (YosemiteSeleniumChecker.check_availability
              (Hbrowser := BrokenBrowser.browser) (Hclock := BrokenBrowser.clock)
              DEFAULT_CONFIG) 0%nat).
  - reflexivity.
  - intros _. reflexivity.
  - intros w0. exists (S w0), ValueError. reflexivity.
Defined.

Lemma cycle_without_retries_witness :
  run_cycle Iso.isoformat
    (run_check_with no_retries
       (YosemiteRequestsChecker.check_availability
          (Hsession := OpenLodge.session) (Hclock := OpenLodge.clock) no_retries))
    (fun _ => WriteCompletes) (fun _ => "2025-04-01T11:00:00")
    (fun w _ _ => (w, Ok tt)) BrokenBrowser.earlier tt
  = (tt, BrokenBrowser.earlier, UnexpectedError).
Proof.
  apply (cycle_without_retries no_retries). vm_compute. discriminate.
Defined.

(** ** ResultDiffer and the scheduler *)

Lemma elem_of_compare_results (current previous : list date) (d : date) :
  d ∈ compare_results current previous <-> d ∈ current /\ d ∉ previous.
Proof.
  unfold compare_results.
  rewrite elem_of_elements, elem_of_difference, !elem_of_list_to_set. reflexivity.
Qed.

Lemma compare_results_nil_iff (current previous : list date) :
  compare_results current previous = [] <-> forall d, d ∈ current -> d ∈ previous.
Proof.
  split.
  - intros Hnil d Hd. destruct (decide (d ∈ previous)) as [|Hn]; [assumption|].
    assert (Hd' : d ∈ compare_results current previous)
      by (apply elem_of_compare_results; auto).
    rewrite Hnil in Hd'. inversion Hd'.
  - intros Hall. destruct (compare_results current previous) as [|d rest] eqn:Hc;
      [reflexivity|].
    assert (Hd : d ∈ compare_results current previous) by (rewrite Hc; left).
    apply elem_of_compare_results in Hd as [Hd Hn]. destruct (Hn (Hall d Hd)).
Qed.

(** X8.  [compare_results] returns, without repetition, exactly the
    dates of [current] that are not in [previous]; it returns the empty
    list exactly when every current date was already known. *)
Theorem compare_results_spec (current previous : list date) :
  (forall d : date, d ∈ compare_results current previous <-> d ∈ current /\ d ∉ previous)
  /\ NoDup (compare_results current previous)
  /\ (compare_results current previous = [] <-> forall d, d ∈ current -> d ∈ previous).
Proof.
  split; [intros d; apply elem_of_compare_results|].
  split; [apply NoDup_elements|apply compare_results_nil_iff].
Qed.

Section CycleTheorems.
Context {W : Type}.
Variable isoformat : date -> string.
Variable fromisoformat : string -> result date.
Variable run_check : W -> W * option (list date * list (date * date)).
Variable write_outcome_at : W -> write_outcome.
Variable now_isoformat : W -> string.
Variable notify : W -> list date -> list (date * date) -> W * result unit.

(** X9.  In a cycle whose [run_check] returns a result, a notification
    is attempted exactly when some returned date is not in the previous
    cycle's list, and it is attempted for exactly those dates.  When none
    is new the cycle ends without notifying, with the world as [run_check]
    left it and the returned dates as the next baseline. *)
Theorem notification_iff_new_date (st : scheduler_state) (w w1 : W)
    (available_dates : list date) (consecutive_pairs : list (date * date)) :
  run_check w = (w1, Some (available_dates, consecutive_pairs)) ->
  let '(w', st', outcome) :=
    run_cycle isoformat run_check write_outcome_at now_isoformat notify st w in
  (outcome = CycleDone false <->
     forall d, d ∈ available_dates -> d ∈ previous_available_dates st)
  /\ (outcome = CycleDone false ->
      w' = w1 /\ previous_available_dates st' = available_dates
      /\ previous_consecutive_pairs st' = consecutive_pairs)
  /\ (outcome <> CycleDone false ->
      exists new_dates : list date,
        new_dates <> []
        /\ (forall d, d ∈ new_dates <->
                      d ∈ available_dates /\ d ∉ previous_available_dates st)
        /\ w' = (notify w1 new_dates (find_consecutive_days new_dates)).1).
Proof.
  intros Hrun. unfold run_cycle. rewrite Hrun.
  pose proof (compare_results_nil_iff available_dates (previous_available_dates st)) as Hnil.
  pose proof (elem_of_compare_results available_dates (previous_available_dates st)) as Hin.
  destruct (compare_results available_dates (previous_available_dates st))
    as [|d rest].
  - split; [split; [intros _; apply Hnil; reflexivity|reflexivity]|].
    split; [intros _; simpl; auto|]. intros Hne. destruct (Hne eq_refl).
  - destruct (notify w1 (d :: rest) (find_consecutive_days (d :: rest)))
      as [w2 [[]|e]] eqn:Hn.
    + split; [split; [discriminate|]|].
      * intros Hall. apply Hnil in Hall. discriminate.
      * split; [discriminate|]. intros _. exists (d :: rest).
        split; [discriminate|]. split; [exact Hin|]. rewrite Hn. reflexivity.
    + split; [split; [discriminate|]|].
      * intros Hall. apply Hnil in Hall. discriminate.
      * split; [discriminate|]. intros _. exists (d :: rest).
        split; [discriminate|]. split; [exact Hin|]. rewrite Hn. reflexivity.
Qed.

(** X10.  The results file is written before anything is notified: in
    a cycle whose [run_check] returns a result and whose write completes,
    the file afterwards loads back as that result, also when the
    notification raises; a process started on that file takes the result
    as its comparison baseline. *)
Theorem cycle_result_survives_restart (st : scheduler_state) (w w1 : W)
    (available_dates : list date) (consecutive_pairs : list (date * date)) :
  run_check w = (w1, Some (available_dates, consecutive_pairs)) ->
  write_outcome_at w1 = WriteCompletes ->
  Forall (fun d => fromisoformat (isoformat d) = Ok d) available_dates ->
  Forall (fun p => fromisoformat (isoformat p.1) = Ok p.1
                   /\ fromisoformat (isoformat p.2) = Ok p.2) consecutive_pairs ->
  let st' := (run_cycle isoformat run_check write_outcome_at now_isoformat notify st w).1.2 in
  load_last_results fromisoformat (last_results_file st')
    = (available_dates, consecutive_pairs)
  /\ previous_available_dates (initial_state fromisoformat (last_results_file st'))
     = available_dates.
Proof.
  intros Hrun Hwrite Hd Hp.
  assert (Hfile :
    last_results_file
      (run_cycle isoformat run_check write_outcome_at now_isoformat notify st w).1.2
    = save_results isoformat WriteCompletes (now_isoformat w1)
        available_dates consecutive_pairs (last_results_file st)).
  { unfold run_cycle. rewrite Hrun, Hwrite.
    destruct (compare_results available_dates (previous_available_dates st));
      [reflexivity|].
    destruct (notify w1 _ _) as [w2 [[]|e]]; reflexivity. }
  cbv zeta. unfold initial_state. rewrite Hfile.
  rewrite (load_after_save isoformat fromisoformat _ _ _ _ Hd Hp).
  split; reflexivity.
Qed.

End CycleTheorems.


Lemma notification_iff_new_date_witness :
  let '(w', st', outcome) := open_lodge_cycle in
  outcome = CycleDone false <->
  forall d, d ∈ open_lodge_dates -> d ∈ previous_available_dates BrokenBrowser.earlier.
Proof.
  pose proof (notification_iff_new_date Iso.isoformat
                (YosemiteRequestsChecker.run_check (Hsession := OpenLodge.session)
                   (Hclock := OpenLodge.clock) OpenLodge.one_month)
                (fun _ => WriteCompletes) (fun _ => "2025-04-04T09:00:00")
                (fun w _ _ => (w, Raise KeyError))
                BrokenBrowser.earlier tt tt open_lodge_dates open_lodge_pairs
                ltac:(vm_compute; reflexivity)) as Hcycle.
  fold open_lodge_cycle in Hcycle.
  destruct open_lodge_cycle as [[w' st'] outcome]. apply Hcycle.
Defined.

Lemma cycle_result_survives_restart_witness :
  load_last_results Iso.fromisoformat (last_results_file open_lodge_cycle.1.2)
    = (open_lodge_dates, open_lodge_pairs).
Proof.
  apply (cycle_result_survives_restart Iso.isoformat Iso.fromisoformat
           (YosemiteRequestsChecker.run_check (Hsession := OpenLodge.session)
              (Hclock := OpenLodge.clock) OpenLodge.one_month)
           (fun _ => WriteCompletes) (fun _ => "2025-04-04T09:00:00")
           (fun w _ _ => (w, Raise KeyError))
           BrokenBrowser.earlier tt tt open_lodge_dates open_lodge_pairs).
  - vm_compute. reflexivity.
  - reflexivity.
  - repeat constructor.
  - repeat constructor.
Defined.

(** ** Notifier: what the configuration update leaves alone *)

Section NotifierFrame.
Import Notifier.

Lemma email_field_inv (h : heap) (config : pyval) (key : string) (v : pyval) :
  email_field h config key = Ok v ->
  exists config_loc config_dict email_loc email_dict,
    config = PDict config_loc
    /\ h !! config_loc = Some config_dict
    /\ config_dict !! "email" = Some (PDict email_loc)
    /\ h !! email_loc = Some email_dict
    /\ email_dict !! key = Some v.
Proof.
  unfold email_field, getitem. destruct config as [| | | |config_loc]; try discriminate.
  destruct (h !! config_loc) as [config_dict|] eqn:Hc; [|discriminate].
  destruct (config_dict !! "email") as [email|] eqn:He; [|discriminate]. simpl.
  destruct email as [| | | |email_loc]; try discriminate.
  destruct (h !! email_loc) as [email_dict|] eqn:Hm; [|discriminate].
  destruct (email_dict !! key) as [v'|] eqn:Hk; [|discriminate].
  intros [= <-]. eauto 10.
Qed.

(** The two outcomes of a call: nothing is assigned, or both addresses
    of the e-mail dictionary are. *)
Lemma send_email_notification_cases {A B : Type} (h : heap) (config : pyval)
    (available_dates : list A) (consecutive_pairs : list B) :
  let '(h', outcome) :=
    send_email_notification h config available_dates consecutive_pairs in
  h' = h
  \/ exists email_loc email_dict username,
       h !! email_loc = Some email_dict
       /\ outcome = Ok SendAttempted
       /\ h' = <[email_loc :=
                  <["to_address" := username]> (<["from_address" := username]> email_dict)]> h.
Proof.
  unfold send_email_notification.
  destruct (email_field h config "enabled") as [enabled|e] eqn:Hen; [|left; reflexivity].
  destruct (negb (truthy h enabled)); [left; reflexivity|].
  destruct available_dates as [|d ds]; [left; reflexivity|].
  destruct (email_field h config "username") as [username|e] eqn:Hu; [|left; reflexivity].
  destruct (if negb (truthy h username) then Ok true
            else password ← email_field h config "password";
                 Ok (negb (truthy h password))) as [[|]|e]; try (left; reflexivity).
  destruct (from_address ← email_field h config "from_address";
            if negb (truthy h from_address) then Ok true
            else to_address ← email_field h config "to_address";
                 Ok (negb (truthy h to_address))) as [[|]|e]; try (left; reflexivity).
  apply email_field_inv in Hu
    as (config_loc & config_dict & email_loc & email_dict & -> & Hc & He & Hm & Hk).
  simpl. rewrite Hc, He. simpl. rewrite Hm.
  set (h1 := <[email_loc := <["from_address" := username]> email_dict]> h).
  assert (Hm1 : h1 !! email_loc = Some (<["from_address" := username]> email_dict))
    by apply lookup_insert_eq.
  assert (Hc1 : exists config1, h1 !! config_loc = Some config1
                                /\ config1 !! "email" = Some (PDict email_loc)).
  { unfold h1. destruct (decide (email_loc = config_loc)) as [->|Hne].
    - rewrite lookup_insert_eq. eexists. split; [reflexivity|].
      rewrite lookup_insert_ne by discriminate. congruence.
    - rewrite lookup_insert_ne by assumption. eauto. }
  destruct Hc1 as (config1 & Hc1 & He1).
  rewrite (email_field_lookup h1 _ _ _ _ "username" username Hc1 He1 Hm1).
  2:{ rewrite lookup_insert_ne by discriminate. exact Hk. }
  simpl. rewrite Hc1, He1. simpl. rewrite Hm1.
  right. exists email_loc, email_dict, username.
  split; [exact Hm|]. split; [reflexivity|].
  unfold h1. rewrite insert_insert_eq. reflexivity.
Qed.

(** X12.  Whatever the configuration and the date lists,
    [send_email_notification] assigns nothing when it returns early (mail
    disabled, no dates, credentials missing) or raises, and in no case
    does it create or remove an object or change any entry other than
    ["from_address"] and ["to_address"]. *)
Theorem send_email_notification_frame {A B : Type} (h : heap) (config : pyval)
    (available_dates : list A) (consecutive_pairs : list B) :
  let '(h', outcome) :=
    send_email_notification h config available_dates consecutive_pairs in
  (outcome <> Ok SendAttempted -> h' = h)
  /\ (forall l : loc, is_Some (h' !! l) <-> is_Some (h !! l))
  /\ (forall (l : loc) (key : string),
        key <> "from_address" -> key <> "to_address" ->
        (h' !! l) ≫= (fun d => d !! key) = (h !! l) ≫= (fun d => d !! key)).
Proof.
  pose proof (send_email_notification_cases h config available_dates consecutive_pairs)
    as Hcases.
  destruct (send_email_notification h config available_dates consecutive_pairs)
    as [h' outcome].
  destruct Hcases as [->|(email_loc & email_dict & username & Hm & -> & ->)].
  - split; [reflexivity|]. split; reflexivity.
  - split; [intros Hne; destruct (Hne eq_refl)|]. split.
    + intros l. destruct (decide (l = email_loc)) as [->|Hne].
      * rewrite lookup_insert_eq, Hm. split; eauto.
      * rewrite lookup_insert_ne by congruence. reflexivity.
    + intros l key Hk1 Hk2. destruct (decide (l = email_loc)) as [->|Hne].
      * rewrite lookup_insert_eq, Hm. simpl.
        rewrite !lookup_insert_ne by congruence. reflexivity.
      * rewrite lookup_insert_ne by congruence. reflexivity.
Qed.

End NotifierFrame.

(** ** Notifier: delivery *)

Section DeliveryFacts.
Import Delivery.

(** X13.  Every address handed to the mail server contains an at-sign:
    [with_gmail_domain] leaves an address that has one as it is, appends
    "@gmail.com" to one that has none, and applying it twice changes
    nothing more. *)
Theorem with_gmail_domain_spec (address : string) :
  contains "@" (with_gmail_domain address) = true
  /\ (contains "@" address = true -> with_gmail_domain address = address)
  /\ (contains "@" address = false ->
      with_gmail_domain address = String.append address "@gmail.com")
  /\ with_gmail_domain (with_gmail_domain address) = with_gmail_domain address.
Proof.
  assert (Hhas : contains "@" (with_gmail_domain address) = true).
  { unfold with_gmail_domain. destruct (contains "@" address) eqn:Hc; [exact Hc|].
    apply contains_append_r. reflexivity. }
  split; [exact Hhas|]. split; [|split].
  - intros Hc. unfold with_gmail_domain. rewrite Hc. reflexivity.
  - intros Hc. unfold with_gmail_domain. rewrite Hc. reflexivity.
  - unfold with_gmail_domain at 1. rewrite Hhas. reflexivity.
Qed.

Context {W : Type}.
Variable smtp : W -> smtp_call -> W * bool.
Variable smtp_server : string.
Variable smtp_port : Z.
Variable config_username config_password : string.
Variable from_addr to_addr message : string.

(** X14.  When the connection to the configured port cannot be opened,
    the server never takes the message, whatever it would accept on the
    SSL port: the fallback connects on port 465 and, when that succeeds,
    stops at the local variable [username], which only the first block
    assigns, after its STARTTLS handshake; the block is then left with a
    QUIT. *)
Theorem ssl_fallback_after_failed_connection (w : W) :
  (smtp w (Connect smtp_server smtp_port)).2 = false ->
  let w1 := (smtp w (Connect smtp_server smtp_port)).1 in
  let w2 := (smtp w1 (ConnectSsl smtp_server 465)).1 in
  deliver smtp smtp_server smtp_port config_username config_password
          from_addr to_addr message w
  = if (smtp w1 (ConnectSsl smtp_server 465)).2
    then ((smtp w2 Quit).1, mkDelivery 0 (Failed true))
    else (w2, mkDelivery 0 (Failed false)).
Proof.
  intros Hfail. cbv zeta. unfold deliver, starttls_attempt.
  destruct (smtp w (Connect smtp_server smtp_port)) as [w1 connected].
  simpl in Hfail. subst connected. simpl. unfold ssl_attempt, ssl_body.
  destruct (smtp w1 (ConnectSsl smtp_server 465)) as [w2 [|]]; simpl; [|reflexivity].
  destruct (smtp w2 Quit) as [w3 quitted]. reflexivity.
Qed.



End DeliveryFacts.

Lemma ssl_fallback_after_failed_connection_witness :
  Delivery.deliver Delivery.ssl_only_server "smtp.gmail.com" 587
    "ranger" "app-password" "ranger@gmail.com" "ranger@gmail.com" "Subject: test" tt
  = (tt, Delivery.mkDelivery 0 (Delivery.Failed true)).
Proof.
  apply (ssl_fallback_after_failed_connection Delivery.ssl_only_server
           "smtp.gmail.com" 587 "ranger" "app-password"
           "ranger@gmail.com" "ranger@gmail.com" "Subject: test" tt).
  reflexivity.
Defined.

(** A server that refuses the first QUIT is given the message twice. *)
Example message_handed_over_twice :
  Delivery.deliver Delivery.quit_refusing_server "smtp.gmail.com" 587
    "ranger" "app-password" "ranger@gmail.com" "ranger@gmail.com" "Subject: test" 0%nat
  = (2%nat, Delivery.mkDelivery 2 (Delivery.Sent true)).
Proof. vm_compute. reflexivity. Qed.

(** ** Configuration file *)

Section ConfigFileFacts.
Import ConfigFile.

Lemma members_get_set (key key' : string) (value : json) (members : list (string * json)) :
  members_get (members_set key value members) key'
  = if String.eqb key key' then Some value else members_get members key'.
Proof.
  induction members as [|[k v] rest IH]; simpl.
  - rewrite String.eqb_sym. reflexivity.
  - destruct (String.eqb_spec k key) as [->|Hne]; simpl.
    + destruct (String.eqb key key'); reflexivity.
    + destruct (String.eqb_spec k key') as [->|Hne'].
      * destruct (String.eqb_spec key key'); [congruence|reflexivity].
      * exact IH.
Qed.

Lemma members_get_absent (key : string) (members : list (string * json)) :
  key ∉ members.*1 -> members_get members key = None.
Proof.
  induction members as [|[k v] rest IH]; simpl; [reflexivity|].
  rewrite not_elem_of_cons. intros [Hne Hrest].
  destruct (String.eqb_spec k key); [congruence|apply IH, Hrest].
Qed.

(** Lookup after [update], for another dictionary with distinct keys. *)
Lemma members_get_update (other : list (string * json)) :
  forall (members : list (string * json)) (key : string),
  NoDup other.*1 ->
  members_get (members_update members other) key
  = match members_get other key with
    | Some value => Some value
    | None => members_get members key
    end.
Proof.
  unfold members_update.
  induction other as [|[k v] rest IH]; intros members key Hnd; simpl; [reflexivity|].
  apply NoDup_cons in Hnd as [Hk Hnd]. rewrite (IH _ _ Hnd), members_get_set.
  destruct (String.eqb_spec k key) as [->|Hne]; [|reflexivity].
  rewrite (members_get_absent key rest Hk). reflexivity.
Qed.

Lemma merge_entry_config (st : merge_state) (key : string) (value : json) :
  config (merge_entry st (key, value))
  = members_set key (merged_value value (members_get (config st) key)) (config st).
Proof.
  unfold merge_entry, merged_value.
  destruct value; try reflexivity.
  destruct (members_get (config st) key) as [[]|]; reflexivity.
Qed.

Lemma merge_config_lookup (user : list (string * json)) :
  forall (st : merge_state) (key : string),
  NoDup user.*1 ->
  members_get (config (fold_left merge_entry user st)) key
  = match members_get user key with
    | Some value => Some (merged_value value (members_get (config st) key))
    | None => members_get (config st) key
    end.
Proof.
  induction user as [|[k v] rest IH]; intros st key Hnd; cbn [fold_left members_get];
    [reflexivity|].
  apply NoDup_cons in Hnd as [Hk Hnd]. rewrite (IH _ _ Hnd), merge_entry_config.
  rewrite members_get_set.
  destruct (String.eqb_spec k key) as [->|Hne]; [|reflexivity].
  rewrite (members_get_absent key rest Hk). reflexivity.
Qed.

Lemma merge_entry_defaults (st : merge_state) (key key' : string) (value : json) :
  members_get (defaults (merge_entry st (key, value))) key'
  = if String.eqb key key'
    then leaked_value value (members_get (config st) key) (members_get (defaults st) key)
    else members_get (defaults st) key'.
Proof.
  assert (Hsame : leaked_value value (members_get (config st) key)
                               (members_get (defaults st) key)
                  = members_get (defaults st) key ->
                  defaults (merge_entry st (key, value)) = defaults st ->
                  members_get (defaults (merge_entry st (key, value))) key'
                  = if String.eqb key key'
                    then leaked_value value (members_get (config st) key)
                                      (members_get (defaults st) key)
                    else members_get (defaults st) key').
  { intros -> ->. destruct (String.eqb_spec key key') as [->|]; reflexivity. }
  unfold merge_entry, leaked_value in *.
  destruct value; try (apply Hsame; reflexivity).
  destruct (members_get (config st) key) as [[]|]; try (apply Hsame; reflexivity).
  destruct (members_get (defaults st) key) eqn:Hd; [|apply Hsame; reflexivity].
  cbn [defaults]. rewrite members_get_set.
  destruct (String.eqb_spec key key'); reflexivity.
Qed.

Lemma merge_defaults_lookup (user : list (string * json)) :
  forall (st : merge_state) (key : string),
  NoDup user.*1 ->
  members_get (defaults (fold_left merge_entry user st)) key
  = match members_get user key with
    | Some value =>
        leaked_value value (members_get (config st) key) (members_get (defaults st) key)
    | None => members_get (defaults st) key
    end.
Proof.
  induction user as [|[k v] rest IH]; intros st key Hnd; cbn [fold_left members_get];
    [reflexivity|].
  apply NoDup_cons in Hnd as [Hk Hnd]. rewrite (IH _ _ Hnd).
  rewrite merge_entry_defaults, merge_entry_config, members_get_set.
  destruct (String.eqb_spec k key) as [->|Hne]; [|reflexivity].
  rewrite (members_get_absent key rest Hk). reflexivity.
Qed.

Lemma merge_keeps_keys (user : list (string * json)) :
  forall (st : merge_state) (key : string),
  is_Some (members_get (config st) key) ->
  is_Some (members_get (config (fold_left merge_entry user st)) key).
Proof.
  induction user as [|[k v] rest IH]; intros st key Hkey; cbn [fold_left]; [exact Hkey|].
  apply IH. rewrite merge_entry_config, members_get_set.
  destruct (String.eqb k key); [eauto|exact Hkey].
Qed.

(** X16.  For a configuration file holding a JSON object with distinct
    keys, the loaded configuration has, for every key, the user's value
    when the file has one and the default otherwise; when both the user's
    value and the default are dictionaries it has their one-level merge,
    in which a nested key has the user's value when given and the default
    otherwise. *)
Theorem load_config_merges_user_file (outcome : write_outcome)
    (default_config user_config : list (string * json)) (key : string) :
  NoDup user_config.*1 ->
  let loaded :=
    config (load_config outcome default_config
              (Present true (Document (JObj user_config)))).1 in
  members_get loaded key
  = match members_get user_config key with
    | Some value => Some (merged_value value (members_get default_config key))
    | None => members_get default_config key
    end
  /\ (forall (other nested : list (string * json)) (nested_key : string),
        members_get user_config key = Some (JObj other) ->
        members_get default_config key = Some (JObj nested) ->
        NoDup other.*1 ->
        exists merged,
          members_get loaded key = Some (JObj merged)
          /\ members_get merged nested_key
             = match members_get other nested_key with
               | Some value => Some value
               | None => members_get nested nested_key
               end).
Proof.
  intros Hnd. cbv zeta. cbn [load_config fst].
  rewrite (merge_config_lookup user_config _ key Hnd). cbn [config].
  split; [reflexivity|].
  intros other nested nested_key -> -> Hother. eexists. split; [reflexivity|].
  apply members_get_update, Hother.
Qed.

(** X17.  [load_config] changes [DEFAULT_CONFIG] itself: for a
    configuration file holding a JSON object with distinct keys, every
    nested dictionary of [DEFAULT_CONFIG] for which the file has a
    dictionary is left holding the merge, the same as the returned
    configuration; every other entry of [DEFAULT_CONFIG] is unchanged. *)
Theorem load_config_updates_defaults (outcome : write_outcome)
    (default_config user_config : list (string * json)) (key : string) :
  NoDup user_config.*1 ->
  let after :=
    (load_config outcome default_config
       (Present true (Document (JObj user_config)))).1 in
  (forall other nested : list (string * json),
     members_get user_config key = Some (JObj other) ->
     members_get default_config key = Some (JObj nested) ->
     members_get (defaults after) key = Some (JObj (members_update nested other))
     /\ members_get (defaults after) key = members_get (config after) key)
  /\ ((forall other, members_get user_config key <> Some (JObj other))
      \/ (forall nested, members_get default_config key <> Some (JObj nested)) ->
      members_get (defaults after) key = members_get default_config key).
Proof.
  intros Hnd. cbv zeta. cbn [load_config fst].
  rewrite (merge_defaults_lookup user_config _ key Hnd),
          (merge_config_lookup user_config _ key Hnd). cbn [config defaults].
  split.
  - intros other nested -> ->. split; reflexivity.
  - intros Hnot. destruct (members_get user_config key) as [value|]; [|reflexivity].
    unfold leaked_value. destruct value; try reflexivity.
    destruct (members_get default_config key) as [[]|]; try reflexivity.
    destruct Hnot as [Hnot|Hnot]; [destruct (Hnot _ eq_refl)|destruct (Hnot _ eq_refl)].
Qed.

(** X18.  Whatever the configuration file holds, every key of
    [DEFAULT_CONFIG] is a key of the configuration [load_config] returns;
    and when the file is absent, cannot be read, is not JSON or is not a
    JSON object, the returned configuration is [DEFAULT_CONFIG], which is
    left as it was. *)
Theorem load_config_keeps_default_keys (outcome : write_outcome)
    (default_config : list (string * json)) (file : file_state) :
  (forall key : string,
     is_Some (members_get default_config key) ->
     is_Some (members_get (config (load_config outcome default_config file).1) key))
  /\ ((forall user_config, file <> Present true (Document (JObj user_config))) ->
      (load_config outcome default_config file).1
      = mkMerge default_config default_config).
Proof.
  split.
  - intros key Hkey.
    destruct file as [|[|] [|[]]]; try exact Hkey.
    cbn [load_config fst]. apply merge_keeps_keys. exact Hkey.
  - intros Hnot. destruct file as [|[|] [|[]]]; try reflexivity.
    destruct (Hnot _ eq_refl).
Qed.

End ConfigFileFacts.

Lemma load_config_merges_user_file_witness :
  members_get
    (ConfigFile.config
       (ConfigFile.load_config WriteCompletes ConfigFile.DEFAULT_CONFIG
          (Present true (Document (JObj ConfigFile.sample_user_config)))).1)
    "months_ahead"
  = Some (JNum 3).
Proof.
  apply (load_config_merges_user_file WriteCompletes ConfigFile.DEFAULT_CONFIG
           ConfigFile.sample_user_config "months_ahead").
  repeat constructor; rewrite ?elem_of_cons, ?elem_of_nil; intuition discriminate.
Defined.

Lemma load_config_updates_defaults_witness :
  exists email : list (string * json),
    members_get
      (ConfigFile.defaults
         (ConfigFile.load_config WriteCompletes ConfigFile.DEFAULT_CONFIG
            (Present true (Document (JObj ConfigFile.sample_user_config)))).1)
      "email"
    = Some (JObj email)
    /\ members_get email "username" = Some (JStr "ranger@example.org").
Proof.
  assert (Hnd : NoDup ConfigFile.sample_user_config.*1)
    by (repeat constructor; rewrite ?elem_of_cons, ?elem_of_nil; intuition discriminate).
  destruct (load_config_updates_defaults WriteCompletes ConfigFile.DEFAULT_CONFIG
              ConfigFile.sample_user_config "email" Hnd) as [Hmerge _].
  destruct (Hmerge _ _ eq_refl eq_refl) as [Hdefault _].
  eexists. split; [exact Hdefault|]. reflexivity.
Defined.

(** ** The HTTP checker and the retry loop *)

Lemma probe_loop_all_fail {W : Type} (cfg : config)
    (fetch : W -> date -> date -> W * result page) (classify : page -> bool)
    (l : list date) (indices : list nat) :
  (forall w d1 d2, exists w' e, fetch w d1 d2 = (w', Raise e)) ->
  forall (w : W) (acc : list date),
    (probe_loop cfg fetch classify l indices w acc).2 = acc.
Proof.
  intros Hfail. induction indices as [|i indices IH]; intros w acc; simpl; [reflexivity|].
  destruct (l !! i) as [check_in|]; [|reflexivity].
  destruct (date_add check_in 1) as [check_out|e]; [|reflexivity].
  destruct (skipped cfg check_in); [apply IH|].
  destruct (Hfail w check_in check_out) as (w' & e & ->). apply IH.
Qed.

Section RequestsRetry.
Context {W : Type} {Hsession : Session W} {Hclock : Clock W}.
Variable cfg : config.

(** X19.  The HTTP checker's [check_availability] catches every failure
    of the network, so with a clock showing calendar days and a horizon
    inside the calendar it always returns a list, the empty one when the
    first visit of the main page fails or every search fails; [run_check]
    then makes exactly one attempt and the retry policy is never used. *)
Theorem requests_run_check_single_attempt (w : W) :
  0 < max_retries cfg ->
  (forall w0 : W, valid_date (today w0)
                  /\ 1 <= today w0 + 30 * months_ahead cfg < MAXORD) ->
  exists (w' : W) (l : list date),
    YosemiteRequestsChecker.check_availability cfg w = (w', Ok l)
    /\ run_check_with cfg (counting (YosemiteRequestsChecker.check_availability cfg))
         (w, 0%nat)
       = ((w', 1%nat), Some (l, find_consecutive_days l))
    /\ ((get_main_page w).2 <> Ok tt -> l = [])
    /\ ((forall w0 d1 d2, exists w1 e, session_fetch w0 d1 d2 = (w1, Raise e)) -> l = []).
Proof.
  intros Hmax Hclockv.
  assert (Hok : exists w' l,
            YosemiteRequestsChecker.check_availability cfg w = (w', Ok l)
            /\ ((get_main_page w).2 <> Ok tt -> l = [])
            /\ ((forall w0 d1 d2, exists w1 e, session_fetch w0 d1 d2 = (w1, Raise e)) ->
                l = [])).
  { unfold YosemiteRequestsChecker.check_availability.
    destruct (Hclockv w) as [Hv Hr].
    rewrite get_weekend_dates_closed_form by exact Hv.
    rewrite decide_True by exact Hr.
    destruct (get_main_page w) as [w1 [[]|e]]; simpl.
    - pose proof (probe_loop_all_fail cfg session_fetch RequestsClassifier.classify
                    (weekend_days_between (today w) (today w + 30 * months_ahead cfg))
                    (seq 0 (length (weekend_days_between (today w)
                                      (today w + 30 * months_ahead cfg)) - 1))) as Hall.
      unfold probe_all.
      destruct (probe_loop cfg session_fetch RequestsClassifier.classify _ _ w1 [])
        as [w2 found] eqn:Hp.
      exists w2, found. split; [reflexivity|]. split; [intros Hne; destruct (Hne eq_refl)|].
      intros Hfail. specialize (Hall Hfail w1 []). rewrite Hp in Hall. exact Hall.
    - exists w1, []. split; [reflexivity|]. split; reflexivity. }
  destruct Hok as (w' & l & Hc & Hmain & Hfetch).
  exists w', l. split; [exact Hc|]. split; [|split; assumption].
  unfold run_check_with. rewrite run_check_loop_once.
  rewrite decide_True by lia. unfold counting at 1. rewrite Hc. reflexivity.
Qed.

End RequestsRetry.

Lemma requests_run_check_single_attempt_witness :
  exists (w' : unit) (l : list date),
    YosemiteRequestsChecker.check_availability
      (Hsession := OpenLodge.session) (Hclock := OpenLodge.clock)
      OpenLodge.one_month tt = (w', Ok l)
    /\ run_check_with OpenLodge.one_month
         (counting (YosemiteRequestsChecker.check_availability
                      (Hsession := OpenLodge.session) (Hclock := OpenLodge.clock)
                      OpenLodge.one_month)) (tt, 0%nat)
       = ((w', 1%nat), Some (l, find_consecutive_days l)).
Proof.
  destruct (requests_run_check_single_attempt
              (Hsession := OpenLodge.session) (Hclock := OpenLodge.clock)
              OpenLodge.one_month tt) as (w' & l & Hc & Hrun & _).
  - reflexivity.
  - intros w0. vm_compute. repeat split; try discriminate; reflexivity.
  - exists w', l. split; assumption.
Defined.

(** ** The single-date check *)

Lemma room_text_found (phrase : string) (p : page) :
  phrase <> EmptyString ->
  lower phrase ∈ SpecificDate.room_text_indicators ->
  existsb (elem_test (fun _ _ children => contains phrase (first_text children)))
          (visible_nodes p) = true ->
  SpecificDate.has_room_text p = true.
Proof.
  intros Hne Hin Hfound. unfold SpecificDate.has_room_text, any_phrase_in.
  apply existsb_exists. exists (lower phrase). split; [apply list_elem_of_In, Hin|].
  unfold RequestsClassifier.page_text. apply contains_lower.
  apply get_text_of_element; assumption.
Qed.

Lemma room_class_is_rate_element (p : page) :
  exists_node (elem_test (fun tag cls _ => String.eqb tag "div" && contains "room" cls)) p
    = true ->
  RequestsClassifier.rate_elements p <> [].
Proof.
  intros Hfound. apply filter_nonempty_existsb.
  unfold exists_node in Hfound. apply existsb_exists in Hfound as (n & Hn & Htest).
  apply existsb_exists. exists n. split; [exact Hn|].
  destruct n as [s|tag cls children]; [discriminate|]. simpl in *.
  apply andb_true_iff in Htest as [Htag Hroom]. rewrite Htag. simpl.
  assert (Hcls : cls <> EmptyString) by (intros ->; discriminate).
  destruct (String.eqb_spec cls EmptyString); [congruence|]. simpl.
  apply orb_true_iff. right. apply (contains_lower "room"), Hroom.
Qed.

(** X20.  The single-date check of the browser variant is at least as
    permissive as the room-details signal of the periodic check: a page on
    which the periodic check finds room details, in particular one it
    classifies available with neither a book button nor a price, is
    available to the single-date check.  Where the page has a [div] whose
    class contains "room", or an element outside the string containers
    whose text matches one of the browser variant's four text selectors,
    the single-date checks of both variants classify it available. *)
Theorem specific_date_verdicts (p : page) :
  (SeleniumClassifier.has_room_details p = true ->
   SpecificDate.selenium_verdict p = true)
  /\ (SeleniumClassifier.classify p = true ->
      SeleniumClassifier.has_book_button p = false ->
      SeleniumClassifier.has_price p = false ->
      SpecificDate.selenium_verdict p = true)
  /\ (exists_node (elem_test (fun tag cls _ =>
                     String.eqb tag "div" && contains "room" cls)) p = true ->
      SpecificDate.requests_verdict p = true /\ RequestsClassifier.classify p = true)
  /\ (forall phrase,
        phrase ∈ ["Traditional Room"; "Double Beds"; "ADD TO CART"; "AVERAGE/NIGHT"] ->
        existsb (elem_test (fun _ _ children => contains phrase (first_text children)))
                (visible_nodes p) = true ->
        SpecificDate.selenium_verdict p = true
        /\ SpecificDate.requests_verdict p = true).
Proof.
  assert (Hroom : SeleniumClassifier.has_room_details p = true ->
                  SpecificDate.selenium_verdict p = true).
  { intros Hd. unfold SpecificDate.selenium_verdict, SpecificDate.has_room_details.
    cbn [SpecificDate.room_selectors existsb].
    unfold SeleniumClassifier.has_room_details in Hd. rewrite Hd. reflexivity. }
  split; [exact Hroom|]. split; [|split].
  - intros Hc Hb Hp. apply Hroom.
    apply selenium_classify_true in Hc as (_ & Hpos & _).
    unfold SeleniumClassifier.positive_signal in Hpos. rewrite Hb, Hp in Hpos.
    exact Hpos.
  - intros Hdiv. pose proof (room_class_is_rate_element p Hdiv) as Hrate.
    split.
    + unfold SpecificDate.requests_verdict.
      rewrite (proj2 (truthy_nonempty _) Hrate). reflexivity.
    + apply requests_classify_true. left. exact Hrate.
  - intros phrase Hin Hvisible.
    pose proof (visible_exists_node _ p Hvisible) as Hfound.
    assert (Hne : phrase <> EmptyString).
    { rewrite !elem_of_cons, elem_of_nil in Hin.
      destruct Hin as [->|[->|[->|[->|[]]]]]; discriminate. }
    split.
    + unfold SpecificDate.selenium_verdict, SpecificDate.has_room_details.
      cbn [SpecificDate.room_selectors existsb].
      rewrite !elem_of_cons, elem_of_nil in Hin.
      destruct Hin as [->|[->|[->|[->|[]]]]]; rewrite Hfound;
        rewrite ?orb_true_r; reflexivity.
    + unfold SpecificDate.requests_verdict.
      rewrite (room_text_found phrase p Hne); [apply orb_true_r| |exact Hvisible].
      rewrite !elem_of_cons, elem_of_nil in Hin.
      destruct Hin as [->|[->|[->|[->|[]]]]];
        unfold SpecificDate.room_text_indicators; cbn [lower];
        rewrite !elem_of_cons; auto 10.
Qed.
